(** * tg-nhl-agent: the daily digest use case

    A shallow embedding of [src/tg_nhl_agent/contracts.py],
    [src/tg_nhl_agent/usecase.py] and [src/tg_nhl_agent/redact.py], and the
    properties of the time window, the scorer, the ranker, the public view
    builder, the renderer, the orchestrator, the mock adapters and the
    masking of secrets.

    Conventions.
    - A Python [str] is a [string] holding its UTF-8 encoding.
    - A Python [int] is a [Z].
    - A Python [float] is a type [R] with the operations of the class
      [PyFloat].  The functions of the use case are written once over that
      class.  The float of Python is IEEE 754 binary64 ([PrimFloat.float],
      the instance [binary64_float]), in which every sample run is
      evaluated; what does not depend on the arithmetic is proved for every
      instance, the rest for binary64.
    - A [dict] is a [gmap], a [set] a [gset].
    - A [datetime] is its wall-clock reading in microseconds (the ordinal of
      the day times the microseconds of a day, plus the time of day), with
      its [tzinfo] and [fold]; a [date] is the ordinal of the day.
    - A function that can raise returns an [option]; [None] is the
      exception.
    - The list of errors that [run_daily_digest] extends in place lives in a
      store of list objects ([Heap]); a [PostPublic] refers to its error list
      by address, as the Python object does. *)

From Stdlib Require Import ZArith Lia List Permutation Sorted.
From Stdlib Require Import Ascii String.
From Stdlib Require Import PrimFloat SpecFloat FloatOps FloatAxioms.
From stdpp Require Import base option list strings gmap.

Set Warnings "-inexact-float".

Local Open Scope Z_scope.

(* ===================================================================== *)
(** * Python floats *)
(* ===================================================================== *)

(** The operations the use case performs on floats: [+], [*], [/], [<],
    [<=] and [==]; [f_of_int n] is [float(n)] for an int [n], and the
    conversion of the int in [n / x] for a float [x], where [None] stands
    for [OverflowError] ("int too large to convert to float"); [f_const n]
    is the float of the small int [n], of which the float literals of the
    source are made. *)
Class PyFloat (R : Type) := {
  f_add : R -> R -> R;
  f_mul : R -> R -> R;
  f_div : R -> R -> R;
  f_of_int : Z -> option R;
  f_const : Z -> R;
  f_ltb : R -> R -> bool;
  f_leb : R -> R -> bool;
  f_eqb : R -> R -> bool
}.

(** binary64.  An int is rounded to nearest, ties to even; [float(n)]
    raises when [n] rounds to 2^1024 or beyond, that is, to an infinity. *)
Definition nearest_float (n : Z) : float :=
  SF2Prim (binary_normalize prec emax n 0 false).

Definition float_of_Z (n : Z) : option float :=
  let x := nearest_float n in
  if PrimFloat.is_infinity x then None else Some x.

#[export] Instance binary64_float : PyFloat float := {|
  f_add := PrimFloat.add;
  f_mul := PrimFloat.mul;
  f_div := PrimFloat.div;
  f_of_int := float_of_Z;
  f_const := nearest_float;
  f_ltb := PrimFloat.ltb;
  f_leb := PrimFloat.leb;
  f_eqb := PrimFloat.eqb
|}.

Section FloatOps.
Context {R : Type} `{PyFloat R}.

(** The decimal literal [m]e-[k], e.g. [lit 2 1] for [0.2].  In binary64
    the quotient of two exactly representable integers is correctly
    rounded, so it is the value the Python literal denotes. *)
Definition lit (m : Z) (k : nat) : R :=
  f_div (f_const m) (f_const (10 ^ Z.of_nat k)).

Definition f_zero : R := f_const 0.

(** Truth value of a float: [bool(x)] is [x != 0.0]. *)
Definition truthy (x : R) : bool := negb (f_eqb x f_zero).

(** [min(a, b)]: the first argument unless the second is smaller. *)
Definition py_min (a b : R) : R := if f_ltb b a then b else a.

(** [x != x], which holds of NaN only. *)
Definition is_nan (x : R) : bool := negb (f_eqb x x).
End FloatOps.

(* ===================================================================== *)
(** * Python strings *)
(* ===================================================================== *)

Local Open Scope string_scope.
Local Open Scope list_scope.
Local Open Scope Z_scope.

Definition byte (c : ascii) : Z := Z.of_N (N_of_ascii c).

Definition between (lo x hi : Z) : bool := (lo <=? x) && (x <=? hi).

(** Number of bytes of the white-space character at the head of [s], [0]
    when [s] does not start with one.  The characters are those for which
    [str.isspace] holds: U+0009..U+000D, U+001C..U+0020, U+0085, U+00A0,
    U+1680, U+2000..U+200A, U+2028, U+2029, U+202F, U+205F, U+3000. *)
Definition space_width (s : string) : nat :=
  match s with
  | EmptyString => 0%nat
  | String a r =>
    let a := byte a in
    if between 9 a 13 || between 28 a 32 then 1%nat
    else match r with
    | EmptyString => 0%nat
    | String b r' =>
      let b := byte b in
      if (a =? 194) && ((b =? 133) || (b =? 160)) then 2%nat
      else match r' with
      | EmptyString => 0%nat
      | String c _ =>
        let c := byte c in
        if (a =? 225) && (b =? 154) && (c =? 128) then 3%nat
        else if (a =? 226) && (b =? 128)
                && (between 128 c 138 || (c =? 168) || (c =? 169) || (c =? 175))
        then 3%nat
        else if (a =? 226) && (b =? 129) && (c =? 159) then 3%nat
        else if (a =? 227) && (b =? 128) && (c =? 128) then 3%nat
        else 0%nat
      end
    end
  end.

(** [s.lstrip()] *)
Fixpoint lstrip (s : string) : string :=
  match s with
  | EmptyString => EmptyString
  | String _ r =>
    match space_width s with
    | 0%nat => s
    | 1%nat => lstrip r
    | 2%nat => match r with String _ r2 => lstrip r2 | _ => s end
    | _ => match r with String _ (String _ r3) => lstrip r3 | _ => s end
    end
  end.

Definition all_space (s : string) : bool :=
  match lstrip s with EmptyString => true | _ => false end.

(** [s.rstrip()] *)
Fixpoint rstrip (s : string) : string :=
  match s with
  | EmptyString => EmptyString
  | String a r => if all_space s then EmptyString else String a (rstrip r)
  end.

(** [s.strip()] *)
Definition strip (s : string) : string := rstrip (lstrip s).

Definition lower_ascii (c : ascii) : ascii :=
  if between 65 (byte c) 90 then ascii_of_N (N_of_ascii c + 32) else c.

(** [s.lower()] on the letters A..Z.  The use case only compares the result
    with ["player"] and ["team"]; no character outside A..Z has a lower-case
    form made of the letters of these two words, so the comparison has the
    outcome it has in Python. *)
Fixpoint lower (s : string) : string :=
  match s with
  | EmptyString => EmptyString
  | String c r => String (lower_ascii c) (lower r)
  end.

(** [sep.join(parts)] *)
Fixpoint join (sep : string) (parts : list string) : string :=
  match parts with
  | [] => ""
  | [p] => p
  | p :: rest => p +:+ sep +:+ join sep rest
  end.

Definition newline : string := String (ascii_of_N 10) EmptyString.

(** Truth value of a string and of an optional string. *)
Definition nonempty (s : string) : bool :=
  match s with EmptyString => false | _ => true end.

(** [a or b] for [a : Optional[str]]. *)
Definition opt_str_or (a : option string) (b : string) : string :=
  match a with
  | Some s => if nonempty s then s else b
  | None => b
  end.

(** [a or b] for [a : str]. *)
Definition str_or (a b : string) : string := if nonempty a then a else b.

(** Decimal digits of a natural number, at least [width] of them. *)
Fixpoint digits_fuel (fuel : nat) (n : Z) (acc : string) : string :=
  match fuel with
  | O => acc
  | S fuel' =>
    let acc' := String (ascii_of_N (Z.to_N (48 + n mod 10))) acc in
    if n <? 10 then acc' else digits_fuel fuel' (n / 10) acc'
  end.

Definition digits (n : Z) : string :=
  digits_fuel (S (Z.to_nat (Z.log2 n))) n "".

Fixpoint zeros (k : nat) : string :=
  match k with O => "" | S k' => String "0" (zeros k') end.

(** ["%0<width>d" % n] for [0 <= n]. *)
Definition zero_padded (width : nat) (n : Z) : string :=
  let d := digits n in zeros (width - String.length d) +:+ d.

(* ===================================================================== *)
(** * The [datetime] module *)
(* ===================================================================== *)

Definition US_PER_SECOND : Z := 1000000.
Definition US_PER_MINUTE : Z := 60 * US_PER_SECOND.
Definition US_PER_HOUR : Z := 60 * US_PER_MINUTE.
Definition US_PER_DAY : Z := 24 * US_PER_HOUR.

(** A [date] is its proleptic Gregorian ordinal: day 1 is 0001-01-01 and
    day [MAXORDINAL] is 9999-12-31. *)
Definition date : Type := Z.
Definition MAXORDINAL : Z := 3652059.

Definition is_leap (y : Z) : bool :=
  (y mod 4 =? 0) && (negb (y mod 100 =? 0) || (y mod 400 =? 0)).

Definition days_before_year (year : Z) : Z :=
  let y := year - 1 in y * 365 + y / 4 - y / 100 + y / 400.

Definition DAYS_IN_MONTH : list Z :=
  [0; 31; 28; 31; 30; 31; 30; 31; 31; 30; 31; 30; 31].
Definition DAYS_BEFORE_MONTH : list Z :=
  [0; 0; 31; 59; 90; 120; 151; 181; 212; 243; 273; 304; 334].

Definition days_before_month (year month : Z) : Z :=
  nth (Z.to_nat month) DAYS_BEFORE_MONTH 0
  + (if (2 <? month) && is_leap year then 1 else 0).

Definition ymd2ord (year month day : Z) : date :=
  days_before_year year + days_before_month year month + day.

Definition DI400Y : Z := 146097.
Definition DI100Y : Z := 36524.
Definition DI4Y : Z := 1461.

Definition ord2ymd (n : date) : Z * Z * Z :=
  let n := n - 1 in
  let n400 := n / DI400Y in let n := n mod DI400Y in
  let year := n400 * 400 + 1 in
  let n100 := n / DI100Y in let n := n mod DI100Y in
  let n4 := n / DI4Y in let n := n mod DI4Y in
  let n1 := n / 365 in let n := n mod 365 in
  let year := year + n100 * 100 + n4 * 4 + n1 in
  if (n1 =? 4) || (n100 =? 4) then (year - 1, 12, 31)
  else
    let leapyear := (n1 =? 3) && (negb (n4 =? 24) || (n100 =? 3)) in
    let month := Z.shiftr (n + 50) 5 in
    let preceding :=
      nth (Z.to_nat month) DAYS_BEFORE_MONTH 0
      + (if (2 <? month) && leapyear then 1 else 0) in
    if n <? preceding then
      let month := month - 1 in
      let preceding :=
        preceding - (nth (Z.to_nat month) DAYS_IN_MONTH 0
                     + (if (month =? 2) && leapyear then 1 else 0)) in
      (year, month, n - preceding + 1)
    else (year, month, n - preceding + 1).

(** [str(d)] for a date: YYYY-MM-DD. *)
Definition date_isoformat (d : date) : string :=
  let '(y, m, dd) := ord2ymd d in
  zero_padded 4 y +:+ "-" +:+ zero_padded 2 m +:+ "-" +:+ zero_padded 2 dd.

(** A [timedelta] is a number of microseconds; its days must stay within
    +-999999999 ([OverflowError] otherwise). *)
Definition timedelta : Type := Z.

Definition mk_timedelta (us : Z) : option timedelta :=
  if between (-999999999) (us / US_PER_DAY) 999999999 then Some us else None.

Definition timedelta_days (d : Z) : option timedelta := mk_timedelta (d * US_PER_DAY).
Definition timedelta_hours (h : Z) : option timedelta := mk_timedelta (h * US_PER_HOUR).

(** A zone of the time-zone database: the UTC offset before the first
    transition, and the transitions in increasing order, each with the UTC
    instant at which it happens and the offset in force from then on
    (instants and offsets in microseconds). *)
Record Zone := {
  zone_initial : Z;
  zone_transitions : list (Z * Z)
}.

#[export] Instance Zone_eq_dec : EqDecision Zone.
Proof. solve_decision. Defined.

(** [ZoneInfo.fromutc]: the offset in force at the UTC instant [u], and
    whether the local reading is the second occurrence of a repeated
    wall-clock time ([fold]). *)
Definition zone_at_utc (z : Zone) (u : Z) : Z * bool :=
  snd (fold_left
         (fun (st : Z * (Z * bool)) (tr : Z * Z) =>
            let '(prev, cur) := st in
            let '(t, after) := tr in
            (after, if t <=? u then (after, u - t <? prev - after) else cur))
         (zone_transitions z)
         (zone_initial z, (zone_initial z, false))).

(** [ZoneInfo.utcoffset]: the offset of the wall-clock reading [wall].  A
    transition is met in local time at its instant plus the larger of the
    two offsets for [fold = 0], the smaller for [fold = 1]. *)
Definition zone_utcoffset (z : Zone) (wall : Z) (fold : bool) : Z :=
  snd (fold_left
         (fun (st : Z * Z) (tr : Z * Z) =>
            let '(prev, cur) := st in
            let '(t, after) := tr in
            let local := t + (if fold then Z.min prev after else Z.max prev after) in
            (after, if local <=? wall then after else cur))
         (zone_transitions z)
         (zone_initial z, zone_initial z)).

(** [timezone.utc], [timezone(timedelta(microseconds=offset))] and
    [ZoneInfo(key)].  [ZoneInfo] caches its instances, so two zones are the
    same object when they are equal. *)
Inductive tzinfo :=
| tz_utc
| tz_fixed (offset : Z)
| tz_zone (key : string) (z : Zone).

#[export] Instance tzinfo_eq_dec : EqDecision tzinfo.
Proof. solve_decision. Defined.

(** [dt_us] is the wall-clock reading: ordinal of the day times
    [US_PER_DAY], plus the microseconds elapsed since midnight. *)
Record datetime := {
  dt_us : Z;
  dt_tzinfo : option tzinfo;
  dt_fold : bool
}.

#[export] Instance datetime_eq_dec : EqDecision datetime.
Proof. solve_decision. Defined.

(** [datetime(year, month, day, hour, minute, second, tzinfo=tz)] *)
Definition mk_datetime (year month day hour minute second : Z)
    (tz : option tzinfo) : datetime :=
  {| dt_us := ymd2ord year month day * US_PER_DAY + hour * US_PER_HOUR
              + minute * US_PER_MINUTE + second * US_PER_SECOND;
     dt_tzinfo := tz;
     dt_fold := false |}.

Definition in_range (us : Z) : bool :=
  (US_PER_DAY <=? us) && (us <? (MAXORDINAL + 1) * US_PER_DAY).

(** [d + td]: wall-clock arithmetic, the zone is kept and no offset is
    applied; [fold] is reset; [OverflowError] outside years 1..9999. *)
Definition dt_add (d : datetime) (td : timedelta) : option datetime :=
  let us := dt_us d + td in
  if in_range us
  then Some {| dt_us := us; dt_tzinfo := dt_tzinfo d; dt_fold := false |}
  else None.

(** [d - td] *)
Definition dt_sub (d : datetime) (td : timedelta) : option datetime :=
  dt_add d (- td).

(** [d.replace(tzinfo=tz)] *)
Definition replace_tzinfo (d : datetime) (tz : tzinfo) : datetime :=
  {| dt_us := dt_us d; dt_tzinfo := Some tz; dt_fold := dt_fold d |}.

(** [d.replace(fold=1)] *)
Definition replace_fold (d : datetime) (fold : bool) : datetime :=
  {| dt_us := dt_us d; dt_tzinfo := dt_tzinfo d; dt_fold := fold |}.

(** [d.replace(hour=h, minute=mi, second=s, microsecond=us)];
    [ValueError] when a field is out of range. *)
Definition replace_time (d : datetime) (h mi s us : Z) : option datetime :=
  if between 0 h 23 && between 0 mi 59 && between 0 s 59 && between 0 us 999999
  then Some {| dt_us := dt_us d / US_PER_DAY * US_PER_DAY + h * US_PER_HOUR
                        + mi * US_PER_MINUTE + s * US_PER_SECOND + us;
               dt_tzinfo := dt_tzinfo d;
               dt_fold := dt_fold d |}
  else None.

(** [d.date()] *)
Definition dt_date (d : datetime) : date := dt_us d / US_PER_DAY.

(** [tz.utcoffset(d)] for the reading [us] and [fold] of [d]. *)
Definition utcoffset (tz : tzinfo) (us : Z) (fold : bool) : Z :=
  match tz with
  | tz_utc => 0
  | tz_fixed o => o
  | tz_zone _ z => zone_utcoffset z us fold
  end.

(** [tz.fromutc(d)], where [d] carries [tz] and reads as UTC. *)
Definition fromutc (tz : tzinfo) (d : datetime) : option datetime :=
  match tz with
  | tz_utc => dt_add d 0
  | tz_fixed o => dt_add d o
  | tz_zone _ z =>
    let '(off, fold) := zone_at_utc z (dt_us d) in
    d' ← dt_add d off;
    Some (if fold then replace_fold d' true else d')
  end.

(** [d.astimezone(tz)] for an aware [d].  (A naive [d] would be read in the
    local zone of the machine; the use case never does that.) *)
Definition astimezone (d : datetime) (tz : tzinfo) : option datetime :=
  match dt_tzinfo d with
  | None => None
  | Some mytz =>
    if decide (tz = mytz) then Some d
    else
      utc ← dt_sub d (utcoffset mytz (dt_us d) (dt_fold d));
      fromutc tz (replace_tzinfo utc tz)
  end.

(** [a < b].  Two datetimes with the same [tzinfo] compare by their
    wall-clock readings; with different zones, by their UTC instants; a
    naive and an aware one do not compare ([TypeError]). *)
Definition dt_lt (a b : datetime) : option bool :=
  match dt_tzinfo a, dt_tzinfo b with
  | None, None => Some (dt_us a <? dt_us b)
  | Some ta, Some tb =>
    if decide (ta = tb) then Some (dt_us a <? dt_us b)
    else Some (dt_us a - utcoffset ta (dt_us a) (dt_fold a)
               <? dt_us b - utcoffset tb (dt_us b) (dt_fold b))
  | _, _ => None
  end.

(** The UTC instant of an aware datetime, in microseconds. *)
Definition instant (d : datetime) : Z :=
  match dt_tzinfo d with
  | Some tz => dt_us d - utcoffset tz (dt_us d) (dt_fold d)
  | None => dt_us d
  end.

(* ===================================================================== *)
(** * contracts.py *)
(* ===================================================================== *)

Module Severity.
Inductive t := WARNING | ERROR.
Definition value (s : t) : string :=
  match s with WARNING => "warning" | ERROR => "error" end.
End Severity.

Module SourceSystem.
Inductive t := NHL | VK | TG | STORAGE | CORE.
Definition value (s : t) : string :=
  match s with
  | NHL => "nhl" | VK => "vk" | TG => "tg" | STORAGE => "storage" | CORE => "core"
  end.
End SourceSystem.

Module VideoKind.
Inductive t := HIGHLIGHTS | FULL.
Definition value (k : t) : string :=
  match k with HIGHLIGHTS => "highlights" | FULL => "full" end.
End VideoKind.

Module VideoStatus.
Inductive t := FOUND | NOT_FOUND | ERROR.
Definition value (s : t) : string :=
  match s with FOUND => "found" | NOT_FOUND => "not_found" | ERROR => "error" end.
End VideoStatus.

#[export] Instance Severity_eq_dec : EqDecision Severity.t.
Proof. solve_decision. Defined.
#[export] Instance SourceSystem_eq_dec : EqDecision SourceSystem.t.
Proof. solve_decision. Defined.
#[export] Instance VideoKind_eq_dec : EqDecision VideoKind.t.
Proof. solve_decision. Defined.
#[export] Instance VideoStatus_eq_dec : EqDecision VideoStatus.t.
Proof. solve_decision. Defined.

#[export] Instance VideoKind_countable : Countable VideoKind.t.
Proof.
  refine (inj_countable'
            (fun k => match k with VideoKind.HIGHLIGHTS => false | VideoKind.FULL => true end)
            (fun b : bool => if b then VideoKind.FULL else VideoKind.HIGHLIGHTS) _).
  intros []; reflexivity.
Defined.

Record AppError := {
  e_code : string;
  e_source : SourceSystem.t;
  e_severity : Severity.t;
  e_message : string;
  e_details : option (gmap string string)
}.

#[export] Instance AppError_eq_dec : EqDecision AppError.
Proof. solve_decision. Defined.

Record Team := {
  t_team_id : string;
  t_name : string;
  t_abbr : option string
}.

Record MatchForScoring := {
  m_match_id : string;
  m_start_time_utc : datetime;
  m_season : string;
  m_home : Team;
  m_away : Team;
  m_score_home : Z;
  m_score_away : Z;
  m_went_overtime : option bool;
  m_went_shootout : option bool
}.

Record PlayerGameStats := {
  ps_match_id : string;
  ps_player_id : string;
  ps_player_name : string;
  ps_team_id : string;
  ps_goals : Z;
  ps_assists : Z
}.

Record VideoLinkResult := {
  vr_match_id : string;
  vr_kind : VideoKind.t;
  vr_status : VideoStatus.t;
  vr_url : option string;
  vr_error : option AppError;
  vr_source : SourceSystem.t
}.

Record PublicationRecord := {
  rec_run_date_msk : date;
  rec_published : bool;
  rec_tg_message_id : option string;
  rec_published_at_utc : option datetime
}.

(** The records that hold floats. *)
Section Contracts.
Context {R : Type}.

Record ScoringRule := {
  r_entity_type : string;
  r_entity_id : string;
  r_weight : R;
  r_label : option string
}.

Record ScoreContribution := {
  sc_reason : string;
  sc_weight : R;
  sc_entity_type : option string;
  sc_entity_id : option string
}.

Record MatchScore := {
  ms_match_id : string;
  ms_score : R;
  ms_contributions : list ScoreContribution
}.

Record RankedMatch := {
  rm_match : MatchForScoring;
  rm_rank : MatchScore
}.

Record PostItemPublic := {
  it_match_id : string;
  it_title : string;
  it_start_time_utc : datetime;
  it_highlights_url : option string;
  it_full_url : option string;
  it_rank_score : option R
}.

(** [p_errors] is the address of the list object the post refers to. *)
Record PostPublic := {
  p_run_date_msk : date;
  p_generated_at_utc : datetime;
  p_items : list PostItemPublic;
  p_errors : nat
}.

Record UsecaseConfig := {
  tz_msk : string;
  publish_hour_msk : Z;
  lookback_hours : Z;
  min_interest_score : R
}.
End Contracts.

Arguments ScoringRule : clear implicits.
Arguments ScoreContribution : clear implicits.
Arguments MatchScore : clear implicits.
Arguments RankedMatch : clear implicits.
Arguments PostItemPublic : clear implicits.
Arguments PostPublic : clear implicits.
Arguments UsecaseConfig : clear implicits.

(** The list objects of the run: [errors = []] allocates one, [extend] and
    [append] change it in place, and every holder of its address sees the
    change. *)
Abbreviation Heap := (list (list AppError)).

Definition alloc (l : list AppError) (h : Heap) : nat * Heap :=
  (length h, h ++ [l]).

Definition deref (h : Heap) (a : nat) : list AppError := default [] (h !! a).

Definition extend (a : nat) (xs : list AppError) (h : Heap) : Heap :=
  alter (fun l => l ++ xs) a h.

(* ===================================================================== *)
(** * usecase.py *)
(* ===================================================================== *)

(** ** The time window *)

Section Window.
Context {R : Type}.

(** The time-zone database behind [ZoneInfo(key)]; a key it does not hold
    raises [ZoneInfoNotFoundError]. *)
Variable tzdb : string -> option Zone.

Definition ZoneInfo (key : string) : option tzinfo :=
  z ← tzdb key; Some (tz_zone key z).

(** [None] stands for an exception: an unknown zone, a publish hour
    outside 0..23, or a date outside the years 1..9999. *)
Definition compute_window (now_utc : datetime) (cfg : UsecaseConfig R)
    : option (date * datetime * datetime) :=
  let now_utc :=
    match dt_tzinfo now_utc with
    | None => replace_tzinfo now_utc tz_utc
    | Some _ => now_utc
    end in
  tz_msk ← ZoneInfo (tz_msk cfg);
  now_msk ← astimezone now_utc tz_msk;
  anchor_msk ← replace_time now_msk (publish_hour_msk cfg) 0 0 0;
  before ← dt_lt now_msk anchor_msk;
  anchor_msk ←
    (if before : bool
     then one_day ← timedelta_days 1; dt_sub anchor_msk one_day
     else Some anchor_msk);
  let run_date_msk := dt_date anchor_msk in
  let window_end_msk := anchor_msk in
  lookback ← timedelta_hours (lookback_hours cfg);
  window_start_msk ← dt_sub anchor_msk lookback;
  window_start_utc ← astimezone window_start_msk tz_utc;
  window_end_utc ← astimezone window_end_msk tz_utc;
  Some (run_date_msk, window_start_utc, window_end_utc).
End Window.

(** ** Scoring and ranking *)

Section Scoring.
Context {R : Type} `{PyFloat R}.

(** *** [ranked.sort(key=..., reverse=True)]

    [list.sort] as CPython 3.11 sorts a list of fewer than 64 elements.
    With [reverse=True] the list is reversed, sorted into ascending order,
    and reversed again.  The ascending sort takes the run at the head of
    the list (the longest prefix in which no element is [<] the one before
    it, or in which every element is; in the second case the run is
    reversed) and inserts the other elements into it one by one, each at
    the place a binary search finds.  Keys are compared with [<] only.

    (A list of 64 elements or more is cut into such runs, which are then
    merged.  The result is the same whenever [<] orders the keys
    consistently, as it does unless a key is NaN.  The statements on the
    order of the ranking are made for scores without NaN, for which the
    stable sort into descending order is unique; the other statements do
    not depend on the order.) *)
Section ListSort.
Context {A : Type}.
Variable key : A -> R.

Definition key_lt (a b : A) : bool := f_ltb (key a) (key b).

(** [count_run]: the number of elements of [l] that continue the run whose
    last element so far is [prev]. *)
Fixpoint run_length (descending : bool) (prev : A) (l : list A) : nat :=
  match l with
  | [] => 0%nat
  | x :: l' =>
    if Bool.eqb (key_lt x prev) descending
    then S (run_length descending x l')
    else 0%nat
  end.

Definition count_run (l : list A) : nat * bool :=
  match l with
  | [] => (0%nat, false)
  | [x] => (1%nat, false)
  | x :: (y :: _) as l' =>
    let descending := key_lt y x in
    (S (run_length descending x l'), descending)
  end.

(** One step of [binarysort]: [pivot] is put into the sorted [prefix] where
    the binary search ends.  The search looks at the middle element [x] of
    what is left, and goes on in the left half when [pivot < x] and in the
    right half otherwise.  [fuel] bounds the number of steps; the length of
    the prefix is enough. *)
Fixpoint bisect (fuel : nat) (pivot : A) (prefix : list A) : list A :=
  match fuel with
  | O => pivot :: prefix
  | S fuel' =>
    let p := (length prefix / 2)%nat in
    match drop p prefix with
    | [] => pivot :: prefix
    | x :: hi =>
      if key_lt pivot x
      then bisect fuel' pivot (take p prefix) ++ x :: hi
      else take p prefix ++ x :: bisect fuel' pivot hi
    end
  end.

Definition binarysort (run rest : list A) : list A :=
  fold_left (fun prefix pivot => bisect (length prefix) pivot prefix) rest run.

Definition sort_ascending (l : list A) : list A :=
  let '(n, descending) := count_run l in
  let run := take n l in
  binarysort (if descending then rev run else run) (drop n l).

Definition sort_reverse (l : list A) : list A :=
  rev (sort_ascending (rev l)).
End ListSort.

(** *** The weights *)

(** [d[k] = d.get(k, 0.0) + w] *)
Definition add_weight (d : gmap string R) (k : string) (w : R) : gmap string R :=
  <[k := f_add (default f_zero (d !! k)) w]> d.

(** [(r.entity_type or "").strip().lower()] *)
Definition rule_kind (r : ScoringRule R) : string :=
  lower (strip (str_or (r_entity_type r) "")).

(** The body of the loop over the rules. *)
Definition index_step (acc : gmap string R * gmap string R) (r : ScoringRule R)
    : gmap string R * gmap string R :=
  let '(player_w, team_w) := acc in
  let et := rule_kind r in
  if String.eqb et "player"
  then (add_weight player_w (r_entity_id r) (r_weight r), team_w)
  else if String.eqb et "team"
  then (player_w, add_weight team_w (r_entity_id r) (r_weight r))
  else acc.

Definition _index_rules (rules : list (ScoringRule R))
    : gmap string R * gmap string R :=
  fold_left index_step rules (∅, ∅).

(** [stats_by_match.setdefault(ps.match_id, []).append(ps)] *)
Definition group_step (acc : gmap string (list PlayerGameStats))
    (ps : PlayerGameStats) : gmap string (list PlayerGameStats) :=
  <[ps_match_id ps := default [] (acc !! ps_match_id ps) ++ [ps]]> acc.

Definition group_stats (player_stats : list PlayerGameStats)
    : gmap string (list PlayerGameStats) :=
  fold_left group_step player_stats ∅.

(** *** The score of a match *)

(** A loop whose body may raise, and a list built by a loop whose body may
    raise. *)
Fixpoint fold_left_try {S B : Type} (f : S -> B -> option S) (l : list B) (s : S)
    : option S :=
  match l with
  | [] => Some s
  | b :: l' => s' ← f s b; fold_left_try f l' s'
  end.

Fixpoint map_try {B C : Type} (f : B -> option C) (l : list B) : option (list C) :=
  match l with
  | [] => Some []
  | b :: l' => c ← f b; cs ← map_try f l'; Some (c :: cs)
  end.

(** The running [score] and [contribs] of one match. *)
Definition Tally : Type := R * list (ScoreContribution R).

(** [score += delta; contribs.append(c)] *)
Definition tally (st : Tally) (delta : R) (c : ScoreContribution R) : Tally :=
  (f_add (fst st) delta, snd st ++ [c]).

Definition team_step (team_w : gmap string R) (st : Tally) (t : Team) : Tally :=
  match team_w !! t_team_id t with
  | Some w =>
    if truthy w
    then tally st w {| sc_reason := "team_weight"; sc_weight := w;
                       sc_entity_type := Some "team";
                       sc_entity_id := Some (t_team_id t) |}
    else st
  | None => st
  end.

(** [float(ps.goals)] and [float(ps.assists)] raise [OverflowError] for an
    int beyond the range of the floats; they are evaluated only for a
    player with a weight that is not zero. *)
Definition player_step (player_w : gmap string R) (st : Tally)
    (ps : PlayerGameStats) : option Tally :=
  match player_w !! ps_player_id ps with
  | Some w =>
    if truthy w then
      goals ← f_of_int (ps_goals ps);
      assists ← f_of_int (ps_assists ps);
      let factor := f_add goals (f_mul (lit 5 1) assists) in
      let delta := f_mul w factor in
      Some (if negb (f_eqb delta f_zero)
            then tally st delta {| sc_reason := "player_weight"; sc_weight := delta;
                                   sc_entity_type := Some "player";
                                   sc_entity_id := Some (ps_player_id ps) |}
            else st)
    else Some st
  | None => Some st
  end.

(** Truth value of an [Optional[bool]]. *)
Definition flag (b : option bool) : bool := default false b.

Definition bonus_step (reason : string) (on : bool) (amount : R) (st : Tally) : Tally :=
  if on
  then tally st amount {| sc_reason := reason; sc_weight := amount;
                          sc_entity_type := None; sc_entity_id := None |}
  else st.

(** [min(1.0, total_goals / 10.0) * 0.2]; the division converts the int
    [total_goals] to a float, and raises [OverflowError] when it is too
    large. *)
Definition tg_bonus (m : MatchForScoring) : option R :=
  total_goals ← f_of_int (m_score_home m + m_score_away m);
  Some (f_mul (py_min (lit 1 0) (f_div total_goals (lit 10 0))) (lit 2 1)).

(** The body of the loop over the matches. *)
Definition score_match (player_w team_w : gmap string R)
    (stats_by_match : gmap string (list PlayerGameStats))
    (m : MatchForScoring) : option (RankedMatch R) :=
  let st : Tally := (f_zero, []) in
  let st := fold_left (team_step team_w) [m_home m; m_away m] st in
  st ← fold_left_try (player_step player_w)
                     (default [] (stats_by_match !! m_match_id m)) st;
  let st := bonus_step "overtime_bonus" (flag (m_went_overtime m)) (lit 2 1) st in
  let st := bonus_step "shootout_bonus" (flag (m_went_shootout m)) (lit 2 1) st in
  bonus ← tg_bonus m;
  let st := bonus_step "total_goals_bonus" (truthy bonus) bonus st in
  Some {| rm_match := m;
          rm_rank := {| ms_match_id := m_match_id m;
                        ms_score := fst st;
                        ms_contributions := snd st |} |}.

(** The list [ranked] before it is sorted. *)
Definition scored (matches : list MatchForScoring)
    (player_stats : list PlayerGameStats) (rules : list (ScoringRule R))
    : option (list (RankedMatch R)) :=
  let '(player_w, team_w) := _index_rules rules in
  let stats_by_match := group_stats player_stats in
  map_try (score_match player_w team_w stats_by_match) matches.

(** [None] stands for [OverflowError]. *)
Definition score_matches (matches : list MatchForScoring)
    (player_stats : list PlayerGameStats) (rules : list (ScoringRule R))
    : option (list (RankedMatch R)) :=
  ranked ← scored matches player_stats rules;
  Some (sort_reverse (fun rm => ms_score (rm_rank rm)) ranked).
End Scoring.

(** ** From videos to the public post *)

Definition _match_title (m : MatchForScoring) : string :=
  let h := opt_str_or (t_abbr (m_home m)) (t_name (m_home m)) in
  let a := opt_str_or (t_abbr (m_away m)) (t_name (m_away m)) in
  h +:+ " — " +:+ a.

(** [vmap.setdefault(vr.match_id, {})[vr.kind] = vr]: a later result for the
    same match and kind replaces an earlier one. *)
Definition vmap_step (vmap : gmap string (gmap VideoKind.t VideoLinkResult))
    (vr : VideoLinkResult) : gmap string (gmap VideoKind.t VideoLinkResult) :=
  <[vr_match_id vr := <[vr_kind vr := vr]> (default ∅ (vmap !! vr_match_id vr))]> vmap.

Definition build_vmap (video_results : list VideoLinkResult)
    : gmap string (gmap VideoKind.t VideoLinkResult) :=
  fold_left vmap_step video_results ∅.

(** [x.url if (x and x.status == VideoStatus.FOUND) else None] *)
Definition found_url (x : option VideoLinkResult) : option string :=
  match x with
  | Some vr => if decide (vr_status vr = VideoStatus.FOUND) then vr_url vr else None
  | None => None
  end.

(** The error a looked-up result adds:
    [vr and vr.status == VideoStatus.ERROR and vr.error]. *)
Definition video_error (x : option VideoLinkResult) : list AppError :=
  match x with
  | Some vr =>
    if decide (vr_status vr = VideoStatus.ERROR)
    then match vr_error vr with Some e => [e] | None => [] end
    else []
  | None => []
  end.

Section PublicPost.
Context {R : Type} `{PyFloat R}.

(** The body of the loop over [ranked]; the state is [items] and the new
    list [errors]. *)
Definition post_step (vmap : gmap string (gmap VideoKind.t VideoLinkResult))
    (cfg : UsecaseConfig R)
    (st : list (PostItemPublic R) * list AppError) (rm : RankedMatch R)
    : list (PostItemPublic R) * list AppError :=
  let '(items, errors) := st in
  if f_ltb (ms_score (rm_rank rm)) (min_interest_score cfg) then st
  else
    let vids := default ∅ (vmap !! m_match_id (rm_match rm)) in
    let h := vids !! VideoKind.HIGHLIGHTS in
    let f := vids !! VideoKind.FULL in
    let highlights_url := found_url h in
    let full_url := found_url f in
    let errors := errors ++ video_error h ++ video_error f in
    (items ++ [{| it_match_id := m_match_id (rm_match rm);
                  it_title := _match_title (rm_match rm);
                  it_start_time_utc := m_start_time_utc (rm_match rm);
                  it_highlights_url := highlights_url;
                  it_full_url := full_url;
                  it_rank_score := Some (ms_score (rm_rank rm)) |}],
     errors).

(** [now_utc if now_utc.tzinfo else now_utc.replace(tzinfo=timezone.utc)] *)
Definition as_utc (now_utc : datetime) : datetime :=
  match dt_tzinfo now_utc with
  | Some _ => now_utc
  | None => replace_tzinfo now_utc tz_utc
  end.

(** [extra_errors] is the content of the caller's list at the call:
    [list(extra_errors)] copies it into a new list, to which the loop
    appends and which the post then refers to.  The new list is shared
    with nobody before the post is returned, so it enters the store with
    its final content. *)
Definition build_post_public (run_date_msk : date) (now_utc : datetime)
    (ranked : list (RankedMatch R)) (video_results : list VideoLinkResult)
    (cfg : UsecaseConfig R) (extra_errors : list AppError) (h : Heap)
    : PostPublic R * Heap :=
  let vmap := build_vmap video_results in
  let '(items, errors) := fold_left (post_step vmap cfg) ranked ([], extra_errors) in
  let '(a, h') := alloc errors h in
  ({| p_run_date_msk := run_date_msk;
      p_generated_at_utc := as_utc now_utc;
      p_items := items;
      p_errors := a |}, h').

(** ** Rendering *)

Definition highlights_line (it : PostItemPublic R) : string :=
  match it_highlights_url it with
  | Some u => if nonempty u then "  highlights: " +:+ u
              else "  highlights: ссылка не найдена"
  | None => "  highlights: ссылка не найдена"
  end.

Definition full_line (it : PostItemPublic R) : string :=
  match it_full_url it with
  | Some u => if nonempty u then "  full: " +:+ u
              else "  full: ссылка не найдена"
  | None => "  full: ссылка не найдена"
  end.

(** The four lines of a match: title, highlights, full recording, and an
    empty line. *)
Definition item_block (it : PostItemPublic R) : list string :=
  [it_title it; highlights_line it; full_line it; ""].

Definition no_matches_line : string := "Матчей нет.".

(** The lines of the first part: the matches, or the line that says there
    are none. *)
Definition item_lines (items : list (PostItemPublic R)) : list string :=
  match items with
  | [] => [no_matches_line]
  | _ => fold_left (fun (lines : list string) (it : PostItemPublic R) =>
                      lines ++ item_block it)
                   items []
  end.

Definition error_key (e : AppError) : string * string * string :=
  (e_code e, SourceSystem.value (e_source e), e_message e).

Definition error_line (e : AppError) : string :=
  "- [" +:+ SourceSystem.value (e_source e) +:+ "] " +:+ e_code e
  +:+ ": " +:+ e_message e.

(** The body of the loop over [post.errors]; the state is [seen] and the
    lines appended so far. *)
Definition error_step (st : gset (string * string * string) * list string)
    (e : AppError) : gset (string * string * string) * list string :=
  let '(seen, lines) := st in
  let key := error_key e in
  if decide (key ∈ seen) then st
  else ({[key]} ∪ seen, lines ++ [error_line e]).

Definition problems_header : string := "⚠️ Проблемы:".

(** The lines of the second part. *)
Definition error_lines (errors : list AppError) : list string :=
  match errors with
  | [] => []
  | _ => problems_header :: snd (fold_left error_step errors (∅, []))
  end.

(** The list [lines] at the end of [render_post]. *)
Definition render_lines (items : list (PostItemPublic R)) (errors : list AppError)
    : list string :=
  item_lines items ++ error_lines errors.

Definition render_post (h : Heap) (post : PostPublic R) : string :=
  strip (join newline (render_lines (p_items post) (deref h (p_errors post)))).
End PublicPost.

(** ** The ports and the orchestration *)

(** A call of a collaborator, with its arguments. *)
Inductive Call :=
| CallRegistryGet (run_date_msk : date)
| CallResultsLoad (window_start_utc window_end_utc : datetime)
| CallRulesLoad
| CallVideoLoad (match_ids : list string)
| CallPublish (text : string)
| CallSetPublished (record : PublicationRecord).

#[export] Instance PublicationRecord_eq_dec : EqDecision PublicationRecord.
Proof. solve_decision. Defined.

Definition is_publish (c : Call) : bool :=
  match c with CallPublish _ => true | _ => false end.

Section Ports.
Context {R : Type}.

(** The state of the collaborators (databases, channels, ...).  A method
    takes the state and gives its result with the new state, or [None]
    when it raises. *)
Variable W : Type.

Record ResultsLoader := {
  results_load : datetime -> datetime -> W ->
    option ((list MatchForScoring * list PlayerGameStats * list AppError) * W)
}.

Record ScoringRulesLoader := {
  rules_load : W -> option ((list (ScoringRule R) * list AppError) * W)
}.

Record VideoLoader := {
  load_for_matches : list string -> W ->
    option ((list VideoLinkResult * list AppError) * W)
}.

Record Publisher := {
  publish : string -> W -> option ((option string * list AppError) * W)
}.

Record PublicationRegistry := {
  registry_get : date -> W -> option ((option PublicationRecord * list AppError) * W);
  set_published : PublicationRecord -> W -> option (list AppError * W)
}.

(** What a run acts on: the collaborators, the list objects, and the log
    of the calls made so far. *)
Record RunState := {
  st_world : W;
  st_heap : Heap;
  st_calls : list Call
}.

(** A computation that changes the state and may raise. *)
Definition M (A : Type) : Type := RunState -> option (A * RunState).

#[export] Instance M_ret : MRet M := fun A (a : A) s => Some (a, s).

#[export] Instance M_bind : MBind M := fun A B (f : A -> M B) (m : M A) s =>
  match m s with
  | Some (a, s') => f a s'
  | None => None
  end.

(** Calling a method of a collaborator. *)
Definition port {A : Type} (c : Call) (method : W -> option (A * W)) : M A :=
  fun s =>
    match method (st_world s) with
    | Some (a, w') =>
      Some (a, {| st_world := w'; st_heap := st_heap s;
                  st_calls := st_calls s ++ [c] |})
    | None => None
    end.

(** A pure step that may raise. *)
Definition try {A : Type} (o : option A) : M A :=
  fun s => match o with Some a => Some (a, s) | None => None end.

(** A step on the list objects. *)
Definition on_heap {A : Type} (f : Heap -> A * Heap) : M A :=
  fun s =>
    let '(a, h') := f (st_heap s) in
    Some (a, {| st_world := st_world s; st_heap := h'; st_calls := st_calls s |}).

(** [errors.extend(xs)] *)
Definition list_extend (a : nat) (xs : list AppError) : M unit :=
  on_heap (fun h => (tt, extend a xs h)).

(** Reading the store. *)
Definition with_heap {A : Type} (f : Heap -> A) : M A :=
  on_heap (fun h => (f h, h)).
End Ports.

Arguments results_load {W} _ _ _ _.
Arguments rules_load {R W} _ _.
Arguments load_for_matches {W} _ _ _.
Arguments publish {W} _ _ _.
Arguments registry_get {W} _ _ _.
Arguments set_published {W} _ _ _.
Arguments st_world {W} _.
Arguments st_heap {W} _.
Arguments st_calls {W} _.
Arguments port {W A} _ _ _.
Arguments try {W A} _ _.
Arguments on_heap {W A} _ _.
Arguments list_extend {W} _ _ _.
Arguments with_heap {W A} _ _.

Section Orchestrator.
Context {R : Type} `{PyFloat R}.
Variable tzdb : string -> option Zone.
Variable W : Type.

(** [str(x)] for an [Optional[str]] *)
Definition str_opt (x : option string) : string :=
  match x with Some s => s | None => "None" end.

Definition already_published (run_date_msk : date) (rec : PublicationRecord)
    : AppError :=
  {| e_code := "ALREADY_PUBLISHED";
     e_source := SourceSystem.CORE;
     e_severity := Severity.WARNING;
     e_message := "Пост за " +:+ date_isoformat run_date_msk
                  +:+ " уже был опубликован (tg_message_id="
                  +:+ str_opt (rec_tg_message_id rec) +:+ ").";
     e_details := None |}.

(** [rec and rec.published] *)
Definition published_record (rec : option PublicationRecord)
    : option PublicationRecord :=
  match rec with
  | Some r => if rec_published r then Some r else None
  | None => None
  end.

(** [[rm.match.match_id for rm in ranked
      if rm.rank.score >= cfg.min_interest_score]] *)
Definition interesting_ids (cfg : UsecaseConfig R) (ranked : list (RankedMatch R))
    : list string :=
  map (fun rm => m_match_id (rm_match rm))
      (List.filter (fun rm => f_leb (min_interest_score cfg) (ms_score (rm_rank rm)))
                   ranked).

(** The result is the pair of the post, if any, and the address of the
    list [errors]; what the caller reads in them is their content in the
    final store. *)
Definition run_daily_digest (now_utc : datetime) (cfg : UsecaseConfig R)
    (results_loader : ResultsLoader W)
    (rules_loader : ScoringRulesLoader (R:=R) W)
    (video_loader : VideoLoader W)
    (publisher : Publisher W)
    (registry : PublicationRegistry W)
    : M W (option (PostPublic R) * nat) :=
  errors ← on_heap (alloc []);
  '(run_date_msk, window_start_utc, window_end_utc) ←
    try (compute_window tzdb now_utc cfg);
  (* idempotency check *)
  '(rec, reg_err) ← port (CallRegistryGet run_date_msk)
                         (registry_get registry run_date_msk);
  _ ← list_extend errors reg_err;
  match published_record rec with
  | Some rec =>
    _ ← list_extend errors [already_published run_date_msk rec];
    mret (None, errors)
  | None =>
    (* load results *)
    '(matches, player_stats, res_err) ←
      port (CallResultsLoad window_start_utc window_end_utc)
           (results_load results_loader window_start_utc window_end_utc);
    _ ← list_extend errors res_err;
    match matches with
    | [] =>
      let post := {| p_run_date_msk := run_date_msk;
                     p_generated_at_utc := now_utc;
                     p_items := [];
                     p_errors := errors |} in
      text ← with_heap (fun h => render_post h post);
      '(msg_id, pub_err) ← port (CallPublish text) (publish publisher text);
      _ ← list_extend errors pub_err;
      let record := {| rec_run_date_msk := run_date_msk;
                       rec_published := true;
                       rec_tg_message_id := msg_id;
                       rec_published_at_utc := None |} in
      set_err ← port (CallSetPublished record) (set_published registry record);
      _ ← list_extend errors set_err;
      mret (Some post, errors)
    | _ =>
      (* load rules *)
      '(rules, rules_err) ← port CallRulesLoad (rules_load rules_loader);
      _ ← list_extend errors rules_err;
      (* score+rank *)
      ranked ← try (score_matches matches player_stats rules);
      (* load videos *)
      let match_ids := interesting_ids cfg ranked in
      '(video_res, video_err) ←
        port (CallVideoLoad match_ids) (load_for_matches video_loader match_ids);
      _ ← list_extend errors video_err;
      (* build public post *)
      post ← on_heap (fun h =>
                build_post_public run_date_msk now_utc ranked video_res cfg
                                  (deref h errors) h);
      (* render & publish *)
      text ← with_heap (fun h => render_post h post);
      '(msg_id, pub_err) ← port (CallPublish text) (publish publisher text);
      _ ← list_extend errors pub_err;
      (* register published *)
      let record := {| rec_run_date_msk := run_date_msk;
                       rec_published := true;
                       rec_tg_message_id := msg_id;
                       rec_published_at_utc := Some (as_utc now_utc) |} in
      set_err ← port (CallSetPublished record) (set_published registry record);
      _ ← list_extend errors set_err;
      let post := {| p_run_date_msk := p_run_date_msk post;
                     p_generated_at_utc := p_generated_at_utc post;
                     p_items := p_items post;
                     p_errors := errors |} in
      mret (Some post, errors)
    end
  end.
End Orchestrator.

(** ** The three ways a run ends *)

Section Outcomes.
Context {R : Type} `{PyFloat R}.
Variable tzdb : string -> option Zone.
Variable W : Type.
Variable now_utc : datetime.
Variable cfg : UsecaseConfig R.
Variable results_loader : ResultsLoader W.
Variable rules_loader : ScoringRulesLoader (R:=R) W.
Variable video_loader : VideoLoader W.
Variable publisher : Publisher W.
Variable registry : PublicationRegistry W.
Variable s : RunState W.

(** [Outcome result s'] describes a run from the state [s] that returns
    [result] in the state [s']: what each collaborator was called with and
    what it answered, and the content of the list objects at the end.  The
    list [errors] is the one at the address [length (st_heap s)]. *)
Inductive Outcome : option (PostPublic R) * nat -> RunState W -> Prop :=
| outcome_already_published
    (key : date) (ws we : datetime) (rec : PublicationRecord)
    (reg_err : list AppError) (w1 : W) :
    compute_window tzdb now_utc cfg = Some (key, ws, we) ->
    registry_get registry key (st_world s) = Some ((Some rec, reg_err), w1) ->
    rec_published rec = true ->
    Outcome (None, length (st_heap s))
            {| st_world := w1;
               st_heap := st_heap s ++ [reg_err ++ [already_published key rec]];
               st_calls := st_calls s ++ [CallRegistryGet key] |}
| outcome_no_matches
    (key : date) (ws we : datetime) (rec : option PublicationRecord)
    (reg_err : list AppError) (w1 : W)
    (stats : list PlayerGameStats) (res_err : list AppError) (w2 : W)
    (msg_id : option string) (pub_err : list AppError) (w3 : W)
    (set_err : list AppError) (w4 : W) :
    compute_window tzdb now_utc cfg = Some (key, ws, we) ->
    registry_get registry key (st_world s) = Some ((rec, reg_err), w1) ->
    published_record rec = None ->
    results_load results_loader ws we w1 = Some (([], stats, res_err), w2) ->
    let post := {| p_run_date_msk := key; p_generated_at_utc := now_utc;
                   p_items := []; p_errors := length (st_heap s) |} in
    let text := render_post (st_heap s ++ [reg_err ++ res_err]) post in
    publish publisher text w2 = Some ((msg_id, pub_err), w3) ->
    let record := {| rec_run_date_msk := key; rec_published := true;
                     rec_tg_message_id := msg_id;
                     rec_published_at_utc := None |} in
    set_published registry record w3 = Some (set_err, w4) ->
    Outcome (Some post, length (st_heap s))
            {| st_world := w4;
               st_heap := st_heap s ++ [reg_err ++ res_err ++ pub_err ++ set_err];
               st_calls := st_calls s
                           ++ [CallRegistryGet key; CallResultsLoad ws we;
                               CallPublish text; CallSetPublished record] |}
| outcome_digest
    (key : date) (ws we : datetime) (rec : option PublicationRecord)
    (reg_err : list AppError) (w1 : W)
    (matches : list MatchForScoring) (stats : list PlayerGameStats)
    (res_err : list AppError) (w2 : W)
    (rules : list (ScoringRule R)) (rules_err : list AppError) (w3 : W)
    (ranked : list (RankedMatch R))
    (video_res : list VideoLinkResult) (video_err : list AppError) (w4 : W)
    (msg_id : option string) (pub_err : list AppError) (w5 : W)
    (set_err : list AppError) (w6 : W) :
    compute_window tzdb now_utc cfg = Some (key, ws, we) ->
    registry_get registry key (st_world s) = Some ((rec, reg_err), w1) ->
    published_record rec = None ->
    results_load results_loader ws we w1 = Some ((matches, stats, res_err), w2) ->
    matches <> [] ->
    rules_load rules_loader w2 = Some ((rules, rules_err), w3) ->
    score_matches matches stats rules = Some ranked ->
    let match_ids := interesting_ids cfg ranked in
    load_for_matches video_loader match_ids w3 = Some ((video_res, video_err), w4) ->
    let collected := reg_err ++ res_err ++ rules_err ++ video_err in
    let built := build_post_public key now_utc ranked video_res cfg collected
                                   (st_heap s ++ [collected]) in
    let text := render_post (snd built) (fst built) in
    publish publisher text w4 = Some ((msg_id, pub_err), w5) ->
    let record := {| rec_run_date_msk := key; rec_published := true;
                     rec_tg_message_id := msg_id;
                     rec_published_at_utc := Some (as_utc now_utc) |} in
    set_published registry record w5 = Some (set_err, w6) ->
    Outcome (Some {| p_run_date_msk := p_run_date_msk (fst built);
                     p_generated_at_utc := p_generated_at_utc (fst built);
                     p_items := p_items (fst built);
                     p_errors := length (st_heap s) |},
             length (st_heap s))
            {| st_world := w6;
               st_heap := st_heap s
                          ++ [collected ++ pub_err ++ set_err;
                              deref (snd built) (p_errors (fst built))];
               st_calls := st_calls s
                           ++ [CallRegistryGet key; CallResultsLoad ws we;
                               CallRulesLoad; CallVideoLoad match_ids;
                               CallPublish text; CallSetPublished record] |}.
End Outcomes.

(** The number of [publish] calls in a log. *)
Definition publish_count (calls : list Call) : nat :=
  length (List.filter is_publish calls).

(** A state in which nothing has happened yet: an in-memory registry with
    an empty store, nothing printed, no list object, no call. *)
Definition fresh_state : RunState (gmap Z PublicationRecord * list string) :=
  {| st_world := (∅, []); st_heap := []; st_calls := [] |}.

(** ** The mock adapters *)

(** [InMemoryPublicationRegistry]: its state is the dictionary [_store],
    which stands beside the state [W0] of the other collaborators. *)
Definition InMemoryPublicationRegistry {W0 : Type}
    : PublicationRegistry (gmap Z PublicationRecord * W0) :=
  {| registry_get := fun run_date_msk w => Some ((fst w !! run_date_msk, []), w);
     set_published := fun record w =>
       Some ([], (<[rec_run_date_msk record := record]> (fst w), snd w)) |}.

(** A method of a collaborator with a state of its own, in a world that
    also holds a store [S], which the method does not touch. *)
Definition beside {S W0 A : Type} (method : W0 -> option (A * W0)) (w : S * W0)
    : option (A * (S * W0)) :=
  match method (snd w) with
  | Some (a, w0) => Some (a, (fst w, w0))
  | None => None
  end.

Definition results_loader_beside {S W0 : Type} (l : ResultsLoader W0)
    : ResultsLoader (S * W0) :=
  {| results_load := fun window_start_utc window_end_utc =>
       beside (results_load l window_start_utc window_end_utc) |}.

Definition rules_loader_beside {R S W0 : Type} (l : ScoringRulesLoader (R:=R) W0)
    : ScoringRulesLoader (R:=R) (S * W0) :=
  {| rules_load := beside (rules_load l) |}.

Definition video_loader_beside {S W0 : Type} (l : VideoLoader W0)
    : VideoLoader (S * W0) :=
  {| load_for_matches := fun match_ids => beside (load_for_matches l match_ids) |}.

Definition publisher_beside {S W0 : Type} (p : Publisher W0) : Publisher (S * W0) :=
  {| publish := fun text => beside (publish p text) |}.

Definition mock_match (match_id : string) (start : datetime)
    (home_id home_name away_id away_name : string) (score_home score_away : Z)
    (overtime : bool) : MatchForScoring :=
  {| m_match_id := match_id;
     m_start_time_utc := start;
     m_season := "2025-2026";
     m_home := {| t_team_id := home_id; t_name := home_name; t_abbr := Some home_id |};
     m_away := {| t_team_id := away_id; t_name := away_name; t_abbr := Some away_id |};
     m_score_home := score_home;
     m_score_away := score_away;
     m_went_overtime := Some overtime;
     m_went_shootout := Some false |}.

Definition mock_stats : list PlayerGameStats :=
  [ {| ps_match_id := "m1"; ps_player_id := "p_1"; ps_player_name := "Star Player";
       ps_team_id := "BOS"; ps_goals := 2; ps_assists := 1 |};
    {| ps_match_id := "m2"; ps_player_id := "p_2"; ps_player_name := "Other Player";
       ps_team_id := "TOR"; ps_goals := 1; ps_assists := 0 |} ].

Definition mock_matches (window_end_utc : datetime) : option (list MatchForScoring) :=
  six ← timedelta_hours 6;
  start1 ← dt_sub window_end_utc six;
  twenty ← timedelta_hours 20;
  start2 ← dt_sub window_end_utc twenty;
  Some [ mock_match "m1" start1 "BOS" "Boston Bruins" "NYR" "New York Rangers" 4 3 true;
         mock_match "m2" start2 "TOR" "Toronto Maple Leafs" "MTL" "Montreal Canadiens"
                    2 1 false ].

Definition MockResultsLoader {W : Type} : ResultsLoader W :=
  {| results_load := fun window_start_utc window_end_utc w =>
       ms ← mock_matches window_end_utc;
       Some ((ms, mock_stats, []), w) |}.

Section Mocks.
Context {R : Type} `{PyFloat R}.

Definition mock_rules : list (ScoringRule R) :=
  [ {| r_entity_type := "team"; r_entity_id := "BOS"; r_weight := lit 15 1;
       r_label := Some "favorite team" |};
    {| r_entity_type := "player"; r_entity_id := "p_1"; r_weight := lit 2 0;
       r_label := Some "favorite player" |} ].

Definition MockScoringRulesLoader {W : Type} : ScoringRulesLoader (R:=R) W :=
  {| rules_load := fun w => Some ((mock_rules, []), w) |}.
End Mocks.

Definition mock_videos (mid : string) : list VideoLinkResult :=
  [ {| vr_match_id := mid; vr_kind := VideoKind.HIGHLIGHTS;
       vr_status := VideoStatus.FOUND;
       vr_url := Some ("https://vk.example/" +:+ mid +:+ "/highlights");
       vr_error := None; vr_source := SourceSystem.VK |};
    {| vr_match_id := mid; vr_kind := VideoKind.FULL;
       vr_status := VideoStatus.NOT_FOUND;
       vr_url := None; vr_error := None; vr_source := SourceSystem.VK |} ].

Definition MockVideoLoader {W : Type} : VideoLoader W :=
  {| load_for_matches := fun match_ids w =>
       Some ((concat (map mock_videos match_ids), []), w) |}.

(** [StdoutPublisher]: its state is what has been printed. *)
Definition StdoutPublisher : Publisher (list string) :=
  {| publish := fun text out =>
       Some ((Some "mock_message_id", []),
             out ++ ["----- PUBLISH -----"; text; "-------------------"]) |}.

(** A video loader whose lookup of the highlights of m1 fails. *)
Definition video_failed : VideoLinkResult :=
  {| vr_match_id := "m1"; vr_kind := VideoKind.HIGHLIGHTS;
     vr_status := VideoStatus.ERROR; vr_url := None;
     vr_error := Some {| e_code := "VK_TIMEOUT"; e_source := SourceSystem.VK;
                         e_severity := Severity.WARNING;
                         e_message := "no answer"; e_details := None |};
     vr_source := SourceSystem.VK |}.

Definition FailingVideoLoader {W : Type} : VideoLoader W :=
  {| load_for_matches := fun match_ids w => Some (([video_failed], []), w) |}.

(** A results loader that finds no match and reports a problem. *)
Definition EmptyResultsLoader {W : Type} : ResultsLoader W :=
  {| results_load := fun window_start_utc window_end_utc w =>
       Some (([], [], [ {| e_code := "NHL_TIMEOUT"; e_source := SourceSystem.NHL;
                           e_severity := Severity.ERROR; e_message := "no answer";
                           e_details := None |} ]), w) |}.

(* ===================================================================== *)
(** * redact.py *)
(* ===================================================================== *)

(** Number of bytes of the UTF-8 character whose first byte is [b]. *)
Definition utf8_width (b : Z) : nat :=
  if b <? 192 then 1%nat else if b <? 224 then 2%nat else if b <? 240 then 3%nat
  else 4%nat.

(** The characters of a [str], each with the bytes of its encoding: [cur]
    is the character being read and [more] the number of bytes it still
    lacks. *)
Fixpoint chars_from (cur : string) (more : nat) (s : string) : list string :=
  match s with
  | EmptyString => if nonempty cur then [cur] else []
  | String b r =>
    match more with
    | S k => chars_from (cur +:+ String b EmptyString) k r
    | O =>
      (if nonempty cur then [cur] else [])
      ++ chars_from (String b EmptyString) (utf8_width (byte b) - 1) r
    end
  end.

Definition chars (s : string) : list string := chars_from "" 0 s.

(** [len(s)] *)
Definition str_len (s : string) : Z := Z.of_nat (length (chars s)).

(** [cs[start:]]: a negative [start] counts from the end; outside the
    sequence it is brought back to its nearest end. *)
Definition slice_from {A : Type} (start : Z) (cs : list A) : list A :=
  let n := Z.of_nat (length cs) in
  let start := if start <? 0 then Z.max (start + n) 0 else Z.min start n in
  drop (Z.to_nat start) cs.

(** The string made of the characters [cs]. *)
Definition of_chars (cs : list string) : string := join "" cs.

Definition mask_secret (value : option string) (keep_last : Z) : string :=
  match value with
  | None => "<empty>"
  | Some v =>
    if negb (nonempty v) then "<empty>"
    else if str_len v <=? keep_last then "<masked>"
    else "<masked>..." +:+ of_chars (slice_from (- keep_last) (chars v))
  end.

(* ===================================================================== *)
(** * The specification's wording, for comparison with the code *)
(* ===================================================================== *)

Module Spec.

Section Formula.
Context {R : Type} `{PyFloat R}.

(** The sum of a list of floats, added from left to right to 0.0. *)
Definition total (l : list R) : R := fold_left f_add l f_zero.

(** "team-id -> summed weight, player-id -> summed weight": the sum of the
    weights of the rules of the given kind for the given entity, in the
    order of the rules, when there is such a rule. *)
Definition rules_for (kind : string) (rules : list (ScoringRule R)) (id : string)
    : list (ScoringRule R) :=
  List.filter (fun r => String.eqb (rule_kind r) kind && String.eqb (r_entity_id r) id)
              rules.

Definition summed_weight (kind : string) (rules : list (ScoringRule R)) (id : string)
    : option R :=
  match rules_for kind rules id with
  | [] => None
  | rs => Some (total (map r_weight rs))
  end.

(** A term of the score: "zero deltas skipped". *)
Definition term (x : R) : list R := if truthy x then [x] else [].

(** The weight an entity has, "if present": its summed weight, a summed
    weight of zero being no weight. *)
Definition weight_of (kind : string) (rules : list (ScoringRule R)) (id : string)
    : option R :=
  match summed_weight kind rules id with
  | Some w => if truthy w then Some w else None
  | None => None
  end.

(** (a) "sum of team weights for home and away teams if present" *)
Definition team_terms (rules : list (ScoringRule R)) (m : MatchForScoring) : list R :=
  option_list (weight_of "team" rules (t_team_id (m_home m)))
  ++ option_list (weight_of "team" rules (t_team_id (m_away m))).

(** (b) "for every stat row belonging to that match,
    weight x (goals + 0.5 x assists) if the player has a weight, skipping
    zero deltas".  The goals and the assists are ints; as floats they must
    be in range. *)
Definition stat_rows (stats : list PlayerGameStats) (m : MatchForScoring)
    : list PlayerGameStats :=
  List.filter (fun ps => String.eqb (ps_match_id ps) (m_match_id m)) stats.

Definition row_terms (rules : list (ScoringRule R)) (ps : PlayerGameStats)
    : option (list R) :=
  match weight_of "player" rules (ps_player_id ps) with
  | None => Some []
  | Some w =>
    goals ← f_of_int (ps_goals ps);
    assists ← f_of_int (ps_assists ps);
    Some (term (f_mul w (f_add goals (f_mul (lit 5 1) assists))))
  end.

Definition player_terms (rules : list (ScoringRule R)) (stats : list PlayerGameStats)
    (m : MatchForScoring) : option (list R) :=
  rows ← map_try (row_terms rules) (stat_rows stats m);
  Some (concat rows).

(** (c), (d) "a fixed +0.2 bonus if overtime / a shootout occurred" *)
Definition bonus (occurred : option bool) : list R :=
  if default false occurred then [lit 2 1] else [].

(** (e) "min(1.0, totalGoals/10) x 0.2" *)
Definition goals_terms (m : MatchForScoring) : option (list R) :=
  total_goals ← f_of_int (m_score_home m + m_score_away m);
  Some (term (f_mul (py_min (lit 1 0) (f_div total_goals (lit 10 0))) (lit 2 1))).

(** The terms of the score of a match, in the order (a) to (e), and the
    score: their sum. *)
Definition match_terms (rules : list (ScoringRule R)) (stats : list PlayerGameStats)
    (m : MatchForScoring) : option (list R) :=
  players ← player_terms rules stats m;
  goals ← goals_terms m;
  Some (team_terms rules m ++ players
        ++ bonus (m_went_overtime m) ++ bonus (m_went_shootout m) ++ goals).

End Formula.

(** "the video result for that match and kind": with several results for
    one match and kind, the one listed last. *)
Definition last_result (video_results : list VideoLinkResult)
    (match_id : string) (kind : VideoKind.t) : option VideoLinkResult :=
  List.find (fun vr => String.eqb (vr_match_id vr) match_id
                       && bool_decide (vr_kind vr = kind))
            (rev video_results).

(** "(code, origin, message) triple" *)
Definition triple (e : AppError) : string * SourceSystem.t * string :=
  (e_code e, e_source e, e_message e).

(** "one line per distinct (code, origin, message) triple - first
    occurrence wins, later duplicates silently dropped": an error is kept,
    and the errors with its triple are removed from what is kept of the
    errors behind it. *)
Fixpoint first_occurrences (errors : list AppError) : list AppError :=
  match errors with
  | [] => []
  | e :: rest =>
    e :: List.filter (fun e' => negb (bool_decide (triple e' = triple e)))
                     (first_occurrences rest)
  end.

End Spec.

(** What the renderer may show of an item. *)
Definition public_view {R : Type} (it : PostItemPublic R)
    : string * option string * option string :=
  (it_title it, it_highlights_url it, it_full_url it).

(** A match with its final score blanked. *)
Definition forget_score (m : MatchForScoring) : MatchForScoring :=
  {| m_match_id := m_match_id m;
     m_start_time_utc := m_start_time_utc m;
     m_season := m_season m;
     m_home := m_home m;
     m_away := m_away m;
     m_score_home := 0;
     m_score_away := 0;
     m_went_overtime := m_went_overtime m;
     m_went_shootout := m_went_shootout m |}.

(** Two ranked matches that differ at most in the final score of the match. *)
Definition same_but_score {R : Type} (rm1 rm2 : RankedMatch R) : Prop :=
  forget_score (rm_match rm1) = forget_score (rm_match rm2)
  /\ rm_rank rm1 = rm_rank rm2.

(** Bounds that hold of every zone of the time-zone database: no UTC offset
    is a day or more. *)
Definition offset_ok (o : Z) : Prop := - US_PER_DAY < o < US_PER_DAY.

Definition zone_ok (z : Zone) : Prop :=
  offset_ok (zone_initial z)
  /\ Forall (fun tr : Z * Z => offset_ok (snd tr)) (zone_transitions z).

Definition tz_ok (tz : option tzinfo) : Prop :=
  match tz with
  | None | Some tz_utc => True
  | Some (tz_fixed o) => offset_ok o
  | Some (tz_zone _ z) => zone_ok z
  end.

(** A configuration and a reference datetime for which [compute_window]
    stays inside the years 1..9999: a known zone, a publish hour of the
    clock, and a reference at least seven days and the lookback away from
    both ends of the range of [datetime]. *)
Definition window_in_range {R : Type} (tzdb : string -> option Zone)
    (now_utc : datetime) (cfg : UsecaseConfig R) : Prop :=
  (exists z, tzdb (tz_msk cfg) = Some z /\ zone_ok z)
  /\ tz_ok (dt_tzinfo now_utc)
  /\ 0 <= publish_hour_msk cfg <= 23
  /\ 7 * US_PER_DAY + Z.abs (lookback_hours cfg) * US_PER_HOUR <= dt_us now_utc
  /\ dt_us now_utc + 7 * US_PER_DAY + Z.abs (lookback_hours cfg) * US_PER_HOUR
     < MAXORDINAL * US_PER_DAY.

(** The score of a ranked match. *)
Definition score_of {R : Type} (rm : RankedMatch R) : R := ms_score (rm_rank rm).

(** Descending order of the keys ([a] may stand before [b] when the key of
    [a] is [>=] that of [b]), and the elements of a list whose key equals
    ([==]) [q], in the order of the list. *)
Definition desc {R : Type} `{PyFloat R} {A : Type} (key : A -> R) (a b : A) : Prop :=
  f_leb (key b) (key a) = true.

Definition with_key {R : Type} `{PyFloat R} {A : Type} (key : A -> R) (q : R)
    (l : list A) : list A :=
  List.filter (fun a => f_eqb (key a) q) l.

(** Ascending order of the keys, as the sort sees it: [a] may stand before
    [b] when the key of [b] is not [<] that of [a]. *)
Definition key_le {R : Type} `{PyFloat R} {A : Type} (key : A -> R) (a b : A) : Prop :=
  key_lt key b a = false.

(** The matches, statistics and rules of the worked example (they are those
    of the mock adapters). *)
Definition example_matches : list MatchForScoring :=
  [ mock_match "m1" (mk_datetime 2026 11 2 23 0 0 (Some tz_utc))
               "BOS" "Boston Bruins" "NYR" "New York Rangers" 4 3 true;
    mock_match "m2" (mk_datetime 2026 11 2 9 0 0 (Some tz_utc))
               "TOR" "Toronto Maple Leafs" "MTL" "Montreal Canadiens" 2 1 false ].

(** What a weight table holds for an entity after the rules [rs] of that
    entity have been added to an entry [base]. *)
Definition added {R : Type} `{PyFloat R} (base : option R) (rs : list (ScoringRule R))
    : option R :=
  match rs with
  | [] => base
  | _ => Some (fold_left f_add (map r_weight rs) (default f_zero base))
  end.

(** What a part of the loop body does to the running score and the
    contributions: it records contributions with the weights [ws], and adds
    these weights to the score, one after the other. *)
Definition adds {R : Type} `{PyFloat R} (st st' : Tally) (ws : list R) : Prop :=
  map sc_weight (snd st') = map sc_weight (snd st) ++ ws
  /\ fst st' = fold_left f_add ws (fst st).

(** A rule whose kind the scorer knows. *)
Definition known_kind {R : Type} (r : ScoringRule R) : bool :=
  String.eqb (rule_kind r) "player" || String.eqb (rule_kind r) "team".

(** The contributions of a match. *)
Definition contributions {R : Type} (rm : RankedMatch R) : list (ScoreContribution R) :=
  ms_contributions (rm_rank rm).

(** The place of a float in the order of the floats, for the proofs on
    binary64: the floats that are not NaN compare as these triples do, read
    from left to right (the sign and kind, then the exponent, then the
    mantissa). *)
Definition float_rank (f : spec_float) : Z * Z * Z :=
  match f with
  | S754_zero _ | S754_nan => (0, 0, 0)
  | S754_infinity s => (if s then -2 else 2, 0, 0)
  | S754_finite s m e => if s then (-1, - e, Z.neg m) else (1, e, Z.pos m)
  end.

Definition lex_lt (a b : Z * Z * Z) : Prop :=
  fst (fst a) < fst (fst b)
  \/ fst (fst a) = fst (fst b)
     /\ (snd (fst a) < snd (fst b)
         \/ snd (fst a) = snd (fst b) /\ snd a < snd b).

(** The value of a float in that order, and the floats that are not NaN. *)
Definition rank_of (x : float) : Z * Z * Z := float_rank (Prim2SF x).

Definition not_nan (x : float) : Prop := Prim2SF x <> S754_nan.

(* ===================================================================== *)
(** * Sample data *)
(* ===================================================================== *)

(** An excerpt of the time-zone database.  Europe/Moscow: UTC+4 until
    2014-10-25T22:00Z, UTC+3 since.  Europe/Berlin around 2026: UTC+2 until
    2025-10-26T01:00Z, then UTC+1 until 2026-03-29T01:00Z, then UTC+2 until
    2026-10-25T01:00Z, then UTC+1. *)
Definition europe_moscow : Zone :=
  {| zone_initial := 4 * US_PER_HOUR;
     zone_transitions :=
       [ (dt_us (mk_datetime 2014 10 25 22 0 0 None), 3 * US_PER_HOUR) ] |}.

Definition europe_berlin : Zone :=
  {| zone_initial := 2 * US_PER_HOUR;
     zone_transitions :=
       [ (dt_us (mk_datetime 2025 10 26 1 0 0 None), 1 * US_PER_HOUR);
         (dt_us (mk_datetime 2026 3 29 1 0 0 None), 2 * US_PER_HOUR);
         (dt_us (mk_datetime 2026 10 25 1 0 0 None), 1 * US_PER_HOUR) ] |}.

Definition sample_tzdb (key : string) : option Zone :=
  if String.eqb key "Europe/Moscow" then Some europe_moscow
  else if String.eqb key "Europe/Berlin" then Some europe_berlin
  else None.

(** [UsecaseConfig()] with its default values, and with another zone. *)
Definition default_config {R : Type} `{PyFloat R} : UsecaseConfig R :=
  {| tz_msk := "Europe/Moscow";
     publish_hour_msk := 8;
     lookback_hours := 48;
     min_interest_score := lit 0 0 |}.

Definition berlin_config {R : Type} `{PyFloat R} : UsecaseConfig R :=
  {| tz_msk := "Europe/Berlin";
     publish_hour_msk := 8;
     lookback_hours := 48;
     min_interest_score := lit 0 0 |}.

(** The length of a window in hours, as elapsed time. *)
Definition window_hours (w : date * datetime * datetime) : Z :=
  let '(_, window_start_utc, window_end_utc) := w in
  (instant window_end_utc - instant window_start_utc) / US_PER_HOUR.

(** A reference instant on the day Europe/Berlin moves to summer time, one
    on the day Moscow moved from UTC+4 to UTC+3, and one on an ordinary day
    in Moscow, without and with its zone. *)
Definition now_dst : datetime := mk_datetime 2026 3 29 12 0 0 (Some tz_utc).
Definition now_2014 : datetime := mk_datetime 2014 10 26 10 0 0 (Some tz_utc).
Definition now_naive : datetime := mk_datetime 2026 11 3 12 0 0 None.
Definition now_aware : datetime := mk_datetime 2026 11 3 12 0 0 (Some tz_utc).

(** The public view builder, in the words of the specification, with "the
    video result for that match and kind" read as the last one listed. *)
Module SpecView.
Section View.
Context {R : Type} `{PyFloat R}.
Variable video_results : list VideoLinkResult.
Variable cfg : UsecaseConfig R.

(** "each ranked match with score >= threshold": the matches that the loop
    of the code does not skip, which are those whose score is not [<] the
    threshold. *)
Definition surviving (ranked : list (RankedMatch R)) : list (RankedMatch R) :=
  List.filter (fun rm => negb (f_ltb (score_of rm) (min_interest_score cfg))) ranked.

(** "each present only if its corresponding result status is found" *)
Definition url_of (rm : RankedMatch R) (kind : VideoKind.t) : option string :=
  found_url (Spec.last_result video_results (m_match_id (rm_match rm)) kind).

(** "one public item per surviving match" *)
Definition item_of (rm : RankedMatch R) : PostItemPublic R :=
  {| it_match_id := m_match_id (rm_match rm);
     it_title := _match_title (rm_match rm);
     it_start_time_utc := m_start_time_utc (rm_match rm);
     it_highlights_url := url_of rm VideoKind.HIGHLIGHTS;
     it_full_url := url_of rm VideoKind.FULL;
     it_rank_score := Some (score_of rm) |}.

(** "any error status result contributes its embedded structured error" *)
Definition errors_of (rm : RankedMatch R) : list AppError :=
  video_error (Spec.last_result video_results (m_match_id (rm_match rm))
                                VideoKind.HIGHLIGHTS)
  ++ video_error (Spec.last_result video_results (m_match_id (rm_match rm))
                                   VideoKind.FULL).
End View.

(** The clause on errors as the claim words it: every video result with
    status "error" for a surviving match contributes its embedded error to
    the error list of the post. *)
Definition every_error_result_contributes {R : Type} `{PyFloat R}
    (ranked : list (RankedMatch R)) (video_results : list VideoLinkResult)
    (cfg : UsecaseConfig R) (post_errors : list AppError) : Prop :=
  forall (vr : VideoLinkResult) (e : AppError),
    In vr video_results ->
    vr_status vr = VideoStatus.ERROR ->
    vr_error vr = Some e ->
    (exists rm, In rm (surviving cfg ranked)
                /\ m_match_id (rm_match rm) = vr_match_id vr) ->
    In e post_errors.
End SpecView.

(** A second result for the highlights of m1, a found one. *)
Definition video_found : VideoLinkResult :=
  {| vr_match_id := "m1"; vr_kind := VideoKind.HIGHLIGHTS;
     vr_status := VideoStatus.FOUND;
     vr_url := Some "https://vk.example/m1/highlights";
     vr_error := None; vr_source := SourceSystem.VK |}.

(** Two errors with the same (code, source, message) that differ otherwise,
    a store holding them in one list, and a post without items that refers
    to that list. *)
Definition sample_error : AppError :=
  {| e_code := "NHL_TIMEOUT"; e_source := SourceSystem.NHL;
     e_severity := Severity.ERROR; e_message := "no answer"; e_details := None |}.

Definition sample_error_again : AppError :=
  {| e_code := "NHL_TIMEOUT"; e_source := SourceSystem.NHL;
     e_severity := Severity.WARNING; e_message := "no answer";
     e_details := Some ∅ |}.

(** An error with the code and the message of [sample_error] that comes
    from another system. *)
Definition sample_error_elsewhere : AppError :=
  {| e_code := "NHL_TIMEOUT"; e_source := SourceSystem.VK;
     e_severity := Severity.ERROR; e_message := "no answer"; e_details := None |}.

Definition sample_heap : Heap := [[sample_error; sample_error_again]].

Definition sample_post (items : list (PostItemPublic float)) : PostPublic float :=
  {| p_run_date_msk := ymd2ord 2026 11 3;
     p_generated_at_utc := now_aware;
     p_items := items;
     p_errors := 0 |}.

(** An item with a given rank score, and a ranked match with a given final
    score. *)
Definition sample_item (rank_score : float) : PostItemPublic float :=
  {| it_match_id := "m1";
     it_title := "BOS — NYR";
     it_start_time_utc := mk_datetime 2026 11 2 23 0 0 (Some tz_utc);
     it_highlights_url := Some "https://vk.example/m1/highlights";
     it_full_url := None;
     it_rank_score := Some rank_score |}.

Definition sample_ranked (score_home score_away : Z) : RankedMatch float :=
  {| rm_match := mock_match "m1" (mk_datetime 2026 11 2 23 0 0 (Some tz_utc))
                            "BOS" "Boston Bruins" "NYR" "New York Rangers"
                            score_home score_away true;
     rm_rank := {| ms_match_id := "m1"; ms_score := 1%float; ms_contributions := [] |} |}.

(** A ranked match whose final score is a NaN. *)
Definition nan_ranked : RankedMatch float :=
  {| rm_match := rm_match (sample_ranked 4 3);
     rm_rank := {| ms_match_id := "m1"; ms_score := PrimFloat.nan;
                   ms_contributions := [] |} |}.

(** The collaborators of the smoke test, in a world made of the store of the
    in-memory registry and of what has been printed, and the same with a
    results loader that finds nothing, and with a video loader that fails. *)
Definition mock_run (now_utc : datetime)
    : M (gmap Z PublicationRecord * list string) (option (PostPublic float) * nat) :=
  run_daily_digest sample_tzdb _ now_utc default_config
                   (results_loader_beside MockResultsLoader)
                   (rules_loader_beside MockScoringRulesLoader)
                   (video_loader_beside MockVideoLoader)
                   (publisher_beside StdoutPublisher)
                   InMemoryPublicationRegistry.

Definition empty_run (now_utc : datetime)
    : M (gmap Z PublicationRecord * list string) (option (PostPublic float) * nat) :=
  run_daily_digest sample_tzdb _ now_utc default_config
                   (results_loader_beside EmptyResultsLoader)
                   (rules_loader_beside MockScoringRulesLoader)
                   (video_loader_beside MockVideoLoader)
                   (publisher_beside StdoutPublisher)
                   InMemoryPublicationRegistry.

Definition failing_video_run (now_utc : datetime)
    : M (gmap Z PublicationRecord * list string) (option (PostPublic float) * nat) :=
  run_daily_digest sample_tzdb _ now_utc default_config
                   (results_loader_beside MockResultsLoader)
                   (rules_loader_beside MockScoringRulesLoader)
                   (video_loader_beside FailingVideoLoader)
                   (publisher_beside StdoutPublisher)
                   InMemoryPublicationRegistry.

(** A second reference instant of the same run date as [now_aware]. *)
Definition now_later : datetime := mk_datetime 2026 11 3 18 30 0 (Some tz_utc).

(** A zone whose offset never changes (Etc/GMT-3 is UTC+3 all year), a
    database that holds it, and a configuration that publishes in it. *)
Definition etc_gmt_minus_3 : Zone :=
  {| zone_initial := 3 * US_PER_HOUR; zone_transitions := [] |}.

Definition fixed_tzdb (key : string) : option Zone :=
  if String.eqb key "Etc/GMT-3" then Some etc_gmt_minus_3 else None.

Definition fixed_config {R : Type} `{PyFloat R} : UsecaseConfig R :=
  {| tz_msk := "Etc/GMT-3";
     publish_hour_msk := 8;
     lookback_hours := 48;
     min_interest_score := lit 0 0 |}.

(** A configuration with a publish hour that no clock shows. *)
Definition late_config {R : Type} `{PyFloat R} : UsecaseConfig R :=
  {| tz_msk := "Europe/Moscow";
     publish_hour_msk := 24;
     lookback_hours := 48;
     min_interest_score := lit 0 0 |}.

(** The instant of [now_aware], read on a clock five hours behind UTC. *)
Definition now_new_york : datetime :=
  mk_datetime 2026 11 3 7 0 0 (Some (tz_fixed (- 5 * US_PER_HOUR))).

(** A publisher that cannot reach the channel: it returns no message id
    and reports the problem. *)
Definition publish_failed : AppError :=
  {| e_code := "TG_SEND_FAILED"; e_source := SourceSystem.TG;
     e_severity := Severity.ERROR; e_message := "no answer"; e_details := None |}.

Definition FailingPublisher {W : Type} : Publisher W :=
  {| publish := fun text w => Some ((None, [publish_failed]), w) |}.

Definition failing_publish_run (now_utc : datetime)
    : M (gmap Z PublicationRecord * list string) (option (PostPublic float) * nat) :=
  run_daily_digest sample_tzdb _ now_utc default_config
                   (results_loader_beside MockResultsLoader)
                   (rules_loader_beside MockScoringRulesLoader)
                   (video_loader_beside MockVideoLoader)
                   (publisher_beside FailingPublisher)
                   InMemoryPublicationRegistry.

(** The calls a run has added to the log. *)
Definition new_calls {W : Type} (s s' : RunState W) : list Call :=
  drop (length (st_calls s)) (st_calls s').

(** The lists of identifiers with which the video loader was called, in
    the order of the calls. *)
Definition video_loads (calls : list Call) : list (list string) :=
  flat_map (fun c => match c with CallVideoLoad match_ids => [match_ids] | _ => [] end)
           calls.

(** The rank score of an item is [>=] the threshold. *)
Definition item_passes {R : Type} `{PyFloat R} (cfg : UsecaseConfig R)
    (it : PostItemPublic R) : bool :=
  match it_rank_score it with
  | Some score => f_leb (min_interest_score cfg) score
  | None => false
  end.

(** The text the smoke test publishes. *)
Definition mock_text : string :=
  join newline
       ["BOS — NYR"; "  highlights: https://vk.example/m1/highlights";
        "  full: ссылка не найдена"; "";
        "TOR — MTL"; "  highlights: https://vk.example/m2/highlights";
        "  full: ссылка не найдена"].

(** The same hour on the next day. *)
Definition now_next_day : datetime := mk_datetime 2026 11 4 12 0 0 (Some tz_utc).

(** Two rules that give the player "p" a summed weight beyond the floats
    (1e308 + 1e308 is infinite), and a row of "p" in the match "b" without
    goals and assists: the score of "b" is inf * 0.0, a NaN.  The matches
    "a" and "c" are scored 0.1 and 0.2, for their five and ten goals. *)
Definition heavy_rules : list (ScoringRule float) :=
  [ {| r_entity_type := "player"; r_entity_id := "p"; r_weight := 1e308%float;
       r_label := None |};
    {| r_entity_type := "player"; r_entity_id := "p"; r_weight := 1e308%float;
       r_label := None |} ].

Definition idle_stats : list PlayerGameStats :=
  [ {| ps_match_id := "b"; ps_player_id := "p"; ps_player_name := "P";
       ps_team_id := "B1"; ps_goals := 0; ps_assists := 0 |} ].

Definition nan_matches : list MatchForScoring :=
  [ mock_match "a" (mk_datetime 2026 11 2 23 0 0 (Some tz_utc))
               "A1" "A one" "A2" "A two" 3 2 false;
    mock_match "b" (mk_datetime 2026 11 2 23 0 0 (Some tz_utc))
               "B1" "B one" "B2" "B two" 0 0 false;
    mock_match "c" (mk_datetime 2026 11 2 23 0 0 (Some tz_utc))
               "C1" "C one" "C2" "C two" 6 4 false ].

(** A match with more goals than a float can hold. *)
Definition endless_match : MatchForScoring :=
  mock_match "m1" (mk_datetime 2026 11 2 23 0 0 (Some tz_utc))
             "BOS" "Boston Bruins" "NYR" "New York Rangers" (10 ^ 400) 0 false.


(** Rules whose weights for the team A1 sum to 0.6000000000000001 in the
    order given and to 0.6 in the reverse order, and two matches without
    goals, of B1 and of A1. *)
Definition order_rules : list (ScoringRule float) :=
  [ {| r_entity_type := "team"; r_entity_id := "A1"; r_weight := 0.1%float;
       r_label := None |};
    {| r_entity_type := "team"; r_entity_id := "A1"; r_weight := 0.2%float;
       r_label := None |};
    {| r_entity_type := "team"; r_entity_id := "A1"; r_weight := 0.3%float;
       r_label := None |};
    {| r_entity_type := "team"; r_entity_id := "B1"; r_weight := 0.6%float;
       r_label := None |} ].

Definition order_rules_again : list (ScoringRule float) := rev order_rules.

Definition order_matches : list MatchForScoring :=
  [ mock_match "b" (mk_datetime 2026 11 2 23 0 0 (Some tz_utc))
               "B1" "B one" "B2" "B two" 0 0 false;
    mock_match "a" (mk_datetime 2026 11 2 23 0 0 (Some tz_utc))
               "A1" "A one" "A2" "A two" 0 0 false ].

(** A results loader that finds [endless_match] only, and the run of the
    smoke test with it. *)
Definition EndlessResultsLoader {W : Type} : ResultsLoader W :=
  {| results_load := fun window_start_utc window_end_utc w =>
       Some (([endless_match], [], []), w) |}.

Definition endless_run (now_utc : datetime)
    : M (gmap Z PublicationRecord * list string) (option (PostPublic float) * nat) :=
  run_daily_digest sample_tzdb _ now_utc default_config
                   (results_loader_beside EndlessResultsLoader)
                   (rules_loader_beside MockScoringRulesLoader)
                   (video_loader_beside MockVideoLoader)
                   (publisher_beside StdoutPublisher)
                   InMemoryPublicationRegistry.

(** The ranking of the worked example. *)
Definition example_ranking : list (RankedMatch float) :=
  Eval vm_compute in
    default [] (score_matches example_matches mock_stats mock_rules).
(* ===================================================================== *)
(** * Properties of the time window *)
(* ===================================================================== *)

Lemma zone_at_utc_ok (z : Zone) (u : Z) : zone_ok z -> offset_ok (fst (zone_at_utc z u)).
Proof.
  intros [Hinit Htrs]. unfold zone_at_utc.
  set (step := fun (st : Z * (Z * bool)) (tr : Z * Z) => _).
  assert (Hinv : forall trs st,
             Forall (fun tr : Z * Z => offset_ok (snd tr)) trs ->
             offset_ok (fst (snd st)) ->
             offset_ok (fst (snd (fold_left step trs st)))).
  { induction trs as [| [t after] trs IH]; intros [prev cur] Hall Hcur; cbn [fold_left].
    - exact Hcur.
    - apply Forall_cons in Hall as [Hafter Hall]. apply IH; [exact Hall |].
      unfold step. cbn [snd fst] in *. destruct (t <=? u); assumption. }
  apply Hinv; assumption.
Qed.

Lemma zone_utcoffset_ok (z : Zone) (wall : Z) (fold : bool) :
  zone_ok z -> offset_ok (zone_utcoffset z wall fold).
Proof.
  intros [Hinit Htrs]. unfold zone_utcoffset.
  set (step := fun (st : Z * Z) (tr : Z * Z) => _).
  assert (Hinv : forall trs st,
             Forall (fun tr : Z * Z => offset_ok (snd tr)) trs ->
             offset_ok (snd st) ->
             offset_ok (snd (fold_left step trs st))).
  { induction trs as [| [t after] trs IH]; intros [prev cur] Hall Hcur; cbn [fold_left].
    - exact Hcur.
    - apply Forall_cons in Hall as [Hafter Hall]. apply IH; [exact Hall |].
      unfold step. cbn [snd fst] in *.
      destruct (_ <=? wall); assumption. }
  apply Hinv; assumption.
Qed.

Lemma utcoffset_ok (tz : tzinfo) (us : Z) (fold : bool) :
  tz_ok (Some tz) -> offset_ok (utcoffset tz us fold).
Proof.
  destruct tz as [| o | key z]; cbn [tz_ok utcoffset]; intros Hok.
  - unfold offset_ok, US_PER_DAY, US_PER_HOUR, US_PER_MINUTE, US_PER_SECOND. lia.
  - exact Hok.
  - apply zone_utcoffset_ok. exact Hok.
Qed.

Ltac unfold_units :=
  unfold offset_ok, MAXORDINAL, US_PER_DAY, US_PER_HOUR, US_PER_MINUTE, US_PER_SECOND in *.

Lemma dt_add_Some (d : datetime) (td : timedelta) :
  US_PER_DAY <= dt_us d + td < (MAXORDINAL + 1) * US_PER_DAY ->
  dt_add d td = Some {| dt_us := dt_us d + td; dt_tzinfo := dt_tzinfo d;
                        dt_fold := false |}.
Proof.
  intros Hrange. unfold dt_add, in_range.
  destruct (Z.leb_spec US_PER_DAY (dt_us d + td)); [| lia].
  destruct (Z.ltb_spec (dt_us d + td) ((MAXORDINAL + 1) * US_PER_DAY)); [| lia].
  reflexivity.
Qed.

(** Away from the ends of the range, a conversion to another zone succeeds
    and moves the reading by less than two days. *)
Lemma astimezone_total (d : datetime) (mytz tz : tzinfo) :
  dt_tzinfo d = Some mytz -> tz_ok (Some mytz) -> tz_ok (Some tz) ->
  3 * US_PER_DAY <= dt_us d -> dt_us d + 3 * US_PER_DAY < MAXORDINAL * US_PER_DAY ->
  exists d',
    astimezone d tz = Some d'
    /\ dt_tzinfo d' = Some tz
    /\ dt_us d - 2 * US_PER_DAY < dt_us d' < dt_us d + 2 * US_PER_DAY.
Proof.
  intros Hmytz Hmyok Hok Hlo Hhi. unfold astimezone. rewrite Hmytz.
  destruct (decide (tz = mytz)) as [-> | Hne].
  - exists d. split; [reflexivity |]. split; [exact Hmytz |]. unfold_units. lia.
  - pose proof (utcoffset_ok mytz (dt_us d) (dt_fold d) Hmyok) as Hoff.
    unfold dt_sub. rewrite dt_add_Some by (unfold_units; lia).
    cbn [mbind option_bind].
    set (utc := replace_tzinfo _ tz).
    assert (Hutc : dt_us utc = dt_us d + - utcoffset mytz (dt_us d) (dt_fold d))
      by reflexivity.
    assert (Hutctz : dt_tzinfo utc = Some tz) by reflexivity.
    destruct tz as [| o | key z]; cbn [fromutc tz_ok] in *.
    + rewrite dt_add_Some by (rewrite Hutc; unfold_units; lia).
      eexists. split; [reflexivity |]. cbn [dt_tzinfo dt_us].
      split; [exact Hutctz |]. rewrite Hutc. unfold_units. lia.
    + rewrite dt_add_Some by (rewrite Hutc; unfold_units; lia).
      eexists. split; [reflexivity |]. cbn [dt_tzinfo dt_us].
      split; [exact Hutctz |]. rewrite Hutc. unfold_units. lia.
    + pose proof (zone_at_utc_ok z (dt_us utc) Hok) as Hat.
      destruct (zone_at_utc z (dt_us utc)) as [off fold]. cbn [fst] in Hat.
      rewrite dt_add_Some by (rewrite Hutc; unfold_units; lia).
      cbn [mbind option_bind].
      eexists. split; [reflexivity |].
      destruct fold; cbn [replace_fold dt_tzinfo dt_us];
        (split; [exact Hutctz |]); rewrite Hutc; unfold_units; lia.
Qed.

(** For a configuration and a reference in range, [compute_window] returns
    a window, with both ends in UTC. *)
Lemma compute_window_returns {R : Type} (tzdb : string -> option Zone)
    (now_utc : datetime) (cfg : UsecaseConfig R) :
  window_in_range tzdb now_utc cfg ->
  exists key ws we,
    compute_window tzdb now_utc cfg = Some (key, ws, we)
    /\ dt_tzinfo ws = Some tz_utc /\ dt_tzinfo we = Some tz_utc.
Proof.
  intros ((z & Hz & Hzok) & Htzok & Hhour & Hlo & Hhi).
  unfold compute_window, ZoneInfo. rewrite Hz. cbn [mbind option_bind].
  set (now' := match dt_tzinfo now_utc with
               | None => replace_tzinfo now_utc tz_utc
               | Some _ => now_utc
               end).
  assert (Hnow : dt_us now' = dt_us now_utc) by (unfold now'; destruct (dt_tzinfo now_utc); reflexivity).
  assert (Hmy : exists mytz, dt_tzinfo now' = Some mytz /\ tz_ok (Some mytz)).
  { unfold now'. destruct (dt_tzinfo now_utc) as [tz |] eqn:E.
    - exists tz. split; [exact E | exact Htzok].
    - exists tz_utc. split; [reflexivity | exact I]. }
  destruct Hmy as (mytz & Hmytz & Hmyok).
  pose proof (Z.abs_nonneg (lookback_hours cfg)) as Habs.
  destruct (astimezone_total now' mytz (tz_zone (tz_msk cfg) z) Hmytz Hmyok Hzok)
    as (now_msk & Hconv & Hmsktz & Hmsk); [unfold_units; lia | unfold_units; lia |].
  rewrite Hconv. cbn [mbind option_bind].
  (* the anchor on the day of the reference *)
  unfold replace_time.
  assert (Hfields : between 0 (publish_hour_msk cfg) 23 && between 0 0 59
                    && between 0 0 59 && between 0 0 999999 = true).
  { unfold between. rewrite !andb_true_iff, !Z.leb_le. lia. }
  rewrite Hfields. cbn [mbind option_bind].
  set (anchor0 := {| dt_us := _; dt_tzinfo := dt_tzinfo now_msk;
                     dt_fold := dt_fold now_msk |}).
  assert (Hanchor0 : dt_us now_msk - US_PER_DAY < dt_us anchor0
                     <= dt_us now_msk + US_PER_DAY).
  { unfold anchor0. cbn [dt_us]. unfold_units. Z.div_mod_to_equations. lia. }
  assert (Hanchor0tz : dt_tzinfo anchor0 = Some (tz_zone (tz_msk cfg) z))
    by exact Hmsktz.
  clearbody anchor0.
  unfold dt_lt. rewrite Hmsktz, Hanchor0tz.
  rewrite decide_True by reflexivity. cbn [mbind option_bind].
  (* the anchor, on that day or the day before *)
  assert (Hanchor : exists anchor,
             (if dt_us now_msk <? dt_us anchor0
              then one_day ← timedelta_days 1; dt_sub anchor0 one_day
              else Some anchor0) = Some anchor
             /\ dt_tzinfo anchor = Some (tz_zone (tz_msk cfg) z)
             /\ dt_us now_msk - 2 * US_PER_DAY < dt_us anchor
                <= dt_us now_msk + US_PER_DAY).
  { destruct (dt_us now_msk <? dt_us anchor0).
    - change (timedelta_days 1) with (Some US_PER_DAY). cbn [mbind option_bind].
      unfold dt_sub. rewrite dt_add_Some by (unfold_units; lia).
      eexists. split; [reflexivity |]. cbn [dt_tzinfo dt_us].
      split; [exact Hanchor0tz |]. unfold_units. lia.
    - exists anchor0. split; [reflexivity |]. split; [exact Hanchor0tz |].
      unfold_units. lia. }
  destruct Hanchor as (anchor & -> & Hanchortz & Hanchor). cbn [mbind option_bind].
  (* the start of the window *)
  assert (Hlook : timedelta_hours (lookback_hours cfg)
                  = Some (lookback_hours cfg * US_PER_HOUR)).
  { unfold timedelta_hours, mk_timedelta, between.
    assert (Hdays : -999999999 <= lookback_hours cfg * US_PER_HOUR / US_PER_DAY
                    <= 999999999).
    { unfold_units. Z.div_mod_to_equations. lia. }
    destruct Hdays as [Hd1 Hd2].
    apply Z.leb_le in Hd1, Hd2. rewrite Hd1, Hd2. reflexivity. }
  rewrite Hlook. cbn [mbind option_bind].
  unfold dt_sub at 1. rewrite dt_add_Some by (unfold_units; lia).
  cbn [mbind option_bind].
  set (start := {| dt_us := dt_us anchor + - (lookback_hours cfg * US_PER_HOUR);
                   dt_tzinfo := dt_tzinfo anchor; dt_fold := false |}).
  destruct (astimezone_total start (tz_zone (tz_msk cfg) z) tz_utc Hanchortz Hzok I)
    as (ws & Hws & Hwstz & _);
    [cbn [dt_us start]; unfold_units; lia | cbn [dt_us start]; unfold_units; lia |].
  rewrite Hws. cbn [mbind option_bind].
  destruct (astimezone_total anchor (tz_zone (tz_msk cfg) z) tz_utc Hanchortz Hzok I)
    as (we & Hwe & Hwetz & _); [unfold_units; lia | unfold_units; lia |].
  rewrite Hwe. cbn [mbind option_bind].
  exists (dt_date anchor), ws, we. repeat split; assumption.
Qed.

Lemma dt_add_inv (d d' : datetime) (td : timedelta) :
  dt_add d td = Some d' ->
  dt_us d' = dt_us d + td /\ dt_tzinfo d' = dt_tzinfo d /\ dt_fold d' = false.
Proof.
  unfold dt_add. destruct (in_range (dt_us d + td)); [| discriminate].
  intros [= <-]. repeat split; reflexivity.
Qed.

(** The conversion of a reading in a zone of the database to UTC subtracts
    the offset the zone gives to that reading. *)
Lemma astimezone_utc_inv (d d' : datetime) (key : string) (z : Zone) :
  dt_tzinfo d = Some (tz_zone key z) ->
  astimezone d tz_utc = Some d' ->
  dt_tzinfo d' = Some tz_utc
  /\ dt_us d' = dt_us d - zone_utcoffset z (dt_us d) (dt_fold d).
Proof.
  intros Htz. unfold astimezone. rewrite Htz.
  rewrite decide_False by discriminate.
  unfold dt_sub. cbn [utcoffset].
  destruct (dt_add d _) as [utc |] eqn:Hutc; [| discriminate].
  cbn [mbind option_bind fromutc].
  apply dt_add_inv in Hutc as (Hus & _ & _).
  intros Hd'. apply dt_add_inv in Hd' as (Hus' & Htz' & _).
  cbn [replace_tzinfo dt_us dt_tzinfo] in *.
  split; [exact Htz' |]. lia.
Qed.

(** What [compute_window] returns, for every zone: the end of the window is
    the anchor, read in the zone; the start is the wall-clock reading
    [lookback_hours] before the anchor, read in the zone; so the length of
    the window is [lookback_hours] corrected by the difference of the two
    offsets. *)
Lemma compute_window_anatomy {R : Type} (tzdb : string -> option Zone)
    (now_utc : datetime) (cfg : UsecaseConfig R)
    (key : date) (ws we : datetime) :
  compute_window tzdb now_utc cfg = Some (key, ws, we) ->
  exists z now_msk anchor fold,
    tzdb (tz_msk cfg) = Some z
    /\ astimezone (as_utc now_utc) (tz_zone (tz_msk cfg) z) = Some now_msk
    /\ anchor
       = (let anchor0 := dt_us now_msk / US_PER_DAY * US_PER_DAY
                         + publish_hour_msk cfg * US_PER_HOUR in
          if dt_us now_msk <? anchor0 then anchor0 - US_PER_DAY else anchor0)
    /\ key = anchor / US_PER_DAY
    /\ dt_tzinfo we = Some tz_utc
    /\ dt_tzinfo ws = Some tz_utc
    /\ dt_us we = anchor - zone_utcoffset z anchor fold
    /\ dt_us ws = anchor - lookback_hours cfg * US_PER_HOUR
                  - zone_utcoffset z (anchor - lookback_hours cfg * US_PER_HOUR) false.
Proof.
  unfold compute_window, ZoneInfo.
  change (match dt_tzinfo now_utc with
          | Some _ => now_utc
          | None => replace_tzinfo now_utc tz_utc
          end) with (as_utc now_utc).
  destruct (tzdb (tz_msk cfg)) as [z |] eqn:Hz; [| discriminate].
  cbn [mbind option_bind].
  destruct (astimezone (as_utc now_utc) (tz_zone (tz_msk cfg) z)) as [now_msk |] eqn:Hconv;
    [| discriminate].
  cbn [mbind option_bind].
  assert (Hmsktz : dt_tzinfo now_msk = Some (tz_zone (tz_msk cfg) z)).
  { revert Hconv. unfold astimezone.
    destruct (dt_tzinfo (as_utc now_utc)) as [mytz |] eqn:Hmy; [| discriminate].
    destruct (decide (tz_zone (tz_msk cfg) z = mytz)) as [<- | _].
    - intros [= <-]. exact Hmy.
    - destruct (dt_sub _ _) as [utc |]; [| discriminate].
      cbn [mbind option_bind fromutc].
      destruct (zone_at_utc z _) as [off fold].
      destruct (dt_add _ off) as [d' |] eqn:Hadd; [| discriminate].
      apply dt_add_inv in Hadd as (_ & Htz & _).
      cbn [mbind option_bind]. intros [= <-].
      destruct fold; cbn [replace_fold dt_tzinfo]; exact Htz. }
  unfold replace_time.
  destruct (between 0 (publish_hour_msk cfg) 23 && _ && _ && _); [| discriminate].
  cbn [mbind option_bind].
  set (anchor0 := {| dt_us := _; dt_tzinfo := dt_tzinfo now_msk;
                     dt_fold := dt_fold now_msk |}).
  assert (Hanchor0 : dt_us anchor0 = dt_us now_msk / US_PER_DAY * US_PER_DAY
                                     + publish_hour_msk cfg * US_PER_HOUR)
    by (cbn [dt_us anchor0]; unfold_units; lia).
  assert (Hanchor0tz : dt_tzinfo anchor0 = Some (tz_zone (tz_msk cfg) z))
    by exact Hmsktz.
  clearbody anchor0.
  unfold dt_lt. rewrite Hmsktz, Hanchor0tz.
  rewrite decide_True by reflexivity. cbn [mbind option_bind].
  destruct (if dt_us now_msk <? dt_us anchor0
            then one_day ← timedelta_days 1; dt_sub anchor0 one_day
            else Some anchor0) as [anchor |] eqn:Hanchor; [| discriminate].
  cbn [mbind option_bind].
  assert (Hanchor' : dt_us anchor
                     = (if dt_us now_msk <? dt_us anchor0
                        then dt_us anchor0 - US_PER_DAY else dt_us anchor0)
                     /\ dt_tzinfo anchor = Some (tz_zone (tz_msk cfg) z)).
  { destruct (dt_us now_msk <? dt_us anchor0).
    - change (timedelta_days 1) with (Some US_PER_DAY) in Hanchor.
      cbn [mbind option_bind] in Hanchor.
      apply dt_add_inv in Hanchor as (Hus & Htz & _).
      split; [lia | congruence].
    - injection Hanchor as <-. split; [reflexivity | exact Hanchor0tz]. }
  destruct Hanchor' as [Hus Hanchortz].
  destruct (timedelta_hours (lookback_hours cfg)) as [lookback |] eqn:Hlook;
    [| discriminate].
  assert (Hlookback : lookback = lookback_hours cfg * US_PER_HOUR).
  { unfold timedelta_hours, mk_timedelta in Hlook.
    destruct (between _ _ _); [injection Hlook as <-; reflexivity | discriminate]. }
  cbn [mbind option_bind].
  destruct (dt_sub anchor lookback) as [start |] eqn:Hstart; [| discriminate].
  cbn [mbind option_bind].
  apply dt_add_inv in Hstart as (Hstartus & Hstarttz & Hstartfold).
  destruct (astimezone start tz_utc) as [ws' |] eqn:Hws; [| discriminate].
  cbn [mbind option_bind].
  destruct (astimezone anchor tz_utc) as [we' |] eqn:Hwe; [| discriminate].
  cbn [mbind option_bind].
  intros [= <- <- <-].
  apply (astimezone_utc_inv _ _ (tz_msk cfg) z) in Hws as [Hwstz Hwsus];
    [| congruence].
  apply (astimezone_utc_inv _ _ (tz_msk cfg) z) in Hwe as [Hwetz Hweus];
    [| exact Hanchortz].
  exists z, now_msk, (dt_us anchor), (dt_fold anchor).
  split; [reflexivity |]. split; [exact Hconv |].
  split; [rewrite Hus, Hanchor0; reflexivity |].
  split; [reflexivity |].
  split; [exact Hwetz |]. split; [exact Hwstz |].
  split; [exact Hweus |].
  rewrite Hwsus, Hstartus, Hstartfold, Hlookback.
  replace (dt_us anchor + - (lookback_hours cfg * US_PER_HOUR))
    with (dt_us anchor - lookback_hours cfg * US_PER_HOUR) by lia.
  reflexivity.
Qed.

(** In a zone whose offset never changes the window is [lookback_hours]
    long. *)
Lemma compute_window_constant_offset {R : Type} (tzdb : string -> option Zone)
    (now_utc : datetime) (cfg : UsecaseConfig R) (z : Zone)
    (key : date) (ws we : datetime) :
  tzdb (tz_msk cfg) = Some z ->
  zone_transitions z = [] ->
  compute_window tzdb now_utc cfg = Some (key, ws, we) ->
  instant we - instant ws = lookback_hours cfg * US_PER_HOUR.
Proof.
  intros Hz Hconst Hwin.
  destruct (compute_window_anatomy tzdb now_utc cfg key ws we Hwin)
    as (z' & now_msk & anchor & fold & Hz' & _ & _ & _ & Hwetz & Hwstz & Hwe & Hws).
  rewrite Hz in Hz'. injection Hz' as <-.
  unfold instant. rewrite Hwetz, Hwstz. cbn [utcoffset].
  rewrite Hwe, Hws. unfold zone_utcoffset. rewrite Hconst. cbn [fold_left snd]. lia.
Qed.

(** C10: a reference datetime without a zone is read as UTC:
    [compute_window] gives for it exactly what it gives for the same
    datetime with [timezone.utc] attached (the same window, and an exception
    only when that one raises), and it does return a window whenever the
    configuration is valid and the datetime is not within a few days of the
    ends of the range of [datetime]. *)
Theorem compute_window_naive_is_utc :
  forall (R : Type) (tzdb : string -> option Zone) (now : datetime)
         (cfg : UsecaseConfig R),
    dt_tzinfo now = None ->
    compute_window tzdb now cfg
    = compute_window tzdb (replace_tzinfo now tz_utc) cfg
    /\ (window_in_range tzdb now cfg ->
        exists key ws we, compute_window tzdb now cfg = Some (key, ws, we)).
Proof.
  intros R tzdb now cfg Hnaive. split.
  - unfold compute_window. rewrite Hnaive. reflexivity.
  - intros Hrange.
    destruct (compute_window_returns tzdb now cfg Hrange) as (key & ws & we & Hwin & _).
    exists key, ws, we. exact Hwin.
Qed.

Lemma compute_window_naive_is_utc_witness :
  dt_tzinfo now_naive = None
  /\ window_in_range sample_tzdb now_naive (default_config (R:=float))
  /\ compute_window sample_tzdb now_naive (default_config (R:=float))
     = compute_window sample_tzdb (replace_tzinfo now_naive tz_utc) default_config
  /\ exists key ws we,
       compute_window sample_tzdb now_naive (default_config (R:=float))
       = Some (key, ws, we).
Proof.
  assert (Hrange : window_in_range sample_tzdb now_naive (default_config (R:=float))).
  { split.
    - exists europe_moscow. split; [reflexivity |].
      split; [vm_compute; split; reflexivity |].
      repeat constructor.
    - split; [exact I |].
      split; [cbn; lia |].
      split; vm_compute; [discriminate | reflexivity]. }
  split; [reflexivity |]. split; [exact Hrange |].
  destruct (compute_window_naive_is_utc float sample_tzdb now_naive default_config eq_refl)
    as [Hsame Hreturns].
  split; [exact Hsame | exact (Hreturns Hrange)].
Defined.

(** C5: in a zone whose UTC offset changes inside the window, the window is
    not [lookback_hours] long.  With Europe/Berlin, a publish hour of 8 and
    a lookback of 48 hours, the run of 2026-03-29T12:00Z has the window
    2026-03-27T07:00Z .. 2026-03-29T06:00Z, which is 47 hours: the start is
    found by moving the hands of the local clock back 48 hours, across the
    change to summer time.  With the default configuration (Europe/Moscow)
    the run of 2014-10-26T10:00Z has the window 2014-10-24T04:00Z ..
    2014-10-26T05:00Z, which is 49 hours. *)
Theorem compute_window_across_dst :
  compute_window sample_tzdb now_dst (berlin_config (R:=float))
  = Some (ymd2ord 2026 3 29,
          mk_datetime 2026 3 27 7 0 0 (Some tz_utc),
          mk_datetime 2026 3 29 6 0 0 (Some tz_utc))
  /\ window_hours (ymd2ord 2026 3 29,
                   mk_datetime 2026 3 27 7 0 0 (Some tz_utc),
                   mk_datetime 2026 3 29 6 0 0 (Some tz_utc)) = 47
  /\ lookback_hours (berlin_config (R:=float)) = 48
  /\ compute_window sample_tzdb now_2014 (default_config (R:=float))
     = Some (ymd2ord 2014 10 26,
             mk_datetime 2014 10 24 4 0 0 (Some tz_utc),
             mk_datetime 2014 10 26 5 0 0 (Some tz_utc))
  /\ window_hours (ymd2ord 2014 10 26,
                   mk_datetime 2014 10 24 4 0 0 (Some tz_utc),
                   mk_datetime 2014 10 26 5 0 0 (Some tz_utc)) = 49
  /\ lookback_hours (default_config (R:=float)) = 48.
Proof.
  repeat split; vm_compute; reflexivity.
Qed.

(* ===================================================================== *)
(** * Properties of the comparisons of binary64 *)
(* ===================================================================== *)

Lemma lex_lt_spec (a b : Z * Z * Z) : lex_lt a b \/ a = b \/ lex_lt b a.
Proof.
  destruct a as [[a1 a2] a3], b as [[b1 b2] b3]. unfold lex_lt. cbn [fst snd].
  destruct (Z.lt_trichotomy a1 b1) as [? | [-> | ?]]; [tauto | | tauto].
  destruct (Z.lt_trichotomy a2 b2) as [? | [-> | ?]]; [tauto | | tauto].
  destruct (Z.lt_trichotomy a3 b3) as [? | [-> | ?]]; tauto.
Qed.

Lemma lex_lt_asym (a b : Z * Z * Z) : lex_lt a b -> ~ lex_lt b a.
Proof.
  destruct a as [[a1 a2] a3], b as [[b1 b2] b3]. unfold lex_lt. cbn [fst snd]. lia.
Qed.

Lemma lex_lt_irrefl (a : Z * Z * Z) : ~ lex_lt a a.
Proof. intros Ha. exact (lex_lt_asym a a Ha Ha). Qed.

Lemma lex_lt_trans (a b c : Z * Z * Z) : lex_lt a b -> lex_lt b c -> lex_lt a c.
Proof.
  destruct a as [[a1 a2] a3], b as [[b1 b2] b3], c as [[c1 c2] c3].
  unfold lex_lt. cbn [fst snd]. lia.
Qed.

(** Floats that are not NaN compare as their ranks. *)
Lemma SFcompare_rank (f1 f2 : spec_float) :
  f1 <> S754_nan -> f2 <> S754_nan ->
  match SFcompare f1 f2 with
  | Some Lt => lex_lt (float_rank f1) (float_rank f2)
  | Some Eq => float_rank f1 = float_rank f2
  | Some Gt => lex_lt (float_rank f2) (float_rank f1)
  | None => False
  end.
Proof.
  intros H1 H2.
  destruct f1 as [s1 | s1 | | s1 m1 e1], f2 as [s2 | s2 | | s2 m2 e2];
    try contradiction; cbn [SFcompare float_rank];
    try (destruct s1; try destruct s2; unfold lex_lt; cbn [fst snd];
         first [reflexivity | lia]).
  destruct s1, s2; unfold lex_lt; cbn [fst snd]; try lia.
  - destruct (Z.compare_spec e1 e2) as [-> | He | He]; [| lia | lia].
    change (Pos.compare_cont Eq m1 m2) with (Pos.compare m1 m2).
    destruct (Pos.compare_spec m1 m2) as [-> | Hm | Hm]; cbn [CompOpp];
      [reflexivity | lia | lia].
  - destruct (Z.compare_spec e1 e2) as [-> | He | He]; [| lia | lia].
    change (Pos.compare_cont Eq m1 m2) with (Pos.compare m1 m2).
    destruct (Pos.compare_spec m1 m2) as [-> | Hm | Hm];
      [reflexivity | lia | lia].
Qed.

Lemma SFcompare_nan (f1 f2 : spec_float) :
  f1 = S754_nan \/ f2 = S754_nan -> SFcompare f1 f2 = None.
Proof. intros [-> | ->]; [reflexivity | destruct f1; reflexivity]. Qed.

Lemma float_is_nan (x : float) :
  @is_nan float binary64_float x = false <-> not_nan x.
Proof.
  unfold is_nan, not_nan. cbn [f_eqb binary64_float]. rewrite FloatAxioms.eqb_spec. unfold SFeqb.
  split.
  - intros Heq Hnan. rewrite Hnan in Heq. discriminate.
  - intros Hx. pose proof (SFcompare_rank _ _ Hx Hx) as Hc.
    destruct (SFcompare (Prim2SF x) (Prim2SF x)) as [[] |]; try reflexivity.
    + exfalso. exact (lex_lt_irrefl _ Hc).
    + exfalso. exact (lex_lt_irrefl _ Hc).
    + contradiction.
Qed.

Lemma SF_nan_cases (f1 f2 : spec_float) :
  (f1 = S754_nan \/ f2 = S754_nan) \/ (f1 <> S754_nan /\ f2 <> S754_nan).
Proof. destruct f1, f2; try (left; tauto); right; split; discriminate. Qed.

Lemma SFltb_rank (f1 f2 : spec_float) :
  SFltb f1 f2 = true
  <-> f1 <> S754_nan /\ f2 <> S754_nan /\ lex_lt (float_rank f1) (float_rank f2).
Proof.
  unfold SFltb. destruct (SF_nan_cases f1 f2) as [Hnan | [H1 H2]].
  - rewrite (SFcompare_nan _ _ Hnan). split; [discriminate |].
    intros (? & ? & _). destruct Hnan; contradiction.
  - pose proof (SFcompare_rank f1 f2 H1 H2) as Hc.
    destruct (SFcompare f1 f2) as [[] |]; [| | | contradiction].
    + split; [discriminate |]. intros (_ & _ & Hlt). rewrite Hc in Hlt.
      exfalso. exact (lex_lt_irrefl _ Hlt).
    + split; [intros _; auto | reflexivity].
    + split; [discriminate |]. intros (_ & _ & Hlt).
      exfalso. exact (lex_lt_asym _ _ Hc Hlt).
Qed.

Lemma SFleb_rank (f1 f2 : spec_float) :
  SFleb f1 f2 = true
  <-> f1 <> S754_nan /\ f2 <> S754_nan /\ ~ lex_lt (float_rank f2) (float_rank f1).
Proof.
  unfold SFleb. destruct (SF_nan_cases f1 f2) as [Hnan | [H1 H2]].
  - rewrite (SFcompare_nan _ _ Hnan). split; [discriminate |].
    intros (? & ? & _). destruct Hnan; contradiction.
  - pose proof (SFcompare_rank f1 f2 H1 H2) as Hc.
    destruct (SFcompare f1 f2) as [[] |]; [| | | contradiction].
    + split; [| reflexivity]. intros _. repeat split; try assumption.
      rewrite Hc. apply lex_lt_irrefl.
    + split; [| reflexivity]. intros _. repeat split; try assumption.
      apply lex_lt_asym, Hc.
    + split; [discriminate |]. intros (_ & _ & Hge). contradiction.
Qed.

Lemma SFeqb_rank (f1 f2 : spec_float) :
  SFeqb f1 f2 = true
  <-> f1 <> S754_nan /\ f2 <> S754_nan /\ float_rank f1 = float_rank f2.
Proof.
  unfold SFeqb. destruct (SF_nan_cases f1 f2) as [Hnan | [H1 H2]].
  - rewrite (SFcompare_nan _ _ Hnan). split; [discriminate |].
    intros (? & ? & _). destruct Hnan; contradiction.
  - pose proof (SFcompare_rank f1 f2 H1 H2) as Hc.
    destruct (SFcompare f1 f2) as [[] |]; [| | | contradiction].
    + split; [intros _; auto | reflexivity].
    + split; [discriminate |]. intros (_ & _ & Heq). rewrite Heq in Hc.
      exfalso. exact (lex_lt_irrefl _ Hc).
    + split; [discriminate |]. intros (_ & _ & Heq). rewrite Heq in Hc.
      exfalso. exact (lex_lt_irrefl _ Hc).
Qed.

(** [<], [<=] and [==] on binary64, by the ranks. *)
Lemma float_ltb_true (x y : float) :
  f_ltb (PyFloat:=binary64_float) x y = true
  <-> not_nan x /\ not_nan y /\ lex_lt (rank_of x) (rank_of y).
Proof. cbn [f_ltb binary64_float]. rewrite FloatAxioms.ltb_spec. apply SFltb_rank. Qed.

Lemma float_leb_true (x y : float) :
  f_leb (PyFloat:=binary64_float) x y = true
  <-> not_nan x /\ not_nan y /\ ~ lex_lt (rank_of y) (rank_of x).
Proof. cbn [f_leb binary64_float]. rewrite FloatAxioms.leb_spec. apply SFleb_rank. Qed.

Lemma float_eqb_true (x y : float) :
  f_eqb (PyFloat:=binary64_float) x y = true
  <-> not_nan x /\ not_nan y /\ rank_of x = rank_of y.
Proof. cbn [f_eqb binary64_float]. rewrite FloatAxioms.eqb_spec. apply SFeqb_rank. Qed.

Lemma float_ltb_false (x y : float) :
  not_nan x -> not_nan y ->
  f_ltb (PyFloat:=binary64_float) x y = false <-> ~ lex_lt (rank_of x) (rank_of y).
Proof.
  intros Hx Hy. rewrite <- not_true_iff_false, float_ltb_true. tauto.
Qed.

(** [a >= b] is "not [a < b]" unless one of them is NaN, and implies it
    always. *)
Lemma float_leb_not_ltb (x y : float) :
  f_leb (PyFloat:=binary64_float) y x = true ->
  f_ltb (PyFloat:=binary64_float) x y = false.
Proof.
  intros Hle. apply float_leb_true in Hle as (Hy & Hx & Hge).
  apply float_ltb_false; assumption.
Qed.

Lemma float_not_ltb_leb (x y : float) :
  not_nan x -> not_nan y ->
  f_ltb (PyFloat:=binary64_float) x y = false ->
  f_leb (PyFloat:=binary64_float) y x = true.
Proof.
  intros Hx Hy Hlt. apply float_leb_true. repeat split; try assumption.
  apply float_ltb_false; assumption.
Qed.

(** [x < y] is false exactly when [y <= x] or one of the two is a NaN. *)
Lemma float_ltb_false_iff (x y : float) :
  f_ltb (PyFloat:=binary64_float) x y = false
  <-> f_leb (PyFloat:=binary64_float) y x = true
      \/ @is_nan float binary64_float x = true
      \/ @is_nan float binary64_float y = true.
Proof.
  destruct (@is_nan float binary64_float x) eqn:Hx.
  { split; [intros _; right; left; reflexivity |]. intros _.
    apply not_true_iff_false. intros Hlt.
    apply float_ltb_true in Hlt as (Hn & _). apply float_is_nan in Hn. congruence. }
  destruct (@is_nan float binary64_float y) eqn:Hy.
  { split; [intros _; right; right; reflexivity |]. intros _.
    apply not_true_iff_false. intros Hlt.
    apply float_ltb_true in Hlt as (_ & Hn & _). apply float_is_nan in Hn. congruence. }
  apply float_is_nan in Hx, Hy. split.
  - intros Hlt. left. apply float_not_ltb_leb; assumption.
  - intros [Hle | [Hn | Hn]]; [apply float_leb_not_ltb, Hle | discriminate ..].
Qed.
(* ===================================================================== *)
(** * Properties of the ranking *)
(* ===================================================================== *)

Lemma StronglySorted_app_inv {A : Type} (rel : A -> A -> Prop) (l1 l2 : list A) :
  StronglySorted rel (l1 ++ l2)
  -> StronglySorted rel l1 /\ StronglySorted rel l2
     /\ (forall a b, In a l1 -> In b l2 -> rel a b).
Proof.
  induction l1 as [| x l1 IH]; cbn [app]; intros Hs.
  - split; [constructor |]. split; [exact Hs |]. intros a b [].
  - apply StronglySorted_inv in Hs as [Hs Hx]. destruct (IH Hs) as (H1 & H2 & H12).
    split; [| split; [exact H2 |]].
    + constructor; [exact H1 |]. apply List.Forall_forall. intros a Ha.
      apply (proj1 (List.Forall_forall _ _) Hx). apply in_or_app. left. exact Ha.
    + intros a b [<- | Ha] Hb.
      * apply (proj1 (List.Forall_forall _ _) Hx). apply in_or_app. right. exact Hb.
      * apply H12; assumption.
Qed.

Lemma StronglySorted_app {A : Type} (rel : A -> A -> Prop) (l1 l2 : list A) :
  StronglySorted rel l1 -> StronglySorted rel l2
  -> (forall a b, In a l1 -> In b l2 -> rel a b)
  -> StronglySorted rel (l1 ++ l2).
Proof.
  induction l1 as [| x l1 IH]; cbn [app]; intros H1 H2 H12; [exact H2 |].
  apply StronglySorted_inv in H1 as [H1 Hx]. constructor.
  - apply IH; [assumption .. |]. intros a b Ha Hb. apply H12; [right |]; assumption.
  - apply Forall_app. split; [exact Hx |].
    apply List.Forall_forall. intros b Hb. apply H12; [left; reflexivity | exact Hb].
Qed.

Lemma StronglySorted_rev {A : Type} (rel : A -> A -> Prop) (l : list A) :
  StronglySorted rel l -> StronglySorted (fun a b => rel b a) (rev l).
Proof.
  induction 1 as [| x l Hs IH Hx]; cbn [rev]; [constructor |].
  apply StronglySorted_app; [exact IH | repeat constructor |].
  intros a b Ha [<- | []]. apply in_rev in Ha.
  exact (proj1 (List.Forall_forall _ _) Hx a Ha).
Qed.

Lemma filter_rev_eq {A : Type} (c : A -> bool) (l : list A) :
  List.filter c (rev l) = rev (List.filter c l).
Proof.
  induction l as [| x l IH]; [reflexivity |].
  cbn [rev List.filter]. rewrite List.filter_app, IH. cbn [List.filter].
  destruct (c x); [reflexivity | apply app_nil_r].
Qed.

Section SortOrder.
Context {R : Type} `{PyFloat R} {A : Type}.
Variable key : A -> R.

(** The sort gives a permutation, whatever the keys are. *)
Lemma bisect_perm (fuel : nat) (pivot : A) (prefix : list A) :
  Permutation (bisect key fuel pivot prefix) (pivot :: prefix).
Proof.
  revert prefix. induction fuel as [| fuel IH]; intros prefix; cbn [bisect];
    [reflexivity |].
  destruct (drop (length prefix / 2) prefix) as [| x hi] eqn:Hdrop; [reflexivity |].
  assert (Hsplit : take (length prefix / 2) prefix ++ x :: hi = prefix)
    by (rewrite <- Hdrop; apply take_drop).
  destruct (key_lt key pivot x).
  - rewrite IH. cbn [app]. rewrite Hsplit. reflexivity.
  - rewrite IH.
    transitivity (take (length prefix / 2) prefix ++ pivot :: x :: hi);
      [apply Permutation_app_head, perm_swap |].
    rewrite <- Permutation_middle, Hsplit. reflexivity.
Qed.

Lemma binarysort_perm (run rest : list A) :
  Permutation (binarysort key run rest) (run ++ rest).
Proof.
  unfold binarysort. revert run.
  induction rest as [| pivot rest IH]; intros run; cbn [fold_left].
  - rewrite app_nil_r. reflexivity.
  - rewrite IH, bisect_perm. rewrite <- Permutation_middle. reflexivity.
Qed.

Lemma sort_ascending_perm (l : list A) : Permutation (sort_ascending key l) l.
Proof.
  unfold sort_ascending. destruct (count_run key l) as [n descending].
  rewrite binarysort_perm.
  transitivity (take n l ++ drop n l); [| rewrite take_drop; reflexivity].
  apply Permutation_app_tail.
  destruct descending; [symmetry; apply Permutation_rev | reflexivity].
Qed.

Lemma sort_reverse_perm (l : list A) : Permutation (sort_reverse key l) l.
Proof.
  unfold sort_reverse.
  rewrite <- Permutation_rev, sort_ascending_perm, <- Permutation_rev. reflexivity.
Qed.

(** The elements whose keys [<] orders: on them "not less" is transitive,
    and [<] is never true both ways. *)
Variable ordered : A -> Prop.

Hypothesis lt_asym :
  forall a b, ordered a -> ordered b ->
    key_lt key a b = true -> key_lt key b a = false.
Hypothesis ge_trans :
  forall a b c, ordered a -> ordered b -> ordered c ->
    (key_lt key) b a = false -> key_lt key c b = false -> key_lt key c a = false.

Lemma key_lt_le (a b : A) :
  ordered a -> ordered b -> key_lt key a b = true -> key_le key a b.
Proof. intros Ha Hb Hlt. exact (lt_asym a b Ha Hb Hlt). Qed.

Lemma key_le_lt_trans (a b c : A) :
  ordered a -> ordered b -> ordered c ->
  key_le key b c -> key_lt key a b = true -> key_lt key a c = true.
Proof.
  intros Ha Hb Hc Hbc Hab. destruct (key_lt key a c) eqn:Hac; [reflexivity |].
  (* c <= a and b <= c give b <= a *)
  pose proof (ge_trans b c a Hb Hc Ha Hbc Hac) as Hba.
  unfold key_le in Hbc. congruence.
Qed.

Lemma key_lt_trans (a b c : A) :
  ordered a -> ordered b -> ordered c ->
  key_lt key a b = true -> key_lt key b c = true -> key_lt key a c = true.
Proof.
  intros Ha Hb Hc Hab Hbc.
  apply (key_le_lt_trans a b c); try assumption. apply key_lt_le; assumption.
Qed.

(** The place the binary search finds in a sorted prefix: behind the
    elements that are not greater than the pivot, before those that are
    greater. *)
Lemma bisect_place (fuel : nat) (pivot : A) (prefix : list A) :
  (length prefix <= fuel)%nat ->
  ordered pivot -> Forall ordered prefix ->
  StronglySorted (key_le key) prefix ->
  exists lo hi,
    prefix = lo ++ hi
    /\ bisect key fuel pivot prefix = lo ++ pivot :: hi
    /\ Forall (fun x => key_le key x pivot) lo
    /\ Forall (fun x => key_lt key pivot x = true) hi.
Proof.
  revert prefix. induction fuel as [| fuel IH]; intros prefix Hfuel Hp Hord Hs.
  - destruct prefix; [| cbn in Hfuel; lia].
    exists [], []. repeat split; constructor.
  - cbn [bisect].
    destruct (drop (length prefix / 2) prefix) as [| x hi] eqn:Hdrop.
    { exists [], prefix. split; [reflexivity |]. split; [reflexivity |].
      split; [constructor |].
      assert (Hnil : prefix = []).
      { destruct prefix as [| y prefix']; [reflexivity |].
        apply (f_equal (@length A)) in Hdrop. rewrite length_drop in Hdrop.
        cbn [length] in Hdrop.
        pose proof (Nat.div_lt (S (length prefix')) 2 ltac:(lia) ltac:(lia)).
        cbn [length] in *. lia. }
      rewrite Hnil. constructor. }
    set (p := (length prefix / 2)%nat) in *.
    assert (Hsplit : prefix = take p prefix ++ x :: hi)
      by (rewrite <- Hdrop; symmetry; apply take_drop).
    assert (Hlen : (length (take p prefix) + S (length hi) = length prefix)%nat).
    { pose proof (f_equal (@length A) Hsplit) as Hl.
      rewrite length_app in Hl. cbn [length] in Hl. lia. }
    rewrite Hsplit in Hord, Hs.
    apply Forall_app in Hord as [Hord_lo Hord_hi].
    apply Forall_cons in Hord_hi as [Hx Hord_hi].
    apply StronglySorted_app_inv in Hs as (Hs_lo & Hs_hi & Hcross).
    apply StronglySorted_inv in Hs_hi as [Hs_hi Hx_hi].
    destruct (key_lt key pivot x) eqn:Hpx.
    + destruct (IH (take p prefix) ltac:(lia) Hp Hord_lo Hs_lo)
        as (lo & hi' & Hlo & Hb & Hle & Hgt).
      exists lo, (hi' ++ x :: hi).
      split; [rewrite Hsplit at 1; rewrite Hlo, <- app_assoc; reflexivity |].
      split; [rewrite Hb, <- app_assoc; reflexivity |].
      split; [exact Hle |].
      apply Forall_app. split; [exact Hgt |].
      constructor; [exact Hpx |].
      apply List.Forall_forall. intros b Hb'.
      apply (key_le_lt_trans pivot x b); try assumption.
      * exact (proj1 (List.Forall_forall _ _) Hord_hi b Hb').
      * exact (proj1 (List.Forall_forall _ _) Hx_hi b Hb').
    + destruct (IH hi ltac:(lia) Hp Hord_hi Hs_hi)
        as (lo' & hi' & Hhi & Hb & Hle & Hgt).
      exists (take p prefix ++ x :: lo'), hi'.
      split; [rewrite Hsplit at 1; rewrite Hhi, <- app_assoc; reflexivity |].
      split; [rewrite Hb, <- app_assoc; reflexivity |].
      split; [| exact Hgt].
      apply Forall_app. split.
      * apply List.Forall_forall. intros a Ha.
        (* a <= x and x <= pivot *)
        apply (ge_trans a x pivot); try assumption.
        -- exact (proj1 (List.Forall_forall _ _) Hord_lo a Ha).
        -- apply Hcross; [exact Ha | left; reflexivity].
      * constructor; [exact Hpx | exact Hle].
Qed.

Lemma StronglySorted_weaken {B : Type} (rel1 rel2 : B -> B -> Prop) (l : list B) :
  (forall a b, In a l -> In b l -> rel1 a b -> rel2 a b) ->
  StronglySorted rel1 l -> StronglySorted rel2 l.
Proof.
  intros Himp Hs. induction Hs as [| x l Hs IH Hx]; [constructor |].
  constructor.
  - apply IH. intros a b Ha Hb. apply Himp; right; assumption.
  - apply List.Forall_forall. intros b Hb.
    apply Himp; [left; reflexivity | right; exact Hb |].
    exact (proj1 (List.Forall_forall _ _) Hx b Hb).
Qed.

Lemma insert_sorted (lo hi : list A) (pivot : A) :
  ordered pivot -> Forall ordered (lo ++ hi) ->
  StronglySorted (key_le key) (lo ++ hi) ->
  Forall (fun x => key_le key x pivot) lo ->
  Forall (fun x => key_lt key pivot x = true) hi ->
  StronglySorted (key_le key) (lo ++ pivot :: hi).
Proof.
  intros Hp Hord Hs Hle Hgt.
  apply Forall_app in Hord as [Hord_lo Hord_hi].
  apply StronglySorted_app_inv in Hs as (Hs_lo & Hs_hi & Hcross).
  apply StronglySorted_app; [exact Hs_lo | |].
  - constructor; [exact Hs_hi |].
    apply List.Forall_forall. intros b Hb. apply key_lt_le; [exact Hp | |].
    + exact (proj1 (List.Forall_forall _ _) Hord_hi b Hb).
    + exact (proj1 (List.Forall_forall _ _) Hgt b Hb).
  - intros a b Ha [<- | Hb].
    + exact (proj1 (List.Forall_forall _ _) Hle a Ha).
    + apply Hcross; assumption.
Qed.

Lemma run_ascending (x : A) (l : list A) :
  Forall ordered (x :: l) ->
  StronglySorted (key_le key) (x :: take (run_length key false x l) l).
Proof.
  revert x. induction l as [| y l IH]; intros x Hord; cbn [run_length].
  - repeat constructor.
  - apply Forall_cons in Hord as [Hx Hord].
    destruct (key_lt key y x) eqn:Hyx; cbn [Bool.eqb take]; [repeat constructor |].
    pose proof (IH y Hord) as Hs.
    constructor; [exact Hs |].
    constructor; [exact Hyx |].
    apply StronglySorted_inv in Hs as [_ Hy].
    apply List.Forall_forall. intros b Hb.
    pose proof (proj1 (List.Forall_forall _ _) Hy b Hb) as Hyb.
    apply Forall_cons in Hord as [Hy' Hord].
    assert (Hb' : ordered b).
    { exact (proj1 (List.Forall_forall _ _) (Forall_take _ _ _ Hord) b Hb). }
    exact (ge_trans x y b Hx Hy' Hb' Hyx Hyb).
Qed.

Lemma run_descending (x : A) (l : list A) :
  Forall ordered (x :: l) ->
  StronglySorted (fun a b => key_lt key b a = true)
                 (x :: take (run_length key true x l) l).
Proof.
  revert x. induction l as [| y l IH]; intros x Hord; cbn [run_length].
  - repeat constructor.
  - apply Forall_cons in Hord as [Hx Hord].
    destruct (key_lt key y x) eqn:Hyx; cbn [Bool.eqb take]; [| repeat constructor].
    pose proof (IH y Hord) as Hs.
    constructor; [exact Hs |].
    constructor; [exact Hyx |].
    apply StronglySorted_inv in Hs as [_ Hy].
    apply List.Forall_forall. intros b Hb.
    pose proof (proj1 (List.Forall_forall _ _) Hy b Hb) as Hby.
    apply Forall_cons in Hord as [Hy' Hord].
    assert (Hb' : ordered b).
    { exact (proj1 (List.Forall_forall _ _) (Forall_take _ _ _ Hord) b Hb). }
    exact (key_lt_trans b y x Hb' Hy' Hx Hby Hyx).
Qed.

Lemma binarysort_sorted (run rest : list A) :
  Forall ordered run -> Forall ordered rest ->
  StronglySorted (key_le key) run ->
  StronglySorted (key_le key) (binarysort key run rest).
Proof.
  unfold binarysort. revert run.
  induction rest as [| pivot rest IH]; intros run Hrun Hrest Hs; cbn [fold_left];
    [exact Hs |].
  apply Forall_cons in Hrest as [Hp Hrest].
  destruct (bisect_place (length run) pivot run (le_n _) Hp Hrun Hs)
    as (lo & hi & Hsplit & -> & Hle & Hgt).
  rewrite Hsplit in Hrun, Hs.
  apply IH; [| exact Hrest | apply insert_sorted; assumption].
  apply Forall_app in Hrun as [Hlo Hhi].
  apply Forall_app. split; [exact Hlo | constructor; assumption].
Qed.

Lemma sort_ascending_sorted (l : list A) :
  Forall ordered l -> StronglySorted (key_le key) (sort_ascending key l).
Proof.
  intros Hord. unfold sort_ascending.
  destruct l as [| x [| y l]]; cbn [count_run].
  - constructor.
  - cbn. repeat constructor.
  - assert (Hrun : Forall ordered (take (S (run_length key (key_lt key y x) x (y :: l)))
                                        (x :: y :: l))).
    { rewrite <- (take_drop (S (run_length key (key_lt key y x) x (y :: l)))
                            (x :: y :: l))
        in Hord.
      apply Forall_app in Hord as [Hord _]. exact Hord. }
    assert (Hrest : Forall ordered (drop (S (run_length key (key_lt key y x) x (y :: l)))
                                         (x :: y :: l))).
    { rewrite <- (take_drop (S (run_length key (key_lt key y x) x (y :: l)))
                            (x :: y :: l))
        in Hord.
      apply Forall_app in Hord as [_ Hord]. exact Hord. }
    destruct (key_lt key y x) eqn:Hyx.
    + apply binarysort_sorted; [| exact Hrest |].
      * apply Forall_rev. exact Hrun.
      * cbn [take]. cbn [take] in Hrun.
        apply (StronglySorted_weaken (fun a b => key_lt key a b = true)).
        -- intros a b Ha Hb Hab. apply key_lt_le; [| | exact Hab].
           ++ apply in_rev in Ha. exact (proj1 (List.Forall_forall _ _) Hrun a Ha).
           ++ apply in_rev in Hb. exact (proj1 (List.Forall_forall _ _) Hrun b Hb).
        -- apply (StronglySorted_rev (fun a b => key_lt key b a = true)).
           apply run_descending. exact Hord.
    + apply binarysort_sorted; [exact Hrun | exact Hrest |].
      cbn [take]. apply run_ascending. exact Hord.
Qed.

(** The ranking is in descending order: no entry has a key that is [<] the
    key of an entry behind it. *)
Lemma sort_reverse_sorted (l : list A) :
  Forall ordered l ->
  StronglySorted (fun a b => key_lt key a b = false) (sort_reverse key l).
Proof.
  intros Hord. unfold sort_reverse.
  apply (StronglySorted_rev (key_le key)). apply sort_ascending_sorted.
  apply Forall_rev. exact Hord.
Qed.

(** Stability: the elements of a class of elements that [<] does not tell
    apart keep their order. *)
Section Classes.
Variable class : A -> bool.

Hypothesis class_ties :
  forall a b, ordered a -> ordered b -> class a = true -> class b = true ->
    (key_lt key) a b = false.

Lemma filter_nil_lt (pivot : A) (hi : list A) :
  ordered pivot -> Forall ordered hi -> class pivot = true ->
  Forall (fun x => key_lt key pivot x = true) hi ->
  List.filter class hi = [].
Proof.
  intros Hp Hord Hc Hgt. induction hi as [| x hi IH]; [reflexivity |].
  apply Forall_cons in Hord as [Hx Hord]. apply Forall_cons in Hgt as [Hpx Hgt].
  cbn [List.filter]. destruct (class x) eqn:Hcx; [| apply IH; assumption].
  pose proof (class_ties pivot x Hp Hx Hc Hcx). congruence.
Qed.

Lemma binarysort_stable (run rest : list A) :
  Forall ordered run -> Forall ordered rest ->
  StronglySorted (key_le key) run ->
  List.filter class (binarysort key run rest) = List.filter class (run ++ rest).
Proof.
  unfold binarysort. revert run.
  induction rest as [| pivot rest IH]; intros run Hrun Hrest Hs; cbn [fold_left];
    [rewrite app_nil_r; reflexivity |].
  apply Forall_cons in Hrest as [Hp Hrest].
  destruct (bisect_place (length run) pivot run (le_n _) Hp Hrun Hs)
    as (lo & hi & Hsplit & -> & Hle & Hgt).
  rewrite Hsplit in Hrun, Hs.
  pose proof Hrun as Hrun'. apply Forall_app in Hrun' as [Hlo Hhi].
  rewrite IH; [| apply Forall_app; split; [exact Hlo | constructor; assumption]
               | exact Hrest | apply insert_sorted; assumption].
  rewrite Hsplit, <- !app_assoc, !List.filter_app. f_equal.
  cbn [app List.filter]. destruct (class pivot) eqn:Hc; [| reflexivity].
  rewrite (filter_nil_lt pivot hi Hp Hhi Hc Hgt). reflexivity.
Qed.

Lemma descending_run_stable (l : list A) :
  Forall ordered l ->
  StronglySorted (fun a b => key_lt key b a = true) l ->
  List.filter class (rev l) = List.filter class l.
Proof.
  intros Hord Hs. induction Hs as [| x l Hs IH Hx]; [reflexivity |].
  apply Forall_cons in Hord as [Hox Hord].
  cbn [rev]. rewrite List.filter_app, (IH Hord). cbn [List.filter].
  destruct (class x) eqn:Hc; [| apply app_nil_r].
  assert (Hnil : List.filter class l = []).
  { clear IH Hs. induction l as [| b l IH]; [reflexivity |].
    apply Forall_cons in Hord as [Hb Hord]. apply Forall_cons in Hx as [Hbx Hx].
    cbn [List.filter]. destruct (class b) eqn:Hcb; [| apply IH; assumption].
    pose proof (class_ties b x Hb Hox Hcb Hc). congruence. }
  rewrite Hnil. reflexivity.
Qed.

Lemma sort_ascending_stable (l : list A) :
  Forall ordered l ->
  List.filter class (sort_ascending key l) = List.filter class l.
Proof.
  intros Hord. unfold sort_ascending.
  destruct l as [| x [| y l]]; cbn [count_run].
  - reflexivity.
  - reflexivity.
  - set (n := S (run_length key (key_lt key y x) x (y :: l))).
    assert (Hsplit : take n (x :: y :: l) ++ drop n (x :: y :: l) = x :: y :: l)
      by apply take_drop.
    pose proof Hord as Hboth. rewrite <- Hsplit in Hboth.
    apply Forall_app in Hboth as [Hrun Hrest].
    transitivity (List.filter class (take n (x :: y :: l) ++ drop n (x :: y :: l)));
      [| rewrite Hsplit; reflexivity].
    rewrite List.filter_app.
    destruct (key_lt key y x) eqn:Hyx.
    + rewrite binarysort_stable; [| apply Forall_rev; exact Hrun | exact Hrest |].
      * rewrite List.filter_app. f_equal.
        apply descending_run_stable; [exact Hrun |].
        subst n. cbn [take]. apply run_descending. exact Hord.
      * subst n. cbn [take]. cbn [take] in Hrun.
        apply (StronglySorted_weaken (fun a b => key_lt key a b = true)).
        -- intros a b Ha Hb Hab. apply key_lt_le; [| | exact Hab].
           ++ apply in_rev in Ha. exact (proj1 (List.Forall_forall _ _) Hrun a Ha).
           ++ apply in_rev in Hb. exact (proj1 (List.Forall_forall _ _) Hrun b Hb).
        -- apply (StronglySorted_rev (fun a b => key_lt key b a = true)).
           apply run_descending. exact Hord.
    + rewrite binarysort_stable; [| exact Hrun | exact Hrest |].
      * rewrite List.filter_app. reflexivity.
      * subst n. cbn [take]. apply run_ascending. exact Hord.
Qed.

Lemma sort_reverse_stable (l : list A) :
  Forall ordered l ->
  List.filter class (sort_reverse key l) = List.filter class l.
Proof.
  intros Hord. unfold sort_reverse.
  rewrite filter_rev_eq, sort_ascending_stable by (apply Forall_rev; exact Hord).
  rewrite filter_rev_eq. apply rev_involutive.
Qed.
End Classes.
End SortOrder.

Lemma lex_ge_trans (a b c : Z * Z * Z) :
  ~ lex_lt b a -> ~ lex_lt c b -> ~ lex_lt c a.
Proof.
  destruct a as [[a1 a2] a3], b as [[b1 b2] b3], c as [[c1 c2] c3].
  unfold lex_lt. cbn [fst snd]. lia.
Qed.

(** On the floats that are not NaN, [<] is a strict order in which "not
    less" is transitive, and it does not tell apart two floats that are
    [==] to a third. *)
Lemma float_key_lt_asym {A : Type} (key : A -> float) (a b : A) :
  not_nan (key a) -> not_nan (key b) ->
  @key_lt float binary64_float A key a b = true ->
  @key_lt float binary64_float A key b a = false.
Proof.
  unfold key_lt. intros Ha Hb Hlt.
  apply float_ltb_true in Hlt as (_ & _ & Hlt).
  apply float_ltb_false; [assumption .. |]. apply lex_lt_asym, Hlt.
Qed.

Lemma float_key_ge_trans {A : Type} (key : A -> float) (a b c : A) :
  not_nan (key a) -> not_nan (key b) -> not_nan (key c) ->
  @key_lt float binary64_float A key b a = false ->
  @key_lt float binary64_float A key c b = false ->
  @key_lt float binary64_float A key c a = false.
Proof.
  unfold key_lt. intros Ha Hb Hc Hba Hcb.
  apply float_ltb_false in Hba; [| assumption ..].
  apply float_ltb_false in Hcb; [| assumption ..].
  apply float_ltb_false; [assumption .. |].
  exact (lex_ge_trans _ _ _ Hba Hcb).
Qed.

Lemma float_key_ties {A : Type} (key : A -> float) (q : float) (a b : A) :
  f_eqb (PyFloat:=binary64_float) (key a) q = true ->
  f_eqb (PyFloat:=binary64_float) (key b) q = true ->
  @key_lt float binary64_float A key a b = false.
Proof.
  unfold key_lt. intros Ha Hb.
  apply float_eqb_true in Ha as (Hna & _ & Ha).
  apply float_eqb_true in Hb as (Hnb & _ & Hb).
  apply float_ltb_false; [assumption .. |].
  rewrite Ha, Hb. apply lex_lt_irrefl.
Qed.
(* ===================================================================== *)
(** * Properties of the scorer *)
(* ===================================================================== *)

(** *** The rows of a match *)

Lemma group_stats_from (mid : string) (stats : list PlayerGameStats)
    (acc : gmap string (list PlayerGameStats)) :
  default [] (fold_left group_step stats acc !! mid)
  = default [] (acc !! mid)
    ++ List.filter (fun ps => String.eqb (ps_match_id ps) mid) stats.
Proof.
  revert acc. induction stats as [| ps stats IH]; intros acc.
  - simpl. rewrite app_nil_r. reflexivity.
  - cbn [fold_left List.filter]. rewrite IH. unfold group_step.
    destruct (String.eqb_spec (ps_match_id ps) mid) as [-> | Hne].
    + rewrite lookup_insert_eq. simpl. rewrite <- app_assoc. reflexivity.
    + rewrite lookup_insert_ne by exact Hne. reflexivity.
Qed.

Lemma group_stats_rows (stats : list PlayerGameStats) (m : MatchForScoring) :
  default [] (group_stats stats !! m_match_id m) = Spec.stat_rows stats m.
Proof.
  unfold group_stats. rewrite group_stats_from.
  rewrite lookup_empty. reflexivity.
Qed.

Section ScorerFacts.
Context {R : Type} `{PyFloat R}.

(** *** The two weight tables *)

Lemma added_cons (base : option R) (r : ScoringRule R) (rs : list (ScoringRule R)) :
  added (Some (f_add (default f_zero base) (r_weight r))) rs = added base (r :: rs).
Proof. destruct rs; reflexivity. Qed.

Lemma add_weight_lookup (d : gmap string R) (k eid : string) (w : R) :
  add_weight d k w !! eid
  = if String.eqb k eid then Some (f_add (default f_zero (d !! k)) w) else d !! eid.
Proof.
  unfold add_weight.
  destruct (String.eqb_spec k eid) as [-> | Hne].
  - rewrite lookup_insert_eq. reflexivity.
  - rewrite lookup_insert_ne by exact Hne. reflexivity.
Qed.

Lemma index_rules_from (eid : string) (rules : list (ScoringRule R))
    (player_w team_w : gmap string R) :
  fst (fold_left index_step rules (player_w, team_w)) !! eid
  = added (player_w !! eid) (Spec.rules_for "player" rules eid)
  /\ snd (fold_left index_step rules (player_w, team_w)) !! eid
     = added (team_w !! eid) (Spec.rules_for "team" rules eid).
Proof.
  revert player_w team_w.
  induction rules as [| r rules IH]; intros player_w team_w.
  - split; reflexivity.
  - cbn [fold_left]. unfold Spec.rules_for in *. cbn [List.filter].
    unfold index_step at 2 4.
    destruct (String.eqb_spec (rule_kind r) "player") as [Hk | Hk].
    + (* a player rule *)
      rewrite Hk. cbn [String.eqb Ascii.eqb Bool.eqb andb].
      destruct (IH (add_weight player_w (r_entity_id r) (r_weight r)) team_w)
        as [IHp IHt].
      split; [| exact IHt].
      rewrite IHp, add_weight_lookup.
      destruct (String.eqb_spec (r_entity_id r) eid) as [-> | Hne];
        [apply added_cons | reflexivity].
    + destruct (String.eqb_spec (rule_kind r) "team") as [Hk' | Hk'].
      * (* a team rule *)
        cbn [andb].
        destruct (IH player_w (add_weight team_w (r_entity_id r) (r_weight r)))
          as [IHp IHt].
        split; [exact IHp |].
        rewrite IHt, add_weight_lookup.
        destruct (String.eqb_spec (r_entity_id r) eid) as [-> | Hne];
          [apply added_cons | reflexivity].
      * (* an unknown kind *)
        cbn [andb]. apply IH.
Qed.

(** The weight tables hold the summed weights. *)
Lemma index_rules_weights (rules : list (ScoringRule R)) (eid : string) :
  fst (_index_rules rules) !! eid = Spec.summed_weight "player" rules eid
  /\ snd (_index_rules rules) !! eid = Spec.summed_weight "team" rules eid.
Proof.
  unfold _index_rules, Spec.summed_weight.
  destruct (index_rules_from eid rules ∅ ∅) as [Hp Ht].
  rewrite lookup_empty in Hp, Ht. rewrite Hp, Ht.
  split.
  - destruct (Spec.rules_for "player" rules eid); reflexivity.
  - destruct (Spec.rules_for "team" rules eid); reflexivity.
Qed.

(** *** The score of one match *)

Lemma adds_refl (st : Tally) : adds st st [].
Proof. split; [symmetry; apply app_nil_r | reflexivity]. Qed.

Lemma adds_trans (st1 st2 st3 : Tally) (ws ws' : list R) :
  adds st1 st2 ws -> adds st2 st3 ws' -> adds st1 st3 (ws ++ ws').
Proof.
  intros [Hw1 Hs1] [Hw2 Hs2]. split.
  - rewrite Hw2, Hw1, app_assoc. reflexivity.
  - rewrite Hs2, Hs1, fold_left_app. reflexivity.
Qed.

Lemma tally_adds (st : Tally) (delta : R) (c : ScoreContribution R) :
  sc_weight c = delta -> adds st (tally st delta c) [delta].
Proof.
  intros <-. split; cbn [tally fst snd fold_left]; [| reflexivity].
  rewrite map_app. reflexivity.
Qed.

Lemma team_step_adds (rules : list (ScoringRule R)) (st : Tally) (t : Team) :
  adds st (team_step (snd (_index_rules rules)) st t)
       (option_list (Spec.weight_of "team" rules (t_team_id t))).
Proof.
  unfold team_step, Spec.weight_of.
  rewrite (proj2 (index_rules_weights rules (t_team_id t))).
  destruct (Spec.summed_weight "team" rules (t_team_id t)) as [w |];
    [| apply adds_refl].
  destruct (truthy w); [| apply adds_refl].
  apply tally_adds. reflexivity.
Qed.

Lemma team_fold_adds (rules : list (ScoringRule R)) (m : MatchForScoring) (st : Tally) :
  adds st (fold_left (team_step (snd (_index_rules rules))) [m_home m; m_away m] st)
       (Spec.team_terms rules m).
Proof.
  cbn [fold_left]. unfold Spec.team_terms.
  eapply adds_trans; apply team_step_adds.
Qed.

(** A row of the statistics: the loop body raises exactly when the term
    of the row cannot be computed, and adds that term otherwise. *)
Lemma player_step_adds (rules : list (ScoringRule R)) (st : Tally)
    (ps : PlayerGameStats) :
  match player_step (fst (_index_rules rules)) st ps, Spec.row_terms rules ps with
  | Some st', Some ws => adds st st' ws
  | None, None => True
  | _, _ => False
  end.
Proof.
  unfold player_step, Spec.row_terms, Spec.weight_of.
  rewrite (proj1 (index_rules_weights rules (ps_player_id ps))).
  destruct (Spec.summed_weight "player" rules (ps_player_id ps)) as [w |];
    [| apply adds_refl].
  destruct (truthy w); [| apply adds_refl].
  destruct (f_of_int (ps_goals ps)) as [goals |]; [| exact I].
  destruct (f_of_int (ps_assists ps)) as [assists |]; [| exact I].
  cbn [mbind option_bind]. unfold Spec.term, truthy.
  destruct (negb (f_eqb _ f_zero)); [| apply adds_refl].
  apply tally_adds. reflexivity.
Qed.

Lemma player_fold_adds (rules : list (ScoringRule R)) (rows : list PlayerGameStats)
    (st : Tally) :
  match fold_left_try (player_step (fst (_index_rules rules))) rows st,
        map_try (Spec.row_terms rules) rows with
  | Some st', Some wss => adds st st' (concat wss)
  | None, None => True
  | _, _ => False
  end.
Proof.
  revert st. induction rows as [| ps rows IH]; intros st;
    cbn [fold_left_try map_try]; [apply adds_refl |].
  pose proof (player_step_adds rules st ps) as Hstep.
  destruct (player_step _ st ps) as [st1 |], (Spec.row_terms rules ps) as [ws |];
    try contradiction; [| exact I].
  cbn [mbind option_bind]. specialize (IH st1).
  destruct (fold_left_try _ rows st1) as [st' |], (map_try _ rows) as [wss |];
    try contradiction; [| exact I].
  cbn [mbind option_bind concat]. eapply adds_trans; eassumption.
Qed.

Lemma bonus_step_adds (reason : string) (on : bool) (amount : R) (st : Tally) :
  adds st (bonus_step reason on amount st) (if on then [amount] else []).
Proof.
  unfold bonus_step. destruct on; [| apply adds_refl].
  apply tally_adds. reflexivity.
Qed.

(** The loop body for a match raises exactly when a term of its score
    cannot be computed; otherwise the weights of the contributions are the
    terms, and the score is their sum. *)
Lemma score_match_terms (rules : list (ScoringRule R)) (stats : list PlayerGameStats)
    (m : MatchForScoring) :
  match score_match (fst (_index_rules rules)) (snd (_index_rules rules))
                    (group_stats stats) m,
        Spec.match_terms rules stats m with
  | Some rm, Some ws =>
    rm_match rm = m
    /\ ms_match_id (rm_rank rm) = m_match_id m
    /\ map sc_weight (contributions rm) = ws
    /\ score_of rm = Spec.total ws
  | None, None => True
  | _, _ => False
  end.
Proof.
  unfold score_match, Spec.match_terms, Spec.player_terms.
  rewrite group_stats_rows.
  pose proof (team_fold_adds rules m (f_zero, [])) as Hteam.
  set (st1 := fold_left (team_step (snd (_index_rules rules))) [m_home m; m_away m]
                        (f_zero, [])) in *.
  pose proof (player_fold_adds rules (Spec.stat_rows stats m) st1) as Hplayers.
  destruct (fold_left_try _ (Spec.stat_rows stats m) st1) as [st2 |],
           (map_try _ (Spec.stat_rows stats m)) as [wss |];
    try contradiction; [| exact I].
  cbn [mbind option_bind]. unfold tg_bonus, Spec.goals_terms.
  destruct (f_of_int (m_score_home m + m_score_away m)) as [total_goals |];
    [| exact I].
  cbn [mbind option_bind].
  set (bonus := f_mul (py_min (lit 1 0) (f_div total_goals (lit 10 0))) (lit 2 1)).
  pose proof (bonus_step_adds "overtime_bonus" (flag (m_went_overtime m)) (lit 2 1) st2)
    as Hot.
  set (st3 := bonus_step "overtime_bonus" _ _ st2) in *.
  pose proof (bonus_step_adds "shootout_bonus" (flag (m_went_shootout m)) (lit 2 1) st3)
    as Hso.
  set (st4 := bonus_step "shootout_bonus" _ _ st3) in *.
  pose proof (bonus_step_adds "total_goals_bonus" (truthy bonus) bonus st4) as Htg.
  set (st5 := bonus_step "total_goals_bonus" _ _ st4) in *.
  pose proof (adds_trans _ _ _ _ _ Hteam
                (adds_trans _ _ _ _ _ Hplayers
                   (adds_trans _ _ _ _ _ Hot (adds_trans _ _ _ _ _ Hso Htg))))
    as [Hws Hscore].
  cbn [fst snd map app] in Hws, Hscore.
  split; [reflexivity |]. split; [reflexivity |].
  unfold contributions, score_of. cbn [rm_rank ms_contributions ms_score].
  split; [exact Hws | exact Hscore].
Qed.

(** The list of the scored matches: one entry per match, in the order of
    the matches. *)
Lemma map_try_Forall2 {B C : Type} (f : B -> option C) (l : list B) (cs : list C) :
  map_try f l = Some cs <-> Forall2 (fun b c => f b = Some c) l cs.
Proof.
  revert cs. induction l as [| b l IH]; intros cs; cbn [map_try].
  - split; [intros [= <-]; constructor | intros Hf; inversion Hf; reflexivity].
  - split.
    + destruct (f b) as [c |] eqn:Hb; [| discriminate]. cbn [mbind option_bind].
      destruct (map_try f l) as [cs' |]; [| discriminate].
      intros [= <-]. constructor; [exact Hb | apply IH; reflexivity].
    + intros Hf. inversion Hf as [| b' c l' cs' Hb Hrest]; subst.
      rewrite Hb. cbn [mbind option_bind].
      rewrite (proj2 (IH cs') Hrest). reflexivity.
Qed.


Lemma scored_unfold (matches : list MatchForScoring) (stats : list PlayerGameStats)
    (rules : list (ScoringRule R)) :
  scored matches stats rules
  = map_try (score_match (fst (_index_rules rules)) (snd (_index_rules rules))
                         (group_stats stats))
            matches.
Proof. unfold scored. destruct (_index_rules rules). reflexivity. Qed.

Lemma scored_entries (matches : list MatchForScoring) (stats : list PlayerGameStats)
    (rules : list (ScoringRule R)) (entries : list (RankedMatch R)) :
  scored matches stats rules = Some entries ->
  map rm_match entries = matches
  /\ Forall (fun rm =>
               ms_match_id (rm_rank rm) = m_match_id (rm_match rm)
               /\ Spec.match_terms rules stats (rm_match rm)
                  = Some (map sc_weight (contributions rm))
               /\ score_of rm = Spec.total (map sc_weight (contributions rm)))
            entries.
Proof.
  rewrite scored_unfold, map_try_Forall2.
  induction 1 as [| m rm matches entries Hm _ IH]; [split; constructor |].
  destruct IH as [IHm IHf].
  pose proof (score_match_terms rules stats m) as Hterms. rewrite Hm in Hterms.
  destruct (Spec.match_terms rules stats m) as [ws |] eqn:Hws; [| contradiction].
  destruct Hterms as (Hrm & Hid & Hweights & Hscore).
  split; [cbn [map]; rewrite Hrm, IHm; reflexivity |].
  constructor; [| exact IHf].
  rewrite Hrm, Hweights, Hid, Hws. auto.
Qed.


Lemma score_matches_Some (matches : list MatchForScoring)
    (stats : list PlayerGameStats) (rules : list (ScoringRule R))
    (ranked : list (RankedMatch R)) :
  score_matches matches stats rules = Some ranked
  <-> exists entries,
        scored matches stats rules = Some entries
        /\ ranked = sort_reverse (fun rm => ms_score (rm_rank rm)) entries.
Proof.
  unfold score_matches. destruct (scored matches stats rules) as [entries |];
    cbn [mbind option_bind].
  - split; [intros [= <-]; eauto | intros (e & [= <-] & ->); reflexivity].
  - split; [discriminate | intros (e & He & _); discriminate].
Qed.

(** A property of every scored match is a property of every entry of the
    ranking. *)
Lemma score_matches_Forall (P : RankedMatch R -> Prop)
    (matches : list MatchForScoring) (stats : list PlayerGameStats)
    (rules : list (ScoringRule R)) (ranked : list (RankedMatch R)) :
  (forall m rm,
      In m matches ->
      score_match (fst (_index_rules rules)) (snd (_index_rules rules))
                  (group_stats stats) m = Some rm ->
      P rm) ->
  score_matches matches stats rules = Some ranked -> Forall P ranked.
Proof.
  intros HP Hranked.
  apply score_matches_Some in Hranked as (entries & Hentries & ->).
  rewrite sort_reverse_perm.
  rewrite scored_unfold, map_try_Forall2 in Hentries.
  induction Hentries as [| m rm matches entries Hm _ IH]; constructor.
  - apply (HP m rm); [left; reflexivity | exact Hm].
  - apply IH. intros m' rm' Hin. apply HP. right. exact Hin.
Qed.

Lemma fold_left_try_invariant {S B : Type} (P : S -> Prop) (f : S -> B -> option S)
    (l : list B) (s s' : S) :
  (forall a b a', P a -> f a b = Some a' -> P a') ->
  P s -> fold_left_try f l s = Some s' -> P s'.
Proof.
  intros Hf. revert s. induction l as [| b l IH]; intros s Hs; cbn [fold_left_try].
  - intros [= <-]. exact Hs.
  - destruct (f s b) as [s1 |] eqn:Hb; [| discriminate]. cbn [mbind option_bind].
    apply IH. exact (Hf s b s1 Hs Hb).
Qed.

Lemma map_try_ext_in {B C : Type} (f g : B -> option C) (l : list B) :
  (forall b, In b l -> f b = g b) -> map_try f l = map_try g l.
Proof.
  induction l as [| b l IH]; intros Hfg; cbn [map_try]; [reflexivity |].
  rewrite (Hfg b) by (left; reflexivity).
  rewrite IH; [reflexivity |]. intros b' Hin. apply Hfg. right. exact Hin.
Qed.

Lemma fold_left_invariant {A B : Type} (P : A -> Prop) (f : A -> B -> A)
    (l : list B) (a : A) :
  (forall a b, P a -> P (f a b)) -> P a -> P (fold_left f l a).
Proof.
  intros Hf. revert a. induction l as [| b l IH]; intros a Ha; cbn [fold_left].
  - exact Ha.
  - apply IH, Hf, Ha.
Qed.
End ScorerFacts.




(** *** The order of the ranking *)

(** C7: the ranking at the end of [score_matches], in binary64.  The
    ranking is a permutation of the scored entries (which are in the order
    of the input matches).  When no score is NaN it is the stable sort of
    the entries into non-increasing order of the scores: every entry has a
    score [>=] the score of every entry behind it, and for every value the
    entries whose score is [==] to it come in the order they had before the
    sort. *)
Theorem score_matches_stable_descending :
  forall (matches : list MatchForScoring) (stats : list PlayerGameStats)
         (rules : list (ScoringRule float)) (ranked : list (RankedMatch float)),
    @score_matches float binary64_float matches stats rules = Some ranked ->
    exists entries,
      @scored float binary64_float matches stats rules = Some entries
      /\ map rm_match entries = matches
      /\ Permutation ranked entries
      /\ (Forall (fun rm => @is_nan float binary64_float (score_of rm) = false) ranked ->
          StronglySorted (@desc float binary64_float _ score_of) ranked
          /\ forall q : float,
               @with_key float binary64_float _ score_of q ranked
               = @with_key float binary64_float _ score_of q entries).
Proof.
  intros matches stats rules ranked Hranked.
  apply score_matches_Some in Hranked as (entries & Hentries & ->).
  pose proof (sort_reverse_perm (H:=binary64_float) (fun rm => ms_score (rm_rank rm))
                                entries) as Hperm.
  exists entries. split; [exact Hentries |].
  split; [exact (proj1 (scored_entries matches stats rules entries Hentries)) |].
  split; [exact Hperm |].
  intros Hnan.
  assert (Hord : Forall (fun rm => not_nan (score_of rm)) entries).
  { rewrite <- Hperm. eapply Forall_impl; [exact Hnan |].
    intros rm Hrm. apply float_is_nan, Hrm. }
  split.
  - apply (StronglySorted_weaken
             (fun a b => @key_lt float binary64_float _ score_of a b = false)).
    + intros a b Ha Hb Hab. unfold desc. apply float_not_ltb_leb; [| | exact Hab].
      * apply (proj1 (List.Forall_forall _ _) Hord). rewrite <- Hperm. exact Ha.
      * apply (proj1 (List.Forall_forall _ _) Hord). rewrite <- Hperm. exact Hb.
    + apply (sort_reverse_sorted (H:=binary64_float) score_of
               (fun rm => not_nan (score_of rm))); [| | exact Hord].
      * intros a b. apply float_key_lt_asym.
      * intros a b c. apply float_key_ge_trans.
  - intros q. unfold with_key.
    apply (sort_reverse_stable (H:=binary64_float) score_of
             (fun rm => not_nan (score_of rm))); [| | | exact Hord].
    + intros a b. apply float_key_lt_asym.
    + intros a b c. apply float_key_ge_trans.
    + intros a b _ _. apply float_key_ties.
Qed.

Lemma score_matches_stable_descending_witness :
  exists entries,
    @score_matches float binary64_float example_matches mock_stats mock_rules
    = Some example_ranking
    /\ @scored float binary64_float example_matches mock_stats mock_rules = Some entries
    /\ map rm_match entries = example_matches
    /\ Permutation example_ranking entries
    /\ StronglySorted (@desc float binary64_float _ score_of) example_ranking.
Proof.
  assert (Hranked : @score_matches float binary64_float example_matches mock_stats
                                   mock_rules
                    = Some example_ranking) by (vm_compute; reflexivity).
  destruct (score_matches_stable_descending example_matches mock_stats mock_rules
              example_ranking Hranked)
    as (entries & Hentries & Hmatches & Hperm & Hsorted).
  exists entries. split; [exact Hranked |]. split; [exact Hentries |].
  split; [exact Hmatches |]. split; [exact Hperm |].
  apply Hsorted. repeat constructor.
Defined.

(** With a NaN among the scores the ranking is not in descending order.
    Two rules of 1e308 for one player sum to an infinite weight; a row of
    that player without goals and assists contributes inf * 0.0, which is a
    NaN and is not skipped; the match with that row stays between a match
    scored 0.1 and a match scored 0.2, which comes last. *)
Lemma score_matches_nan_unsorted :
  exists ranked,
    @score_matches float binary64_float nan_matches idle_stats heavy_rules
    = Some ranked
    /\ map (fun rm => m_match_id (rm_match rm)) ranked = ["a"; "b"; "c"]
    /\ map (fun rm => @is_nan float binary64_float (score_of rm)) ranked
       = [false; true; false]
    /\ ~ StronglySorted (@desc float binary64_float _ score_of) ranked.
Proof.
  destruct (@score_matches float binary64_float nan_matches idle_stats heavy_rules)
    as [ranked |] eqn:Hranked; [| vm_compute in Hranked; discriminate].
  exists ranked. split; [reflexivity |].
  vm_compute in Hranked. injection Hranked as <-.
  split; [reflexivity |]. split; [reflexivity |].
  intros Hs. apply StronglySorted_inv in Hs as [_ Hfirst].
  apply Forall_inv in Hfirst. vm_compute in Hfirst. discriminate.
Qed.
(* ===================================================================== *)
(** * Properties of the renderer *)
(* ===================================================================== *)

Lemma filter_filter_and {A : Type} (p q : A -> bool) (l : list A) :
  List.filter p (List.filter q l) = List.filter (fun x => q x && p x) l.
Proof.
  induction l as [| x l IH]; cbn [List.filter].
  - reflexivity.
  - destruct (q x); cbn [List.filter andb].
    + destruct (p x); rewrite IH; reflexivity.
    + exact IH.
Qed.

Lemma filter_ext_bool {A : Type} (p q : A -> bool) (l : list A) :
  (forall x, p x = q x) -> List.filter p l = List.filter q l.
Proof.
  intros Hpq. induction l as [| x l IH]; cbn [List.filter].
  - reflexivity.
  - rewrite Hpq, IH. reflexivity.
Qed.

Lemma item_lines_from {R : Type} (items : list (PostItemPublic R)) (acc : list string) :
  fold_left (fun (lines : list string) (it : PostItemPublic R) => lines ++ item_block it)
            items acc
  = acc ++ concat (map item_block items).
Proof.
  revert acc. induction items as [| it items IH]; intros acc; cbn [fold_left map concat].
  - rewrite app_nil_r. reflexivity.
  - rewrite IH, <- app_assoc. reflexivity.
Qed.

Lemma item_lines_blocks {R : Type} (items : list (PostItemPublic R)) :
  items <> [] -> item_lines items = concat (map item_block items).
Proof.
  intros Hne. destruct items as [| it items]; [contradiction |].
  unfold item_lines. rewrite item_lines_from. reflexivity.
Qed.

Lemma concat_blocks_length {R : Type} (items : list (PostItemPublic R)) :
  length (concat (map item_block items)) = (4 * length items)%nat.
Proof.
  induction items as [| it items IH]; cbn [map concat length app item_block].
  - reflexivity.
  - rewrite IH. lia.
Qed.

(** The key under which the renderer remembers an error is the same for
    two errors exactly when their code, their source system and their
    message are the same: the values of the source systems are pairwise
    distinct. *)
Lemma error_key_triple (e1 e2 : AppError) :
  error_key e1 = error_key e2 <-> Spec.triple e1 = Spec.triple e2.
Proof.
  unfold error_key, Spec.triple. split.
  - intros [= Hcode Hsource Hmessage]. rewrite Hcode, Hmessage. f_equal. f_equal.
    destruct (e_source e1), (e_source e2); try reflexivity; discriminate.
  - intros [= -> -> ->]. reflexivity.
Qed.

(** The loop over the errors keeps the first occurrences that are not seen
    yet. *)
Lemma error_fold (errors : list AppError) (seen : gset (string * string * string))
    (lines : list string) :
  snd (fold_left error_step errors (seen, lines))
  = lines
    ++ map error_line
         (List.filter (fun e => negb (bool_decide (error_key e ∈ seen)))
                      (Spec.first_occurrences errors)).
Proof.
  revert seen lines.
  induction errors as [| e rest IH]; intros seen lines.
  - cbn. rewrite app_nil_r. reflexivity.
  - cbn [fold_left Spec.first_occurrences List.filter].
    unfold error_step at 2.
    destruct (decide (error_key e ∈ seen)) as [Hin | Hnin].
    + rewrite IH. rewrite (bool_decide_eq_true_2 _ Hin). cbn [negb].
      rewrite filter_filter_and.
      f_equal. f_equal. apply filter_ext_bool. intros e'. symmetry.
      destruct (bool_decide (error_key e' ∈ seen)) eqn:E'; cbn [negb andb].
      * apply andb_false_r.
      * rewrite andb_true_r. apply negb_true_iff, bool_decide_eq_false.
        intros Heq. apply bool_decide_eq_false in E'. apply E'.
        apply error_key_triple in Heq. rewrite Heq. exact Hin.
    + rewrite IH. rewrite (bool_decide_eq_false_2 _ Hnin). cbn [negb map].
      rewrite <- app_assoc. cbn [app].
      f_equal. f_equal. f_equal.
      rewrite filter_filter_and.
      apply filter_ext_bool. intros e'.
      destruct (bool_decide (Spec.triple e' = Spec.triple e)) eqn:Ek; cbn [negb andb].
      * apply bool_decide_eq_true in Ek. apply error_key_triple in Ek.
        apply negb_false_iff, bool_decide_eq_true.
        rewrite Ek. apply elem_of_union_l, elem_of_singleton. reflexivity.
      * apply bool_decide_eq_false in Ek. f_equal.
        apply bool_decide_ext. rewrite elem_of_union, elem_of_singleton.
        rewrite error_key_triple. tauto.
Qed.

Lemma error_lines_first_occurrences (errors : list AppError) :
  errors <> [] ->
  error_lines errors = problems_header :: map error_line (Spec.first_occurrences errors).
Proof.
  intros Hne. destruct errors as [| e rest]; [contradiction |].
  unfold error_lines. rewrite error_fold. cbn [app].
  f_equal. f_equal.
  transitivity (List.filter (fun _ : AppError => true)
                            (Spec.first_occurrences (e :: rest))).
  - apply filter_ext_bool. intros e'.
    apply negb_true_iff, bool_decide_eq_false. apply not_elem_of_empty.
  - generalize (Spec.first_occurrences (e :: rest)).
    intros l. induction l as [| x l IHl]; cbn [List.filter]; [| rewrite IHl]; reflexivity.
Qed.

(** *** What the first occurrences are *)

Lemma first_occurrences_triples (errors : list AppError) (k : string * SourceSystem.t * string) :
  In k (map Spec.triple (Spec.first_occurrences errors)) <-> In k (map Spec.triple errors).
Proof.
  induction errors as [| e rest IH]; cbn [Spec.first_occurrences map In].
  - reflexivity.
  - rewrite <- IH. rewrite !in_map_iff.
    split.
    + intros [Hk | (e' & Hk & Hin)]; [left; exact Hk |].
      apply filter_In in Hin as [Hin _]. right. exists e'. split; assumption.
    + intros [Hk | (e' & Hk & Hin)]; [left; exact Hk |].
      destruct (decide (Spec.triple e' = Spec.triple e)) as [Heq | Hneq].
      * left. rewrite <- Heq. exact Hk.
      * right. exists e'. split; [exact Hk |].
        apply filter_In. split; [exact Hin |].
        apply negb_true_iff, bool_decide_eq_false. exact Hneq.
Qed.

Lemma NoDup_map_filter {A B : Type} (f : A -> B) (p : A -> bool) (l : list A) :
  NoDup (map f l) -> NoDup (map f (List.filter p l)).
Proof.
  induction l as [| x l IH]; cbn [map List.filter]; intros Hnd.
  - constructor.
  - apply NoDup_cons in Hnd as [Hx Hnd].
    destruct (p x); cbn [map]; [| apply IH; exact Hnd].
    apply NoDup_cons. split; [| apply IH; exact Hnd].
    intros Hin. apply Hx.
    apply list_elem_of_In in Hin. apply list_elem_of_In.
    apply in_map_iff in Hin as (y & Hy & Hin).
    apply filter_In in Hin as [Hin _].
    apply in_map_iff. exists y. split; assumption.
Qed.

Lemma first_occurrences_NoDup (errors : list AppError) :
  NoDup (map Spec.triple (Spec.first_occurrences errors)).
Proof.
  induction errors as [| e rest IH]; cbn [Spec.first_occurrences map].
  - constructor.
  - apply NoDup_cons. split; [| apply NoDup_map_filter; exact IH].
    intros Hin. apply list_elem_of_In in Hin.
    apply in_map_iff in Hin as (e' & Hk & Hin).
    apply filter_In in Hin as [_ Hp].
    apply negb_true_iff, bool_decide_eq_false in Hp. apply Hp. exact Hk.
Qed.

Lemma filter_sublist {A : Type} (p : A -> bool) (l : list A) :
  sublist (List.filter p l) l.
Proof.
  induction l as [| x l IH]; cbn [List.filter].
  - constructor.
  - destruct (p x); constructor; exact IH.
Qed.

Lemma first_occurrences_sublist (errors : list AppError) :
  sublist (Spec.first_occurrences errors) errors.
Proof.
  induction errors as [| e rest IH]; cbn [Spec.first_occurrences].
  - constructor.
  - constructor. etransitivity; [apply filter_sublist | exact IH].
Qed.

(** An error that is kept has no error with its triple before it. *)
Lemma first_occurrences_first (errors : list AppError) (e : AppError) :
  In e (Spec.first_occurrences errors) ->
  exists before after,
    errors = before ++ e :: after /\ ~ In (Spec.triple e) (map Spec.triple before).
Proof.
  induction errors as [| e0 rest IH]; cbn [Spec.first_occurrences In].
  - contradiction.
  - intros [-> | Hin].
    + exists [], rest. split; [reflexivity | intros []].
    + apply filter_In in Hin as [Hin Hp].
      apply negb_true_iff, bool_decide_eq_false in Hp.
      destruct (IH Hin) as (before & after & -> & Hfresh).
      exists (e0 :: before), after. split; [reflexivity |].
      cbn [map In]. intros [Heq | Hold]; [apply Hp; symmetry; exact Heq | exact (Hfresh Hold)].
Qed.

(** C9: [render_post] emits the line that says there are no matches exactly
    when the post has no items (otherwise the four lines of each item, in
    order), and when the post has errors it emits the header followed by
    one line per distinct (code, source, message) triple: the lines
    "- [source] code: message" of the first occurrences, in their order,
    later duplicates being dropped.  The first occurrences have pairwise
    distinct (code, source, message) triples, cover every triple of the
    list, keep the order of the list, and none has an error with its triple
    before it.  In particular two errors with the same triple give one
    error line, and two errors that differ in the code, in the source or in
    the message give two. *)
Theorem render_post_lines :
  forall (R : Type) (h : Heap) (post : PostPublic R),
    let items := p_items post in
    let errors := deref h (p_errors post) in
    let kept := Spec.first_occurrences errors in
    render_post h post = strip (join newline (item_lines items ++ error_lines errors))
    /\ (item_lines items = [no_matches_line] <-> items = [])
    /\ (items = [] \/ item_lines items = concat (map item_block items))
    /\ (errors = [] /\ error_lines errors = []
        \/ errors <> [] /\ error_lines errors = problems_header :: map error_line kept)
    /\ (forall e,
          error_line e
          = "- [" +:+ SourceSystem.value (e_source e) +:+ "] " +:+ e_code e
            +:+ ": " +:+ e_message e)
    /\ NoDup (map (fun e => (e_code e, e_source e, e_message e)) kept)
    /\ (forall code source message,
          In (code, source, message)
             (map (fun e => (e_code e, e_source e, e_message e)) kept)
          <-> In (code, source, message)
                 (map (fun e => (e_code e, e_source e, e_message e)) errors))
    /\ sublist kept errors
    /\ (forall e, In e kept ->
          exists before after,
            errors = before ++ e :: after
            /\ ~ In (e_code e, e_source e, e_message e)
                    (map (fun e' => (e_code e', e_source e', e_message e')) before))
    /\ (forall e1 e2 : AppError,
          e_code e1 = e_code e2 -> e_source e1 = e_source e2 ->
          e_message e1 = e_message e2 ->
          error_lines [e1; e2] = [problems_header; error_line e1])
    /\ (forall e1 e2 : AppError,
          e_code e1 <> e_code e2 \/ e_source e1 <> e_source e2
          \/ e_message e1 <> e_message e2 ->
          error_lines [e1; e2] = [problems_header; error_line e1; error_line e2]).
Proof.
  intros R h post items errors kept.
  split; [reflexivity |].
  split.
  { split.
    - intros Hline. destruct items as [| it items'] eqn:E; [reflexivity |].
      rewrite item_lines_blocks in Hline by discriminate.
      apply (f_equal (@length string)) in Hline.
      rewrite concat_blocks_length in Hline. cbn [length] in Hline. lia.
    - intros ->. reflexivity. }
  split.
  { destruct items as [| it items'] eqn:E; [left; reflexivity |].
    right. apply item_lines_blocks. discriminate. }
  split.
  { destruct errors as [| e errors'] eqn:E; [left; split; reflexivity |].
    right. split; [discriminate |].
    apply error_lines_first_occurrences. discriminate. }
  split; [reflexivity |].
  split; [exact (first_occurrences_NoDup errors) |].
  split; [intros code source message;
          exact (first_occurrences_triples errors (code, source, message)) |].
  split; [apply first_occurrences_sublist |].
  split; [exact (first_occurrences_first errors) |].
  split.
  - intros e1 e2 Hcode Hsource Hmessage.
    rewrite error_lines_first_occurrences by discriminate.
    cbn [Spec.first_occurrences List.filter map].
    rewrite bool_decide_eq_true_2; [reflexivity |].
    unfold Spec.triple. rewrite Hcode, Hsource, Hmessage. reflexivity.
  - intros e1 e2 Hdiff.
    rewrite error_lines_first_occurrences by discriminate.
    cbn [Spec.first_occurrences List.filter map].
    rewrite bool_decide_eq_false_2; [reflexivity |].
    unfold Spec.triple. intros [= Hcode Hsource Hmessage].
    destruct Hdiff as [Hd | [Hd | Hd]]; apply Hd; symmetry; assumption.
Qed.

Lemma render_post_lines_witness :
  error_lines [sample_error; sample_error_again]
  = [problems_header; error_line sample_error]
  /\ error_lines [sample_error; sample_error_elsewhere]
     = [problems_header; error_line sample_error; error_line sample_error_elsewhere]
  /\ render_post sample_heap (sample_post [])
     = no_matches_line +:+ newline +:+ problems_header +:+ newline
       +:+ "- [nhl] NHL_TIMEOUT: no answer".
Proof.
  split; [| split].
  - apply (render_post_lines float sample_heap (sample_post [])); reflexivity.
  - apply (render_post_lines float sample_heap (sample_post [])).
    right. left. discriminate.
  - destruct (render_post_lines float sample_heap (sample_post [])) as [Htext _].
    rewrite Htext. vm_compute. reflexivity.
Defined.

(** *** What the text depends on *)

Lemma cons_eq_inv {A : Type} (x y : A) (l1 l2 : list A) :
  x :: l1 = y :: l2 -> x = y /\ l1 = l2.
Proof. intros Heq. injection Heq as -> ->. split; reflexivity. Qed.

Lemma item_block_view {R : Type} (a b : PostItemPublic R) :
  public_view a = public_view b -> item_block a = item_block b.
Proof.
  unfold public_view, item_block, highlights_line, full_line.
  intros Hview. injection Hview as -> -> ->. reflexivity.
Qed.

Lemma item_lines_view {R : Type} (items1 items2 : list (PostItemPublic R)) :
  map public_view items1 = map public_view items2 ->
  item_lines items1 = item_lines items2.
Proof.
  intros Hview.
  assert (Hblocks : map item_block items1 = map item_block items2).
  { revert items2 Hview.
    induction items1 as [| a items1 IH]; intros [| b items2] Hview;
      try discriminate; [reflexivity |].
    cbn [map] in *. apply cons_eq_inv in Hview as [Hab Hrest].
    rewrite (item_block_view a b Hab), (IH items2 Hrest). reflexivity. }
  destruct items1 as [| a items1], items2 as [| b items2]; try discriminate.
  - reflexivity.
  - rewrite !item_lines_blocks by discriminate. rewrite Hblocks. reflexivity.
Qed.

Lemma error_line_key (a b : AppError) :
  error_key a = error_key b -> error_line a = error_line b.
Proof.
  unfold error_key, error_line. intros Hkey.
  injection Hkey as -> -> ->. reflexivity.
Qed.

Lemma same_keys_filter (k : string * SourceSystem.t * string) (l1 l2 : list AppError) :
  Forall2 (fun a b => error_key a = error_key b) l1 l2 ->
  Forall2 (fun a b => error_key a = error_key b)
          (List.filter (fun e' => negb (bool_decide (Spec.triple e' = k))) l1)
          (List.filter (fun e' => negb (bool_decide (Spec.triple e' = k))) l2).
Proof.
  induction 1 as [| a b l1 l2 Hab Hrest IH]; cbn [List.filter].
  - constructor.
  - rewrite (proj1 (error_key_triple a b) Hab).
    destruct (negb (bool_decide (Spec.triple b = k))).
    + constructor; assumption.
    + exact IH.
Qed.

Lemma same_keys_first_occurrences (l1 l2 : list AppError) :
  Forall2 (fun a b => error_key a = error_key b) l1 l2 ->
  Forall2 (fun a b => error_key a = error_key b)
          (Spec.first_occurrences l1) (Spec.first_occurrences l2).
Proof.
  induction 1 as [| a b l1 l2 Hab Hrest IH]; cbn [Spec.first_occurrences].
  - constructor.
  - constructor; [exact Hab |].
    rewrite (proj1 (error_key_triple a b) Hab). apply same_keys_filter. exact IH.
Qed.

Lemma error_lines_keys (l1 l2 : list AppError) :
  map error_key l1 = map error_key l2 -> error_lines l1 = error_lines l2.
Proof.
  intros Hkeys.
  assert (Hsame : Forall2 (fun a b => error_key a = error_key b) l1 l2).
  { revert l2 Hkeys. induction l1 as [| a l1 IH]; intros [| b l2] Hkeys;
      try discriminate; [constructor |].
    cbn [map] in Hkeys. apply cons_eq_inv in Hkeys as [Hab Hrest].
    constructor; [exact Hab | apply IH; exact Hrest]. }
  destruct l1 as [| a l1'] eqn:E1, l2 as [| b l2'] eqn:E2; try discriminate.
  - reflexivity.
  - rewrite <- E1, <- E2 in *.
    assert (Hne1 : l1 <> []) by (rewrite E1; discriminate).
    assert (Hne2 : l2 <> []) by (rewrite E2; discriminate).
    rewrite !error_lines_first_occurrences by assumption.
    f_equal.
    apply same_keys_first_occurrences in Hsame.
    induction Hsame as [| x y k1 k2 Hxy _ IHs]; cbn [map].
    + reflexivity.
    + rewrite (error_line_key x y Hxy), IHs. reflexivity.
Qed.

Lemma forget_score_fields (m1 m2 : MatchForScoring) :
  forget_score m1 = forget_score m2 ->
  m_match_id m1 = m_match_id m2
  /\ m_start_time_utc m1 = m_start_time_utc m2
  /\ _match_title m1 = _match_title m2.
Proof.
  unfold forget_score, _match_title. intros Heq.
  injection Heq as Hid Hstart _ Hhome Haway _ _.
  rewrite Hid, Hstart, Hhome, Haway. repeat split; reflexivity.
Qed.

Lemma post_step_score_blind {R : Type} `{PyFloat R}
    (vmap : gmap string (gmap VideoKind.t VideoLinkResult)) (cfg : UsecaseConfig R)
    (st : list (PostItemPublic R) * list AppError) (rm1 rm2 : RankedMatch R) :
  same_but_score rm1 rm2 -> post_step vmap cfg st rm1 = post_step vmap cfg st rm2.
Proof.
  intros [Hmatch Hrank].
  destruct (forget_score_fields _ _ Hmatch) as (Hid & Hstart & Htitle).
  unfold post_step. rewrite Hrank, Hid, Hstart, Htitle. reflexivity.
Qed.

Lemma post_fold_score_blind {R : Type} `{PyFloat R}
    (vmap : gmap string (gmap VideoKind.t VideoLinkResult)) (cfg : UsecaseConfig R)
    (ranked1 ranked2 : list (RankedMatch R)) :
  Forall2 same_but_score ranked1 ranked2 ->
  forall st, fold_left (post_step vmap cfg) ranked1 st
             = fold_left (post_step vmap cfg) ranked2 st.
Proof.
  induction 1 as [| rm1 rm2 l1 l2 Hsame _ IH]; intros st; cbn [fold_left].
  - reflexivity.
  - rewrite (post_step_score_blind vmap cfg st rm1 rm2 Hsame). apply IH.
Qed.

(** C3: the text of a post depends on the titles and the two URLs of its
    items and on the (code, source, message) triples of its errors, and on
    nothing else: two posts that agree on these have the same text, whatever
    the rank scores of their items are.  And the post that
    [build_post_public] builds, hence its text, is the same when the final
    scores of the ranked matches are changed and nothing else is.  So no
    score and no goal count reaches the text. *)
Theorem render_post_hides_scores :
  forall (R : Type) (F : PyFloat R),
    (forall (h1 h2 : Heap) (post1 post2 : PostPublic R),
        map public_view (p_items post1) = map public_view (p_items post2) ->
        map error_key (deref h1 (p_errors post1))
        = map error_key (deref h2 (p_errors post2)) ->
        render_post h1 post1 = render_post h2 post2)
    /\ (forall (run_date_msk : date) (now_utc : datetime)
               (ranked1 ranked2 : list (RankedMatch R))
               (video_results : list VideoLinkResult) (cfg : UsecaseConfig R)
               (extra_errors : list AppError) (h : Heap),
          Forall2 same_but_score ranked1 ranked2 ->
          let built1 := build_post_public run_date_msk now_utc ranked1 video_results
                                          cfg extra_errors h in
          let built2 := build_post_public run_date_msk now_utc ranked2 video_results
                                          cfg extra_errors h in
          built1 = built2
          /\ render_post (snd built1) (fst built1) = render_post (snd built2) (fst built2)).
Proof.
  intros R F. split.
  - intros h1 h2 post1 post2 Hitems Herrors.
    unfold render_post, render_lines.
    rewrite (item_lines_view _ _ Hitems), (error_lines_keys _ _ Herrors).
    reflexivity.
  - intros run_date_msk now_utc ranked1 ranked2 video_results cfg extra_errors h
           Hsame built1 built2.
    assert (Hbuilt : built1 = built2).
    { unfold built1, built2, build_post_public.
      rewrite (post_fold_score_blind _ cfg ranked1 ranked2 Hsame). reflexivity. }
    split; [exact Hbuilt |]. rewrite Hbuilt. reflexivity.
Qed.

Lemma render_post_hides_scores_witness :
  (map public_view (p_items (sample_post [sample_item 1%float]))
   = map public_view (p_items (sample_post [sample_item 6.84%float]))
   /\ render_post sample_heap (sample_post [sample_item 1%float])
      = render_post sample_heap (sample_post [sample_item 6.84%float]))
  /\ (Forall2 same_but_score [sample_ranked 4 3] [sample_ranked 0 9]
      /\ build_post_public (ymd2ord 2026 11 3) now_aware [sample_ranked 4 3]
                           (mock_videos "m1") default_config [] []
         = build_post_public (ymd2ord 2026 11 3) now_aware [sample_ranked 0 9]
                             (mock_videos "m1") default_config [] []).
Proof.
  split.
  - split; [reflexivity |].
    apply (render_post_hides_scores float binary64_float); reflexivity.
  - assert (Hsame : Forall2 (same_but_score (R:=float)) [sample_ranked 4 3] [sample_ranked 0 9]).
    { constructor; [split; reflexivity | constructor]. }
    split; [exact Hsame |].
    apply (render_post_hides_scores float binary64_float). exact Hsame.
Defined.

(* ===================================================================== *)
(** * Properties of the public view builder *)
(* ===================================================================== *)

Lemma find_snoc {A : Type} (p : A -> bool) (l : list A) (x : A) :
  List.find p (l ++ [x])
  = match List.find p l with
    | Some y => Some y
    | None => if p x then Some x else None
    end.
Proof.
  induction l as [| y l IH]; cbn [app List.find].
  - reflexivity.
  - destruct (p y); [reflexivity | exact IH].
Qed.

(** The index holds, for a match and a kind, the last result listed. *)
Lemma vmap_from (mid : string) (kind : VideoKind.t) (video_results : list VideoLinkResult)
    (vmap : gmap string (gmap VideoKind.t VideoLinkResult)) :
  default ∅ (fold_left vmap_step video_results vmap !! mid) !! kind
  = match Spec.last_result video_results mid kind with
    | Some vr => Some vr
    | None => default ∅ (vmap !! mid) !! kind
    end.
Proof.
  unfold Spec.last_result.
  revert vmap. induction video_results as [| vr rest IH]; intros vmap.
  - reflexivity.
  - cbn [fold_left rev]. rewrite IH, find_snoc.
    destruct (List.find _ (rev rest)) as [found |]; [reflexivity |].
    unfold vmap_step.
    destruct (String.eqb_spec (vr_match_id vr) mid) as [-> | Hne]; cbn [andb].
    + rewrite lookup_insert_eq. cbn [from_option id].
      destruct (decide (vr_kind vr = kind)) as [<- | Hk].
      * rewrite bool_decide_eq_true_2 by reflexivity.
        rewrite lookup_insert_eq. reflexivity.
      * rewrite bool_decide_eq_false_2 by exact Hk.
        rewrite lookup_insert_ne by exact Hk. reflexivity.
    + rewrite lookup_insert_ne by exact Hne. reflexivity.
Qed.

Lemma vmap_last_result (video_results : list VideoLinkResult) (mid : string)
    (kind : VideoKind.t) :
  default ∅ (build_vmap video_results !! mid) !! kind
  = Spec.last_result video_results mid kind.
Proof.
  unfold build_vmap. rewrite vmap_from.
  destruct (Spec.last_result video_results mid kind); [reflexivity |].
  rewrite lookup_empty. reflexivity.
Qed.

Lemma post_fold {R : Type} `{PyFloat R} (video_results : list VideoLinkResult)
    (cfg : UsecaseConfig R) (ranked : list (RankedMatch R))
    (items : list (PostItemPublic R)) (errors : list AppError) :
  fold_left (post_step (build_vmap video_results) cfg) ranked (items, errors)
  = (items ++ map (SpecView.item_of video_results) (SpecView.surviving cfg ranked),
     errors ++ concat (map (SpecView.errors_of video_results)
                           (SpecView.surviving cfg ranked))).
Proof.
  revert items errors.
  induction ranked as [| rm ranked IH]; intros items errors.
  - cbn. rewrite !app_nil_r. reflexivity.
  - cbn [fold_left SpecView.surviving List.filter].
    unfold post_step at 2. fold (score_of rm).
    destruct (f_ltb (score_of rm) (min_interest_score cfg)); cbn [negb].
    + apply IH.
    + rewrite IH. cbn [map concat].
      unfold SpecView.item_of, SpecView.errors_of, SpecView.url_of, score_of.
      rewrite !vmap_last_result, <- !app_assoc. reflexivity.
Qed.

Lemma deref_alloc (h : Heap) (l : list AppError) :
  deref (snd (alloc l h)) (fst (alloc l h)) = l.
Proof.
  unfold alloc, deref. cbn [fst snd].
  rewrite lookup_app_r by reflexivity.
  rewrite Nat.sub_diag. reflexivity.
Qed.

Lemma build_post_public_view {R : Type} `{PyFloat R} (run_date_msk : date)
    (now_utc : datetime) (ranked : list (RankedMatch R))
    (video_results : list VideoLinkResult) (cfg : UsecaseConfig R)
    (extra_errors : list AppError) (h : Heap) :
  let built := build_post_public run_date_msk now_utc ranked video_results cfg
                                 extra_errors h in
  p_items (fst built)
  = map (SpecView.item_of video_results) (SpecView.surviving cfg ranked)
  /\ deref (snd built) (p_errors (fst built))
     = extra_errors
       ++ concat (map (SpecView.errors_of video_results) (SpecView.surviving cfg ranked))
  /\ p_run_date_msk (fst built) = run_date_msk
  /\ p_generated_at_utc (fst built) = as_utc now_utc
  /\ snd built = h ++ [deref (snd built) (p_errors (fst built))]
  /\ p_errors (fst built) = length h.
Proof.
  unfold build_post_public. rewrite post_fold. cbn [app].
  set (errors := extra_errors ++ _).
  pose proof (deref_alloc h errors) as Hderef.
  unfold alloc in *. cbn [fst snd p_items p_errors p_run_date_msk p_generated_at_utc] in *.
  rewrite Hderef. repeat split; reflexivity.
Qed.

Lemma found_url_Some (x : option VideoLinkResult) (u : string) :
  found_url x = Some u
  <-> exists vr, x = Some vr /\ vr_status vr = VideoStatus.FOUND /\ vr_url vr = Some u.
Proof.
  unfold found_url. split.
  - destruct x as [vr |]; [| discriminate].
    destruct (decide (vr_status vr = VideoStatus.FOUND)) as [Hs |]; [| discriminate].
    intros Hu. exists vr. repeat split; assumption.
  - intros (vr & -> & Hs & Hu).
    destruct (decide (vr_status vr = VideoStatus.FOUND)); [exact Hu | contradiction].
Qed.

Lemma video_error_In (x : option VideoLinkResult) (e : AppError) :
  In e (video_error x)
  <-> exists vr, x = Some vr /\ vr_status vr = VideoStatus.ERROR /\ vr_error vr = Some e.
Proof.
  unfold video_error. split.
  - destruct x as [vr |]; [| intros []].
    destruct (decide (vr_status vr = VideoStatus.ERROR)) as [Hs |]; [| intros []].
    destruct (vr_error vr) as [e' |] eqn:He; [| intros []].
    intros [-> | []]. exists vr. repeat split; assumption.
  - intros (vr & -> & Hs & He).
    destruct (decide (vr_status vr = VideoStatus.ERROR)); [| contradiction].
    rewrite He. left. reflexivity.
Qed.

(** The result found for a match and a kind is listed, is for that match
    and kind, and no result for them is listed behind it. *)
Lemma last_result_is_last (video_results : list VideoLinkResult) (mid : string)
    (kind : VideoKind.t) (vr : VideoLinkResult) :
  Spec.last_result video_results mid kind = Some vr ->
  vr_match_id vr = mid /\ vr_kind vr = kind
  /\ exists before after,
       video_results = before ++ vr :: after
       /\ Forall (fun vr' => ~ (vr_match_id vr' = mid /\ vr_kind vr' = kind)) after.
Proof.
  unfold Spec.last_result.
  induction video_results as [| vr0 rest IH] using rev_ind.
  - discriminate.
  - rewrite rev_app_distr. cbn [rev app List.find].
    destruct (String.eqb_spec (vr_match_id vr0) mid) as [Hm | Hm]; cbn [andb].
    + destruct (decide (vr_kind vr0 = kind)) as [Hk | Hk].
      * rewrite bool_decide_eq_true_2 by exact Hk.
        intros [= ->]. repeat split; try assumption.
        exists rest, []. split; [reflexivity | constructor].
      * rewrite bool_decide_eq_false_2 by exact Hk.
        intros Hfind. destruct (IH Hfind) as (H1 & H2 & before & after & -> & Hafter).
        repeat split; try assumption.
        exists before, (after ++ [vr0]). split; [rewrite <- app_assoc; reflexivity |].
        apply Forall_app. split; [exact Hafter |].
        constructor; [| constructor]. intros [_ Hk']. contradiction.
    + intros Hfind. destruct (IH Hfind) as (H1 & H2 & before & after & -> & Hafter).
      repeat split; try assumption.
      exists before, (after ++ [vr0]). split; [rewrite <- app_assoc; reflexivity |].
      apply Forall_app. split; [exact Hafter |].
      constructor; [| constructor]. intros [Hm' _]. contradiction.
Qed.

(** C8: what [build_post_public] does, in every arithmetic.  A ranked
    match yields an item iff its score is not below the threshold (the test
    of the code is [score < threshold]), the others being dropped without
    an error; the items are those of the surviving matches, in rank order,
    one each; the highlights (full) URL of an item is the URL of the last
    video result listed for its match and that kind when that result has
    status "found", and is absent otherwise; the errors of the post are the
    caller's errors followed, match by match in rank order, by the embedded
    error of the last highlights result and then of the last full result
    when these have status "error".  (A result that is followed by another
    one for the same match and kind is not looked at.)  In binary64 a score
    is not below the threshold exactly when it is [>=] the threshold or one
    of the two is a NaN: a match with a NaN score yields an item. *)
Theorem build_post_public_last_results :
  (forall (R : Type) (F : PyFloat R)
          (run_date_msk : date) (now_utc : datetime) (ranked : list (RankedMatch R))
          (video_results : list VideoLinkResult) (cfg : UsecaseConfig R)
          (extra_errors : list AppError) (h : Heap),
      let built := build_post_public run_date_msk now_utc ranked video_results cfg
                                     extra_errors h in
      let kept := SpecView.surviving cfg ranked in
      (forall rm,
          In rm kept
          <-> In rm ranked /\ f_ltb (score_of rm) (min_interest_score cfg) = false)
      /\ sublist kept ranked
      /\ p_items (fst built) = map (SpecView.item_of video_results) kept
      /\ (forall (rm : RankedMatch R) kind u,
            SpecView.url_of video_results rm kind = Some u
            <-> exists vr,
                  Spec.last_result video_results (m_match_id (rm_match rm)) kind = Some vr
                  /\ vr_status vr = VideoStatus.FOUND /\ vr_url vr = Some u)
      /\ deref (snd built) (p_errors (fst built))
         = extra_errors ++ concat (map (SpecView.errors_of video_results) kept)
      /\ (forall (rm : RankedMatch R) e,
            In e (SpecView.errors_of video_results rm)
            <-> exists kind vr,
                  Spec.last_result video_results (m_match_id (rm_match rm)) kind = Some vr
                  /\ vr_status vr = VideoStatus.ERROR /\ vr_error vr = Some e))
  /\ (forall (cfg : UsecaseConfig float) (ranked : list (RankedMatch float))
             (rm : RankedMatch float),
        In rm (@SpecView.surviving float binary64_float cfg ranked)
        <-> In rm ranked
            /\ (f_leb (PyFloat:=binary64_float) (min_interest_score cfg) (score_of rm) = true
                \/ @is_nan float binary64_float (score_of rm) = true
                \/ @is_nan float binary64_float (min_interest_score cfg) = true)).
Proof.
  split.
  - intros R F run_date_msk now_utc ranked video_results cfg extra_errors h built kept.
    destruct (build_post_public_view run_date_msk now_utc ranked video_results cfg
                                     extra_errors h)
      as (Hitems & Herrors & _).
    split; [intros rm; unfold kept, SpecView.surviving;
            rewrite filter_In, negb_true_iff; reflexivity |].
    split; [apply filter_sublist |].
    split; [exact Hitems |].
    split; [intros rm kind u; apply found_url_Some |].
    split; [exact Herrors |].
    intros rm e. unfold SpecView.errors_of. rewrite in_app_iff, !video_error_In.
    split.
    + intros [(vr & Hvr) | (vr & Hvr)]; eauto.
    + intros ([] & vr & Hvr); [left | right]; exists vr; exact Hvr.
  - intros cfg ranked rm. unfold SpecView.surviving.
    rewrite filter_In, negb_true_iff, float_ltb_false_iff. reflexivity.
Qed.

Lemma build_post_public_last_results_witness :
  p_items (fst (build_post_public (ymd2ord 2026 11 3) now_aware [sample_ranked 4 3]
                                  [video_failed; video_found] default_config [] []))
  = [sample_item 1%float]
  /\ deref (snd (build_post_public (ymd2ord 2026 11 3) now_aware [sample_ranked 4 3]
                                   [video_failed; video_found] default_config [] []))
           (p_errors (fst (build_post_public (ymd2ord 2026 11 3) now_aware
                                             [sample_ranked 4 3]
                                             [video_failed; video_found]
                                             default_config [] [])))
     = []
  /\ (In nan_ranked (SpecView.surviving default_config [nan_ranked])
      <-> In nan_ranked [nan_ranked]
          /\ (f_leb (min_interest_score default_config) (score_of nan_ranked) = true
              \/ is_nan (score_of nan_ranked) = true
              \/ is_nan (min_interest_score (R:=float) default_config) = true)).
Proof.
  destruct (proj1 build_post_public_last_results float binary64_float
              (ymd2ord 2026 11 3) now_aware [sample_ranked 4 3]
              [video_failed; video_found] default_config [] [])
    as (_ & _ & Hitems & _ & Herrors & _).
  split; [| split].
  - rewrite Hitems. vm_compute. reflexivity.
  - rewrite Herrors. vm_compute. reflexivity.
  - exact (proj2 build_post_public_last_results default_config [nan_ranked] nan_ranked).
Defined.

(** Counterexample to C8 as it is worded: the failed lookup of the
    highlights of m1 is followed by a found one for the same match and kind,
    m1 survives, and the embedded error of the failed lookup is not among
    the errors of the post. *)
Lemma build_post_public_shadowed_error :
  ~ SpecView.every_error_result_contributes
      [sample_ranked 4 3] [video_failed; video_found] default_config
      (deref (snd (build_post_public (ymd2ord 2026 11 3) now_aware [sample_ranked 4 3]
                                     [video_failed; video_found] default_config [] []))
             (p_errors (fst (build_post_public (ymd2ord 2026 11 3) now_aware
                                               [sample_ranked 4 3]
                                               [video_failed; video_found]
                                               default_config [] [])))).
Proof.
  intros Hclaim.
  change (deref _ _) with (@nil AppError) in Hclaim.
  refine (Hclaim video_failed _ _ eq_refl eq_refl _).
  - left. reflexivity.
  - exists (sample_ranked 4 3). split; [| reflexivity].
    vm_compute. left. reflexivity.
Qed.

(* ===================================================================== *)
(** * Properties of the orchestrator *)
(* ===================================================================== *)

(** *** The list objects *)

Lemma extend_at (h : Heap) (l xs : list AppError) (t : Heap) :
  extend (length h) xs (h ++ l :: t) = h ++ (l ++ xs) :: t.
Proof.
  unfold extend. induction h as [| l0 h IH]; cbn [length app].
  - reflexivity.
  - cbn [alter list_alter]. f_equal. exact IH.
Qed.

Lemma deref_at (h : Heap) (l : list AppError) (t : Heap) :
  deref (h ++ l :: t) (length h) = l.
Proof.
  unfold deref. rewrite lookup_app_r by reflexivity.
  rewrite Nat.sub_diag. reflexivity.
Qed.

(** *** One step of a run *)

Section Steps.
Context {W A B : Type}.
Implicit Types (s : RunState W) (k : A -> M W B).

Lemma bind_on_heap (f : Heap -> A * Heap) k s :
  (on_heap f ≫= k) s
  = k (fst (f (st_heap s)))
      {| st_world := st_world s; st_heap := snd (f (st_heap s));
         st_calls := st_calls s |}.
Proof.
  unfold mbind, M_bind, on_heap. destruct (f (st_heap s)). reflexivity.
Qed.

Lemma bind_try (o : option A) k s :
  (try o ≫= k) s = match o with Some a => k a s | None => None end.
Proof. unfold mbind, M_bind, try. destruct o; reflexivity. Qed.

Lemma bind_port (c : Call) (method : W -> option (A * W)) k s :
  (port c method ≫= k) s
  = match method (st_world s) with
    | Some (a, w') =>
      k a {| st_world := w'; st_heap := st_heap s; st_calls := st_calls s ++ [c] |}
    | None => None
    end.
Proof.
  unfold mbind, M_bind, port. destruct (method (st_world s)) as [[a w'] |]; reflexivity.
Qed.

Lemma bind_with_heap (f : Heap -> A) k s :
  (with_heap f ≫= k) s
  = k (f (st_heap s))
      {| st_world := st_world s; st_heap := st_heap s; st_calls := st_calls s |}.
Proof. reflexivity. Qed.
End Steps.

Lemma bind_list_extend {W B : Type} (a : nat) (xs : list AppError)
    (k : unit -> M W B) (s : RunState W) :
  (list_extend a xs ≫= k) s
  = k tt {| st_world := st_world s; st_heap := extend a xs (st_heap s);
            st_calls := st_calls s |}.
Proof. reflexivity. Qed.

Ltac run_step :=
  first [ rewrite bind_on_heap
        | rewrite bind_try
        | rewrite bind_port
        | rewrite bind_with_heap
        | rewrite bind_list_extend ];
  cbn [alloc fst snd st_world st_heap st_calls];
  rewrite ?extend_at, ?deref_at, <- ?app_assoc;
  cbn [app].

Lemma extend_extend (a : nat) (xs ys : list AppError) (h : Heap) :
  extend a ys (extend a xs h) = extend a (xs ++ ys) h.
Proof.
  unfold extend. revert a. induction h as [| l h IH]; intros [| a]; cbn [alter list_alter].
  - reflexivity.
  - reflexivity.
  - rewrite <- app_assoc. reflexivity.
  - f_equal. apply IH.
Qed.

Lemma published_record_Some (rec : option PublicationRecord) (r : PublicationRecord) :
  published_record rec = Some r <-> rec = Some r /\ rec_published r = true.
Proof.
  unfold published_record. split.
  - destruct rec as [r0 |]; [| discriminate].
    destruct (rec_published r0) eqn:E; [| discriminate].
    intros [= <-]. split; [reflexivity | exact E].
  - intros [-> ->]. reflexivity.
Qed.

Section Run.
Context {R : Type} `{PyFloat R}.
Variable tzdb : string -> option Zone.
Variable W : Type.
Variable now_utc : datetime.
Variable cfg : UsecaseConfig R.
Variable results_loader : ResultsLoader W.
Variable rules_loader : ScoringRulesLoader (R:=R) W.
Variable video_loader : VideoLoader W.
Variable publisher : Publisher W.
Variable registry : PublicationRegistry W.

(** The store after the post has been built and the publisher's and the
    registry's errors have been added to the list [errors]. *)
Lemma digest_heap (key : date) (ranked : list (RankedMatch R))
    (video_res : list VideoLinkResult) (collected xs : list AppError) (h : Heap) :
  let built := build_post_public key now_utc ranked video_res cfg collected
                                 (h ++ [collected]) in
  extend (length h) xs (snd built)
  = h ++ [collected ++ xs; deref (snd built) (p_errors (fst built))].
Proof.
  intros built.
  destruct (build_post_public_view key now_utc ranked video_res cfg collected
                                   (h ++ [collected]))
    as (_ & _ & _ & _ & Hsnd & _).
  fold built in Hsnd. rewrite Hsnd at 1.
  rewrite <- app_assoc. cbn [app]. rewrite extend_at. reflexivity.
Qed.

(** A run that returns ends in one of the three ways. *)
Lemma run_daily_digest_outcome (s : RunState W)
    (result : option (PostPublic R) * nat) (s' : RunState W) :
  run_daily_digest tzdb W now_utc cfg results_loader rules_loader video_loader
                   publisher registry s
  = Some (result, s')
  -> Outcome tzdb W now_utc cfg results_loader rules_loader video_loader
             publisher registry s result s'.
Proof.
  unfold run_daily_digest.
  do 2 run_step.
  destruct (compute_window tzdb now_utc cfg) as [[[key ws] we] |] eqn:Hwin;
    [| discriminate].
  run_step.
  destruct (registry_get registry key (st_world s)) as [[[rec reg_err] w1] |] eqn:Hget;
    [| discriminate].
  run_step.
  destruct (published_record rec) as [r |] eqn:Hpub.
  - (* already published *)
    apply published_record_Some in Hpub as [-> Hpub].
    run_step. intros [= <- <-].
    eapply outcome_already_published; eassumption.
  - run_step.
    destruct (results_load results_loader ws we w1)
      as [[[[matches stats] res_err] w2] |] eqn:Hload; [| discriminate].
    run_step.
    destruct matches as [| m matches].
    + (* no matches *)
      run_step. run_step.
      destruct (publish publisher _ w2) as [[[msg_id pub_err] w3] |] eqn:Hpublish;
        [| discriminate].
      run_step. run_step.
      destruct (set_published registry _ w3) as [[set_err w4] |] eqn:Hset;
        [| discriminate].
      run_step. intros [= <- <-].
      eapply outcome_no_matches; eassumption.
    + (* the digest *)
      run_step.
      destruct (rules_load rules_loader w2) as [[[rules rules_err] w3] |] eqn:Hrules;
        [| discriminate].
      run_step. run_step.
      destruct (score_matches (m :: matches) stats rules) as [ranked |] eqn:Hscore;
        [| discriminate].
      run_step.
      destruct (load_for_matches video_loader _ w3)
        as [[[video_res video_err] w4] |] eqn:Hvideo; [| discriminate].
      run_step. run_step. run_step. run_step.
      destruct (publish publisher _ w4) as [[[msg_id pub_err] w5] |] eqn:Hpublish;
        [| discriminate].
      run_step. run_step.
      destruct (set_published registry _ w5) as [[set_err w6] |] eqn:Hset;
        [| discriminate].
      run_step. intros [= <- <-].
      rewrite extend_extend, digest_heap.
      eapply outcome_digest; try eassumption. discriminate.
Qed.

(** Conversely, each of the three ways is a run. *)
Lemma outcome_run_daily_digest (s : RunState W)
    (result : option (PostPublic R) * nat) (s' : RunState W) :
  Outcome tzdb W now_utc cfg results_loader rules_loader video_loader
          publisher registry s result s'
  -> run_daily_digest tzdb W now_utc cfg results_loader rules_loader video_loader
                      publisher registry s
     = Some (result, s').
Proof.
  intros Hout. unfold run_daily_digest. do 2 run_step.
  destruct Hout as
    [ key ws we rec reg_err w1 Hwin Hget Hpub
    | key ws we rec reg_err w1 stats res_err w2 msg_id pub_err w3 set_err w4
          Hwin Hget Hpub Hload post text Hpublish record Hset
    | key ws we rec reg_err w1 matches stats res_err w2 rules rules_err w3 ranked
          video_res video_err w4 msg_id pub_err w5 set_err w6
          Hwin Hget Hpub Hload Hne Hrules Hscore match_ids Hvideo collected built
          text Hpublish record Hset ];
    rewrite Hwin; run_step; rewrite Hget; run_step.
  - unfold published_record. rewrite Hpub. run_step. reflexivity.
  - rewrite Hpub. run_step. rewrite Hload. run_step. run_step. run_step.
    subst text post. rewrite Hpublish. run_step. run_step.
    subst record. rewrite Hset. run_step. reflexivity.
  - rewrite Hpub. run_step. rewrite Hload. run_step.
    destruct matches as [| m matches]; [contradiction |].
    run_step. rewrite Hrules. run_step. run_step. rewrite Hscore. run_step.
    subst match_ids. rewrite Hvideo. run_step. run_step. run_step. run_step.
    subst text built collected. rewrite Hpublish. run_step. run_step.
    subst record. rewrite Hset. run_step.
    rewrite extend_extend, digest_heap, <- ?app_assoc. reflexivity.
Qed.
End Run.

(** *** Idempotency *)

Lemma publish_count_app (l1 l2 : list Call) :
  publish_count (l1 ++ l2) = (publish_count l1 + publish_count l2)%nat.
Proof.
  unfold publish_count. rewrite List.filter_app, length_app. reflexivity.
Qed.

(** A run that returns, against an in-memory registry that held no
    published record for the run date, has made one [publish] call and has
    left a published record for the run date in the store. *)
Lemma first_run_publishes_once {R : Type} `{PyFloat R}
    (tzdb : string -> option Zone) (W0 : Type) (now_utc : datetime)
    (cfg : UsecaseConfig R) (results_loader : ResultsLoader W0)
    (rules_loader : ScoringRulesLoader (R:=R) W0) (video_loader : VideoLoader W0)
    (publisher : Publisher W0)
    (s s' : RunState (gmap Z PublicationRecord * W0))
    (key : date) (ws we : datetime) (result : option (PostPublic R) * nat) :
  compute_window tzdb now_utc cfg = Some (key, ws, we) ->
  published_record (fst (st_world s) !! key) = None ->
  run_daily_digest tzdb _ now_utc cfg
                   (results_loader_beside results_loader)
                   (rules_loader_beside rules_loader)
                   (video_loader_beside video_loader)
                   (publisher_beside publisher)
                   InMemoryPublicationRegistry s
  = Some (result, s') ->
  publish_count (st_calls s') = S (publish_count (st_calls s))
  /\ exists rec, fst (st_world s') !! key = Some rec /\ rec_published rec = true.
Proof.
  intros Hwin Hfree Hrun. apply run_daily_digest_outcome in Hrun.
  destruct Hrun as
    [ key' ws' we' rec reg_err w1 Hwin' Hget Hpub
    | key' ws' we' rec reg_err w1 stats res_err w2 msg_id pub_err w3 set_err w4
           Hwin' Hget Hpub Hload post text Hpublish record Hset
    | key' ws' we' rec reg_err w1 matches stats res_err w2 rules rules_err w3 ranked
           video_res video_err w4 msg_id pub_err w5 set_err w6
           Hwin' Hget Hpub Hload Hne Hrules Hscore match_ids Hvideo collected built
           text Hpublish record Hset ];
    rewrite Hwin in Hwin'; injection Hwin' as <- <- <-;
    cbn [registry_get InMemoryPublicationRegistry] in Hget.
  - exfalso. injection Hget as Hrec _ _.
    rewrite (proj2 (published_record_Some _ rec)) in Hfree by (split; assumption).
    discriminate.
  - injection Hget as <- <- <-.
    cbn [set_published InMemoryPublicationRegistry] in Hset.
    injection Hset as <- <-.
    cbn [st_calls st_world fst].
    split.
    + rewrite publish_count_app. cbn. lia.
    + exists record. split; [apply lookup_insert_eq | reflexivity].
  - injection Hget as <- <- <-.
    cbn [set_published InMemoryPublicationRegistry] in Hset.
    injection Hset as <- <-.
    cbn [st_calls st_world fst].
    split.
    + rewrite publish_count_app. cbn. lia.
    + exists record. split; [apply lookup_insert_eq | reflexivity].
Qed.

(** C1: when the registry answers the query for the run date with a record
    that is marked published, the run makes no other call (no [publish], no
    [set_published]), returns no post, and the list of errors it returns is
    what the registry returned followed by one warning with the code
    ALREADY_PUBLISHED.  Consequently, of two runs for one run date against an
    in-memory registry that keeps its store, the first of which returns, the
    second returns no post and that warning, and [publish] has been called
    once in all. *)
Theorem run_daily_digest_idempotent :
  (forall (R : Type) (F : PyFloat R) (tzdb : string -> option Zone) (W : Type)
          (now_utc : datetime) (cfg : UsecaseConfig R)
          (results_loader : ResultsLoader W)
          (rules_loader : ScoringRulesLoader (R:=R) W)
          (video_loader : VideoLoader W) (publisher : Publisher W)
          (registry : PublicationRegistry W) (s : RunState W)
          (key : date) (ws we : datetime) (rec : PublicationRecord)
          (reg_err : list AppError) (w1 : W),
      compute_window tzdb now_utc cfg = Some (key, ws, we) ->
      registry_get registry key (st_world s) = Some ((Some rec, reg_err), w1) ->
      rec_published rec = true ->
      exists s',
        run_daily_digest tzdb W now_utc cfg results_loader rules_loader video_loader
                         publisher registry s
        = Some ((None, length (st_heap s)), s')
        /\ st_calls s' = st_calls s ++ [CallRegistryGet key]
        /\ deref (st_heap s') (length (st_heap s))
           = reg_err ++ [already_published key rec]
        /\ e_code (already_published key rec) = "ALREADY_PUBLISHED"
        /\ e_severity (already_published key rec) = Severity.WARNING)
  /\ (forall (R : Type) (F : PyFloat R) (tzdb : string -> option Zone) (W0 : Type)
             (now1 now2 : datetime) (cfg : UsecaseConfig R)
             (results_loader : ResultsLoader W0)
             (rules_loader : ScoringRulesLoader (R:=R) W0)
             (video_loader : VideoLoader W0) (publisher : Publisher W0)
             (s s1 : RunState (gmap Z PublicationRecord * W0))
             (key : date) (ws1 we1 ws2 we2 : datetime)
             (result1 : option (PostPublic R) * nat),
         compute_window tzdb now1 cfg = Some (key, ws1, we1) ->
         compute_window tzdb now2 cfg = Some (key, ws2, we2) ->
         published_record (fst (st_world s) !! key) = None ->
         run_daily_digest tzdb _ now1 cfg
                          (results_loader_beside results_loader)
                          (rules_loader_beside rules_loader)
                          (video_loader_beside video_loader)
                          (publisher_beside publisher)
                          InMemoryPublicationRegistry s
         = Some (result1, s1) ->
         exists rec s2,
           run_daily_digest tzdb _ now2 cfg
                            (results_loader_beside results_loader)
                            (rules_loader_beside rules_loader)
                            (video_loader_beside video_loader)
                            (publisher_beside publisher)
                            InMemoryPublicationRegistry s1
           = Some ((None, length (st_heap s1)), s2)
           /\ deref (st_heap s2) (length (st_heap s1)) = [already_published key rec]
           /\ publish_count (st_calls s2) = S (publish_count (st_calls s))).
Proof.
  split.
  - intros R F tzdb W now_utc cfg results_loader rules_loader video_loader publisher
           registry s key ws we rec reg_err w1 Hwin Hget Hpub.
    eexists. split.
    + apply outcome_run_daily_digest.
      eapply outcome_already_published; eassumption.
    + cbn [st_calls st_heap]. rewrite deref_at. repeat split; reflexivity.
  - intros R F tzdb W0 now1 now2 cfg results_loader rules_loader video_loader publisher
           s s1 key ws1 we1 ws2 we2 result1 Hwin1 Hwin2 Hfree Hrun1.
    destruct (first_run_publishes_once tzdb W0 now1 cfg results_loader rules_loader
                video_loader publisher s s1 key ws1 we1 result1 Hwin1 Hfree Hrun1)
      as (Hcount & rec & Hstored & Hpub).
    exists rec. eexists. split.
    + apply outcome_run_daily_digest.
      eapply outcome_already_published; [exact Hwin2 | | exact Hpub].
      cbn [registry_get InMemoryPublicationRegistry]. rewrite Hstored. reflexivity.
    + cbn [st_calls st_heap]. rewrite deref_at. split; [reflexivity |].
      rewrite publish_count_app, Hcount. cbn. lia.
Qed.

Lemma run_daily_digest_idempotent_witness :
  compute_window sample_tzdb now_aware (default_config (R:=float))
  = Some (ymd2ord 2026 11 3,
          mk_datetime 2026 11 1 5 0 0 (Some tz_utc),
          mk_datetime 2026 11 3 5 0 0 (Some tz_utc))
  /\ compute_window sample_tzdb now_later (default_config (R:=float))
     = Some (ymd2ord 2026 11 3,
             mk_datetime 2026 11 1 5 0 0 (Some tz_utc),
             mk_datetime 2026 11 3 5 0 0 (Some tz_utc))
  /\ published_record (fst (st_world fresh_state) !! ymd2ord 2026 11 3) = None
  /\ exists result1 s1 rec s2,
       mock_run now_aware fresh_state = Some (result1, s1)
       /\ mock_run now_later s1 = Some ((None, length (st_heap s1)), s2)
       /\ deref (st_heap s2) (length (st_heap s1))
          = [already_published (ymd2ord 2026 11 3) rec]
       /\ publish_count (st_calls s2) = 1%nat.
Proof.
  assert (Hwin1 : compute_window sample_tzdb now_aware (default_config (R:=float))
                  = Some (ymd2ord 2026 11 3,
                          mk_datetime 2026 11 1 5 0 0 (Some tz_utc),
                          mk_datetime 2026 11 3 5 0 0 (Some tz_utc)))
    by (vm_compute; reflexivity).
  assert (Hwin2 : compute_window sample_tzdb now_later (default_config (R:=float))
                  = Some (ymd2ord 2026 11 3,
                          mk_datetime 2026 11 1 5 0 0 (Some tz_utc),
                          mk_datetime 2026 11 3 5 0 0 (Some tz_utc)))
    by (vm_compute; reflexivity).
  assert (Hfree : published_record (fst (st_world fresh_state) !! ymd2ord 2026 11 3)
                  = None)
    by (vm_compute; reflexivity).
  split; [exact Hwin1 |]. split; [exact Hwin2 |]. split; [exact Hfree |].
  unfold mock_run.
  destruct (run_daily_digest sample_tzdb _ now_aware default_config
              (results_loader_beside MockResultsLoader)
              (rules_loader_beside MockScoringRulesLoader)
              (video_loader_beside MockVideoLoader)
              (publisher_beside StdoutPublisher)
              InMemoryPublicationRegistry fresh_state)
    as [[result1 s1] |] eqn:Hrun1; [| vm_compute in Hrun1; discriminate].
  destruct (proj2 run_daily_digest_idempotent float binary64_float sample_tzdb (list string)
              now_aware now_later default_config
              MockResultsLoader MockScoringRulesLoader MockVideoLoader StdoutPublisher
              fresh_state s1 (ymd2ord 2026 11 3)
              (mk_datetime 2026 11 1 5 0 0 (Some tz_utc))
              (mk_datetime 2026 11 3 5 0 0 (Some tz_utc))
              (mk_datetime 2026 11 1 5 0 0 (Some tz_utc))
              (mk_datetime 2026 11 3 5 0 0 (Some tz_utc))
              result1 Hwin1 Hwin2 Hfree Hrun1)
    as (rec & s2 & Hrun2 & Herrors & Hcount).
  exists result1, s1, rec, s2.
  split; [reflexivity |]. split; [exact Hrun2 |]. split; [exact Herrors |].
  exact Hcount.
Defined.

(** *** The run without matches *)

(** C4: when the registry holds no published record for the run date and
    the results loader returns no match, the run publishes the text of the
    post without items (the line that says there are no matches, and the
    errors known so far), exactly once, marks the run date published in the
    registry, and returns the post without items; rules and videos are not
    loaded.  The errors of the returned post are, at the return, those of
    all four calls. *)
Theorem run_daily_digest_no_matches :
  forall (R : Type) (F : PyFloat R) (tzdb : string -> option Zone) (W : Type)
         (now_utc : datetime) (cfg : UsecaseConfig R)
         (results_loader : ResultsLoader W)
         (rules_loader : ScoringRulesLoader (R:=R) W)
         (video_loader : VideoLoader W) (publisher : Publisher W)
         (registry : PublicationRegistry W) (s : RunState W)
         (key : date) (ws we : datetime) (rec : option PublicationRecord)
         (reg_err : list AppError) (w1 : W)
         (stats : list PlayerGameStats) (res_err : list AppError) (w2 : W)
         (msg_id : option string) (pub_err : list AppError) (w3 : W)
         (set_err : list AppError) (w4 : W),
    let post := {| p_run_date_msk := key; p_generated_at_utc := now_utc;
                   p_items := []; p_errors := length (st_heap s) |} in
    let text := strip (join newline
                            (no_matches_line :: error_lines (reg_err ++ res_err))) in
    let record := {| rec_run_date_msk := key; rec_published := true;
                     rec_tg_message_id := msg_id; rec_published_at_utc := None |} in
    compute_window tzdb now_utc cfg = Some (key, ws, we) ->
    registry_get registry key (st_world s) = Some ((rec, reg_err), w1) ->
    published_record rec = None ->
    results_load results_loader ws we w1 = Some (([], stats, res_err), w2) ->
    publish publisher text w2 = Some ((msg_id, pub_err), w3) ->
    set_published registry record w3 = Some (set_err, w4) ->
    exists s',
      run_daily_digest tzdb W now_utc cfg results_loader rules_loader video_loader
                       publisher registry s
      = Some ((Some post, length (st_heap s)), s')
      /\ p_items post = []
      /\ st_calls s' = st_calls s ++ [CallRegistryGet key; CallResultsLoad ws we;
                                     CallPublish text; CallSetPublished record]
      /\ publish_count (st_calls s') = S (publish_count (st_calls s))
      /\ rec_run_date_msk record = key
      /\ rec_published record = true
      /\ st_world s' = w4
      /\ deref (st_heap s') (p_errors post) = reg_err ++ res_err ++ pub_err ++ set_err.
Proof.
  intros R F tzdb W now_utc cfg results_loader rules_loader video_loader publisher
         registry s key ws we rec reg_err w1 stats res_err w2 msg_id pub_err w3
         set_err w4 post text record Hwin Hget Hpub Hload Hpublish Hset.
  assert (Htext : render_post (st_heap s ++ [reg_err ++ res_err]) post = text).
  { unfold render_post, render_lines. cbn [p_items p_errors post item_lines app].
    rewrite deref_at. reflexivity. }
  eexists. split.
  - apply outcome_run_daily_digest.
    eapply outcome_no_matches; try eassumption.
    fold post. rewrite Htext. exact Hpublish.
  - cbn [st_calls st_heap st_world p_items p_errors post].
    fold post. rewrite Htext, deref_at, publish_count_app.
    repeat split; try reflexivity.
    cbn. lia.
Qed.

Lemma run_daily_digest_no_matches_witness :
  exists post text record s',
    empty_run now_aware fresh_state = Some ((Some post, 0%nat), s')
    /\ p_items post = []
    /\ st_calls s'
       = [CallRegistryGet (ymd2ord 2026 11 3);
          CallResultsLoad (mk_datetime 2026 11 1 5 0 0 (Some tz_utc))
                          (mk_datetime 2026 11 3 5 0 0 (Some tz_utc));
          CallPublish text; CallSetPublished record]
    /\ text = no_matches_line +:+ newline +:+ problems_header +:+ newline
              +:+ "- [nhl] NHL_TIMEOUT: no answer"
    /\ rec_run_date_msk record = ymd2ord 2026 11 3
    /\ rec_published record = true
    /\ fst (st_world s') !! ymd2ord 2026 11 3 = Some record.
Proof.
  destruct (run_daily_digest_no_matches
              float binary64_float sample_tzdb (gmap Z PublicationRecord * list string)
              now_aware default_config
              (results_loader_beside EmptyResultsLoader)
              (rules_loader_beside MockScoringRulesLoader)
              (video_loader_beside MockVideoLoader)
              (publisher_beside StdoutPublisher)
              InMemoryPublicationRegistry fresh_state
              (ymd2ord 2026 11 3)
              (mk_datetime 2026 11 1 5 0 0 (Some tz_utc))
              (mk_datetime 2026 11 3 5 0 0 (Some tz_utc))
              None [] (∅, [])
              []
              [ {| e_code := "NHL_TIMEOUT"; e_source := SourceSystem.NHL;
                   e_severity := Severity.ERROR; e_message := "no answer";
                   e_details := None |} ]
              (∅, [])
              (Some "mock_message_id") []
              (∅, ["----- PUBLISH -----";
                   no_matches_line +:+ newline +:+ problems_header +:+ newline
                   +:+ "- [nhl] NHL_TIMEOUT: no answer";
                   "-------------------"])
              []
              (<[ymd2ord 2026 11 3 :=
                   {| rec_run_date_msk := ymd2ord 2026 11 3; rec_published := true;
                      rec_tg_message_id := Some "mock_message_id";
                      rec_published_at_utc := None |}]> ∅,
               ["----- PUBLISH -----";
                no_matches_line +:+ newline +:+ problems_header +:+ newline
                +:+ "- [nhl] NHL_TIMEOUT: no answer";
                "-------------------"])
              ltac:(vm_compute; reflexivity)
              ltac:(vm_compute; reflexivity)
              ltac:(vm_compute; reflexivity)
              ltac:(vm_compute; reflexivity)
              ltac:(vm_compute; reflexivity)
              ltac:(vm_compute; reflexivity))
    as (s' & Hrun & Hitems & Hcalls & _ & Hkey & Hflag & Hworld & _).
  eexists _, _, _, s'.
  split; [exact Hrun |]. split; [exact Hitems |]. split; [exact Hcalls |].
  split; [vm_compute; reflexivity |]. split; [exact Hkey |]. split; [exact Hflag |].
  rewrite Hworld. vm_compute. reflexivity.
Defined.

(** *** The errors of the returned post *)

(** C2: the errors of the returned post are not all the errors of the run.
    With the matches and rules of the smoke test and a video loader whose
    result for the highlights of m1 has status "error" and carries an error,
    m1 is in the post, the text that is published shows that error, but the
    list of errors of the returned post (which is also the list the run
    returns) is empty: the error was appended to the copy that
    [build_post_public] made, and the post is returned with the list
    [errors] of the orchestrator in its place. *)
Theorem run_daily_digest_drops_video_errors :
  exists (post : PostPublic float) s' e,
    failing_video_run now_aware fresh_state = Some ((Some post, 0%nat), s')
    /\ vr_status video_failed = VideoStatus.ERROR
    /\ vr_error video_failed = Some e
    /\ In (vr_match_id video_failed) (map it_match_id (p_items post))
    /\ In (CallPublish
             (join newline
                   ["BOS — NYR"; "  highlights: ссылка не найдена";
                    "  full: ссылка не найдена"; "";
                    "TOR — MTL"; "  highlights: ссылка не найдена";
                    "  full: ссылка не найдена"; "";
                    problems_header; error_line e]))
          (st_calls s')
    /\ deref (st_heap s') (p_errors post) = []
    /\ ~ In e (deref (st_heap s') (p_errors post)).
Proof.
  destruct (failing_video_run now_aware fresh_state) as [[[post errors] s'] |] eqn:Hrun;
    [| vm_compute in Hrun; discriminate].
  vm_compute in Hrun.
  injection Hrun as <- <- <-.
  eexists _, _, _.
  split; [reflexivity |].
  split; [reflexivity |].
  split; [reflexivity |].
  split; [left; reflexivity |].
  split; [vm_compute; do 4 right; left; reflexivity |].
  split; [reflexivity |].
  intros [].
Qed.

(* ===================================================================== *)
(** * Further properties of the time window *)
(* ===================================================================== *)

(** A window is only returned for a publish hour of the clock. *)
Lemma compute_window_hour {R : Type} (tzdb : string -> option Zone)
    (now_utc : datetime) (cfg : UsecaseConfig R) (w : date * datetime * datetime) :
  compute_window tzdb now_utc cfg = Some w -> 0 <= publish_hour_msk cfg <= 23.
Proof.
  unfold compute_window.
  destruct (ZoneInfo tzdb (tz_msk cfg)) as [tz |]; [| discriminate].
  cbn [mbind option_bind].
  destruct (astimezone _ tz) as [now_msk |]; [| discriminate].
  cbn [mbind option_bind]. unfold replace_time.
  destruct (between 0 (publish_hour_msk cfg) 23) eqn:Hh; [| discriminate].
  intros _. unfold between in Hh. lia.
Qed.

(** X1: the run date is the calendar date, in the publish zone, of the
    latest publish hour that is not after the reference instant: the date
    the zone's clock shows at the reference instant, or the day before it
    when that clock has not reached the publish hour yet. *)
Theorem compute_window_run_date :
  forall (R : Type) (tzdb : string -> option Zone) (now_utc : datetime)
         (cfg : UsecaseConfig R) (key : date) (ws we : datetime),
    compute_window tzdb now_utc cfg = Some (key, ws, we) ->
    exists z now_msk,
      tzdb (tz_msk cfg) = Some z
      /\ astimezone (as_utc now_utc) (tz_zone (tz_msk cfg) z) = Some now_msk
      /\ key = (if dt_us now_msk mod US_PER_DAY <? publish_hour_msk cfg * US_PER_HOUR
                then dt_date now_msk - 1 else dt_date now_msk).
Proof.
  intros R tzdb now_utc cfg key ws we Hwin.
  pose proof (compute_window_hour tzdb now_utc cfg _ Hwin) as Hh.
  destruct (compute_window_anatomy tzdb now_utc cfg key ws we Hwin)
    as (z & now_msk & anchor & fold & Hz & Hconv & Hanchor & Hkey & _).
  exists z, now_msk. split; [exact Hz |]. split; [exact Hconv |].
  subst key anchor. unfold dt_date. cbv zeta.
  generalize (dt_us now_msk). intros us.
  unfold_units.
  destruct (us <? _) eqn:Hlt1; destruct (us mod _ <? _) eqn:Hlt2;
    try apply Z.ltb_lt in Hlt1; try apply Z.ltb_ge in Hlt1;
    try apply Z.ltb_lt in Hlt2; try apply Z.ltb_ge in Hlt2;
    Z.div_mod_to_equations; nia.
Qed.

Lemma compute_window_run_date_witness :
  compute_window sample_tzdb now_aware (default_config (R:=float))
  = Some (ymd2ord 2026 11 3,
          mk_datetime 2026 11 1 5 0 0 (Some tz_utc),
          mk_datetime 2026 11 3 5 0 0 (Some tz_utc))
  /\ exists z now_msk,
       sample_tzdb (tz_msk (default_config (R:=float))) = Some z
       /\ astimezone (as_utc now_aware) (tz_zone (tz_msk (default_config (R:=float))) z)
          = Some now_msk
       /\ ymd2ord 2026 11 3
          = (if dt_us now_msk mod US_PER_DAY
                <? publish_hour_msk (default_config (R:=float)) * US_PER_HOUR
             then dt_date now_msk - 1 else dt_date now_msk).
Proof.
  split; [vm_compute; reflexivity |].
  apply (compute_window_run_date float sample_tzdb now_aware default_config
           (ymd2ord 2026 11 3)
           (mk_datetime 2026 11 1 5 0 0 (Some tz_utc))
           (mk_datetime 2026 11 3 5 0 0 (Some tz_utc))).
  vm_compute. reflexivity.
Defined.

(** The reading of an instant in a zone whose offset never changes is the
    instant moved by that offset. *)
Lemma astimezone_constant_zone (d d' : datetime) (key : string) (z : Zone) :
  zone_transitions z = [] ->
  astimezone d (tz_zone key z) = Some d' ->
  dt_us d' - zone_initial z = instant d.
Proof.
  intros Hconst. unfold astimezone, instant.
  destruct (dt_tzinfo d) as [mytz |] eqn:Hmy; [| discriminate].
  destruct (decide (tz_zone key z = mytz)) as [<- | _].
  - intros [= <-]. cbn [utcoffset]. unfold zone_utcoffset. rewrite Hconst.
    reflexivity.
  - unfold dt_sub.
    destruct (dt_add d _) as [utc |] eqn:Hutc; [| discriminate].
    cbn [mbind option_bind fromutc]. unfold zone_at_utc. rewrite Hconst.
    cbn [fold_left snd].
    apply dt_add_inv in Hutc as (Hus & _ & _).
    destruct (dt_add _ (zone_initial z)) as [d'' |] eqn:Hadd; [| discriminate].
    apply dt_add_inv in Hadd as (Hus' & _ & _).
    cbn [mbind option_bind]. intros [= <-].
    cbn [replace_tzinfo dt_us] in Hus'. lia.
Qed.

(** X2: in a zone whose offset never changes, the window ends at the latest
    publish hour that is not after the reference instant (so the reference
    instant lies in the day that follows the end of the window), and the
    window is exactly [lookback_hours] long. *)
Theorem compute_window_fixed_offset_zone :
  forall (R : Type) (tzdb : string -> option Zone) (now_utc : datetime)
         (cfg : UsecaseConfig R) (z : Zone) (key : date) (ws we : datetime),
    tzdb (tz_msk cfg) = Some z ->
    zone_transitions z = [] ->
    compute_window tzdb now_utc cfg = Some (key, ws, we) ->
    instant we <= instant now_utc < instant we + US_PER_DAY
    /\ (instant we + zone_initial z) mod US_PER_DAY = publish_hour_msk cfg * US_PER_HOUR
    /\ instant we - instant ws = lookback_hours cfg * US_PER_HOUR.
Proof.
  intros R tzdb now_utc cfg z key ws we Hz Hconst Hwin.
  pose proof (compute_window_hour tzdb now_utc cfg _ Hwin) as Hh.
  destruct (compute_window_anatomy tzdb now_utc cfg key ws we Hwin)
    as (z' & now_msk & anchor & fold & Hz' & Hconv & Hanchor & _
        & Hwetz & Hwstz & Hwe & Hws).
  rewrite Hz in Hz'. injection Hz' as <-.
  apply (astimezone_constant_zone _ _ _ _ Hconst) in Hconv.
  assert (Hnow : instant (as_utc now_utc) = instant now_utc).
  { unfold as_utc, instant. destruct (dt_tzinfo now_utc) eqn:Htz.
    - rewrite Htz. reflexivity.
    - cbn [replace_tzinfo dt_tzinfo dt_us utcoffset]. lia. }
  rewrite Hnow in Hconv.
  assert (Hinst : instant we = anchor - zone_initial z
                  /\ instant ws = anchor - lookback_hours cfg * US_PER_HOUR
                                  - zone_initial z).
  { unfold instant. rewrite Hwetz, Hwstz. cbn [utcoffset]. rewrite Hwe, Hws.
    unfold zone_utcoffset. rewrite Hconst. cbn [fold_left snd]. lia. }
  destruct Hinst as [-> ->].
  cbv zeta in Hanchor.
  revert Hanchor Hconv. generalize (dt_us now_msk) (instant now_utc) (zone_initial z).
  intros us i o Hanchor Hconv.
  replace (anchor - o + o) with anchor by lia.
  unfold_units.
  destruct (us <? _) eqn:Hlt;
    [apply Z.ltb_lt in Hlt | apply Z.ltb_ge in Hlt];
    subst anchor; repeat split; try lia;
    Z.div_mod_to_equations; nia.
Qed.

Lemma compute_window_fixed_offset_zone_witness :
  fixed_tzdb (tz_msk (fixed_config (R:=float))) = Some etc_gmt_minus_3
  /\ zone_transitions etc_gmt_minus_3 = []
  /\ compute_window fixed_tzdb now_aware (fixed_config (R:=float))
     = Some (ymd2ord 2026 11 3,
             mk_datetime 2026 11 1 5 0 0 (Some tz_utc),
             mk_datetime 2026 11 3 5 0 0 (Some tz_utc))
  /\ instant (mk_datetime 2026 11 3 5 0 0 (Some tz_utc)) <= instant now_aware
     < instant (mk_datetime 2026 11 3 5 0 0 (Some tz_utc)) + US_PER_DAY
  /\ (instant (mk_datetime 2026 11 3 5 0 0 (Some tz_utc))
      + zone_initial etc_gmt_minus_3) mod US_PER_DAY
     = publish_hour_msk (fixed_config (R:=float)) * US_PER_HOUR
  /\ instant (mk_datetime 2026 11 3 5 0 0 (Some tz_utc))
     - instant (mk_datetime 2026 11 1 5 0 0 (Some tz_utc))
     = lookback_hours (fixed_config (R:=float)) * US_PER_HOUR.
Proof.
  split; [reflexivity |]. split; [reflexivity |].
  split; [vm_compute; reflexivity |].
  apply (compute_window_fixed_offset_zone float fixed_tzdb now_aware fixed_config
           etc_gmt_minus_3 (ymd2ord 2026 11 3)
           (mk_datetime 2026 11 1 5 0 0 (Some tz_utc))
           (mk_datetime 2026 11 3 5 0 0 (Some tz_utc)));
    [reflexivity | reflexivity | vm_compute; reflexivity].
Defined.

(** X3: apart from datetimes at the ends of the calendar, [compute_window]
    raises in exactly two cases: the zone is not in the time-zone database,
    or the publish hour is not an hour of the clock (0..23). *)
Theorem compute_window_raises_iff :
  forall (R : Type) (tzdb : string -> option Zone) (now_utc : datetime)
         (cfg : UsecaseConfig R),
    (forall z, tzdb (tz_msk cfg) = Some z -> zone_ok z) ->
    tz_ok (dt_tzinfo now_utc) ->
    7 * US_PER_DAY + Z.abs (lookback_hours cfg) * US_PER_HOUR <= dt_us now_utc ->
    dt_us now_utc + 7 * US_PER_DAY + Z.abs (lookback_hours cfg) * US_PER_HOUR
    < MAXORDINAL * US_PER_DAY ->
    compute_window tzdb now_utc cfg = None
    <-> tzdb (tz_msk cfg) = None \/ ~ 0 <= publish_hour_msk cfg <= 23.
Proof.
  intros R tzdb now_utc cfg Hzone Htz Hlo Hhi. split.
  - intros Hnone.
    destruct (tzdb (tz_msk cfg)) as [z |] eqn:Hz; [| left; reflexivity].
    right. intros Hh.
    destruct (compute_window_returns tzdb now_utc cfg) as (key & ws & we & Hwin & _).
    { split; [exists z; split; [exact Hz | apply Hzone; reflexivity] |].
      repeat split; try assumption; lia. }
    congruence.
  - intros Hbad.
    destruct (compute_window tzdb now_utc cfg) as [w |] eqn:Hwin; [| reflexivity].
    exfalso. destruct Hbad as [Hz | Hh].
    + revert Hwin. unfold compute_window, ZoneInfo. rewrite Hz. discriminate.
    + apply Hh. exact (compute_window_hour tzdb now_utc cfg w Hwin).
Qed.

Lemma compute_window_raises_iff_witness :
  compute_window sample_tzdb now_aware (late_config (R:=float)) = None
  <-> sample_tzdb (tz_msk (late_config (R:=float))) = None
      \/ ~ 0 <= publish_hour_msk (late_config (R:=float)) <= 23.
Proof.
  apply (compute_window_raises_iff float sample_tzdb now_aware late_config).
  - intros z Hz. vm_compute in Hz. injection Hz as <-.
    split; [unfold_units; cbn; lia |].
    repeat constructor; unfold_units; cbn; lia.
  - exact I.
  - vm_compute. discriminate.
  - vm_compute. reflexivity.
Defined.

(** X4: the window depends on the reference instant, not on the clock it
    is read on: two aware reference datetimes that denote the same instant
    get the same window (and raise together), unless one of them is read in
    the publish zone itself. *)
Theorem compute_window_same_instant :
  forall (R : Type) (tzdb : string -> option Zone) (d1 d2 : datetime)
         (tz1 tz2 : tzinfo) (cfg : UsecaseConfig R),
    dt_tzinfo d1 = Some tz1 ->
    dt_tzinfo d2 = Some tz2 ->
    ZoneInfo tzdb (tz_msk cfg) <> Some tz1 ->
    ZoneInfo tzdb (tz_msk cfg) <> Some tz2 ->
    instant d1 = instant d2 ->
    compute_window tzdb d1 cfg = compute_window tzdb d2 cfg.
Proof.
  intros R tzdb d1 d2 tz1 tz2 cfg Htz1 Htz2 Hne1 Hne2 Hinst.
  unfold compute_window. rewrite Htz1, Htz2.
  destruct (ZoneInfo tzdb (tz_msk cfg)) as [tz |]; [| reflexivity].
  cbn [mbind option_bind].
  assert (Hconv : astimezone d1 tz = astimezone d2 tz).
  { unfold astimezone. rewrite Htz1, Htz2.
    rewrite !decide_False by congruence.
    unfold instant in Hinst. rewrite Htz1, Htz2 in Hinst.
    unfold dt_sub, dt_add.
    replace (dt_us d2 + - utcoffset tz2 (dt_us d2) (dt_fold d2))
      with (dt_us d1 + - utcoffset tz1 (dt_us d1) (dt_fold d1)) by lia.
    destruct (in_range _); reflexivity. }
  rewrite Hconv. reflexivity.
Qed.

Lemma compute_window_same_instant_witness :
  dt_tzinfo now_aware = Some tz_utc
  /\ dt_tzinfo now_new_york = Some (tz_fixed (- 5 * US_PER_HOUR))
  /\ instant now_aware = instant now_new_york
  /\ compute_window sample_tzdb now_aware (default_config (R:=float))
     = compute_window sample_tzdb now_new_york default_config.
Proof.
  split; [reflexivity |]. split; [reflexivity |]. split; [reflexivity |].
  apply (compute_window_same_instant float sample_tzdb now_aware now_new_york
           tz_utc (tz_fixed (- 5 * US_PER_HOUR)) default_config);
    [reflexivity | reflexivity | vm_compute; discriminate | vm_compute; discriminate
    | reflexivity].
Defined.

(* ===================================================================== *)
(** * Further properties of the scorer *)
(* ===================================================================== *)

(** X5: the score of every ranked match is the sum of the weights of the
    contributions recorded for it, added one after the other to 0.0 in the
    order in which they are recorded: nothing enters the score without a
    contribution that explains it, and nothing is recorded that is not in
    the score.  This holds in every arithmetic, binary64 included. *)
Theorem score_is_sum_of_contributions :
  forall (R : Type) (F : PyFloat R) (matches : list MatchForScoring)
         (stats : list PlayerGameStats) (rules : list (ScoringRule R))
         (ranked : list (RankedMatch R)),
    score_matches matches stats rules = Some ranked ->
    Forall (fun rm =>
              score_of rm
              = fold_left f_add (map sc_weight (contributions rm)) f_zero)
           ranked.
Proof.
  intros R F matches stats rules ranked Hranked.
  apply (score_matches_Forall _ matches stats rules ranked); [| exact Hranked].
  intros m rm _ Hrm.
  pose proof (score_match_terms rules stats m) as Hterms. rewrite Hrm in Hterms.
  destruct (Spec.match_terms rules stats m) as [ws |]; [| contradiction].
  destruct Hterms as (_ & _ & Hweights & Hscore).
  rewrite Hscore, Hweights. reflexivity.
Qed.

Lemma score_is_sum_of_contributions_witness :
  exists ranked,
    @score_matches float binary64_float example_matches mock_stats mock_rules
    = Some ranked
    /\ Forall (fun rm =>
                 score_of rm
                 = fold_left f_add (map sc_weight (contributions rm)) f_zero)
              ranked.
Proof.
  destruct (@score_matches float binary64_float example_matches mock_stats mock_rules)
    as [ranked |] eqn:Hranked; [| vm_compute in Hranked; discriminate].
  exists ranked. split; [reflexivity |].
  exact (score_is_sum_of_contributions float binary64_float example_matches
           mock_stats mock_rules ranked Hranked).
Defined.

Lemma team_fold_reasons {R : Type} `{PyFloat R} (team_w : gmap string R)
    (ts : list Team) (st : Tally) :
  exists a, (a <= length ts)%nat
    /\ map sc_reason (snd (fold_left (team_step team_w) ts st))
       = map sc_reason (snd st) ++ repeat "team_weight" a.
Proof.
  revert st. induction ts as [| t ts IH]; intros st; cbn [fold_left].
  - exists 0%nat. split; [lia |]. cbn [repeat]. rewrite app_nil_r. reflexivity.
  - destruct (IH (team_step team_w st t)) as (a & Ha & ->).
    unfold team_step.
    destruct (team_w !! t_team_id t) as [w |];
      [destruct (truthy w) |].
    + exists (S a). split; [cbn [length]; lia |].
      unfold tally. cbn [snd]. rewrite map_app, <- app_assoc. reflexivity.
    + exists a. split; [cbn [length]; lia | reflexivity].
    + exists a. split; [cbn [length]; lia | reflexivity].
Qed.

Lemma player_fold_reasons {R : Type} `{PyFloat R} (player_w : gmap string R)
    (rows : list PlayerGameStats) (st st' : Tally) :
  fold_left_try (player_step player_w) rows st = Some st' ->
  exists b, (b <= length rows)%nat
    /\ map sc_reason (snd st') = map sc_reason (snd st) ++ repeat "player_weight" b.
Proof.
  revert st. induction rows as [| ps rows IH]; intros st; cbn [fold_left_try].
  - intros [= <-]. exists 0%nat. split; [lia |]. cbn [repeat].
    rewrite app_nil_r. reflexivity.
  - destruct (player_step player_w st ps) as [st1 |] eqn:Hstep; [| discriminate].
    cbn [mbind option_bind]. intros Hrest.
    destruct (IH st1 Hrest) as (b & Hb & ->).
    unfold player_step in Hstep.
    destruct (player_w !! ps_player_id ps) as [w |];
      [destruct (truthy w) |].
    + destruct (f_of_int (ps_goals ps)) as [goals |]; [| discriminate].
      destruct (f_of_int (ps_assists ps)) as [assists |]; [| discriminate].
      cbn [mbind option_bind] in Hstep.
      destruct (negb _); injection Hstep as <-.
      * exists (S b). split; [cbn [length]; lia |].
        unfold tally. cbn [snd]. rewrite map_app, <- app_assoc. reflexivity.
      * exists b. split; [cbn [length]; lia | reflexivity].
    + injection Hstep as <-. exists b. split; [cbn [length]; lia | reflexivity].
    + injection Hstep as <-. exists b. split; [cbn [length]; lia | reflexivity].
Qed.

Lemma bonus_step_reasons {R : Type} `{PyFloat R} (reason : string) (on : bool) (amount : R)
    (st : Tally) :
  map sc_reason (snd (bonus_step reason on amount st))
  = map sc_reason (snd st) ++ (if on then [reason] else []).
Proof.
  unfold bonus_step, tally. destruct on; cbn [snd].
  - rewrite map_app. reflexivity.
  - rewrite app_nil_r. reflexivity.
Qed.

(** X6: the contributions of a ranked match come in a fixed order: those of
    the two teams (at most two), then those of the players (at most one per
    statistics row of the match), then the overtime bonus exactly when the
    match went to overtime, the shootout bonus exactly when it went to a
    shootout, and the total-goals bonus exactly when it is not zero. *)
Theorem contributions_in_order :
  forall (R : Type) (F : PyFloat R) (matches : list MatchForScoring)
         (stats : list PlayerGameStats) (rules : list (ScoringRule R))
         (ranked : list (RankedMatch R)),
    score_matches matches stats rules = Some ranked ->
    Forall (fun rm =>
              let m := rm_match rm in
              exists a b bonus,
                (a <= 2)%nat /\ (b <= length (Spec.stat_rows stats m))%nat
                /\ tg_bonus m = Some bonus
                /\ map sc_reason (contributions rm)
                   = repeat "team_weight" a ++ repeat "player_weight" b
                     ++ (if flag (m_went_overtime m) then ["overtime_bonus"] else [])
                     ++ (if flag (m_went_shootout m) then ["shootout_bonus"] else [])
                     ++ (if truthy bonus then ["total_goals_bonus"] else []))
           ranked.
Proof.
  intros R F matches stats rules ranked Hranked.
  apply (score_matches_Forall _ matches stats rules ranked); [| exact Hranked].
  intros m rm _ Hrm. unfold score_match in Hrm.
  rewrite group_stats_rows in Hrm.
  destruct (fold_left_try _ (Spec.stat_rows stats m) _) as [st2 |] eqn:Hplayers;
    [| discriminate].
  cbn [mbind option_bind] in Hrm.
  destruct (tg_bonus m) as [bonus |] eqn:Hbonus; [| discriminate].
  cbn [mbind option_bind] in Hrm. injection Hrm as <-.
  cbn [rm_match]. unfold contributions. cbn [rm_rank ms_contributions].
  rewrite !bonus_step_reasons.
  destruct (player_fold_reasons _ _ _ _ Hplayers) as (b & Hb & ->).
  destruct (team_fold_reasons (snd (_index_rules rules)) [m_home m; m_away m]
              (f_zero, [])) as (a & Ha & ->).
  exists a, b, bonus. split; [exact Ha |]. split; [exact Hb |].
  split; [exact Hbonus |].
  cbn [snd map app]. rewrite <- !app_assoc. reflexivity.
Qed.

Lemma contributions_in_order_witness :
  exists ranked,
    @score_matches float binary64_float example_matches mock_stats mock_rules
    = Some ranked
    /\ map (fun rm => map sc_reason (contributions rm)) ranked
       = [["team_weight"; "player_weight"; "overtime_bonus"; "total_goals_bonus"];
          ["total_goals_bonus"]]
    /\ Forall (fun rm =>
                 exists a b bonus,
                   (a <= 2)%nat
                   /\ (b <= length (Spec.stat_rows mock_stats (rm_match rm)))%nat
                   /\ tg_bonus (rm_match rm) = Some bonus
                   /\ map sc_reason (contributions rm)
                      = repeat "team_weight" a ++ repeat "player_weight" b
                        ++ (if flag (m_went_overtime (rm_match rm))
                            then ["overtime_bonus"] else [])
                        ++ (if flag (m_went_shootout (rm_match rm))
                            then ["shootout_bonus"] else [])
                        ++ (if truthy bonus then ["total_goals_bonus"] else []))
              ranked.
Proof.
  destruct (@score_matches float binary64_float example_matches mock_stats mock_rules)
    as [ranked |] eqn:Hranked; [| vm_compute in Hranked; discriminate].
  exists ranked. split; [reflexivity |].
  split; [vm_compute in Hranked; injection Hranked as <-; reflexivity |].
  exact (contributions_in_order float binary64_float example_matches mock_stats
           mock_rules ranked Hranked).
Defined.

(** X7: in binary64 no contribution with a zero weight is recorded: the
    weight of every contribution of every ranked match is [!= 0.0].  (A
    weight that is a NaN is not zero.) *)
Theorem contributions_nonzero :
  forall (matches : list MatchForScoring) (stats : list PlayerGameStats)
         (rules : list (ScoringRule float)) (ranked : list (RankedMatch float)),
    @score_matches float binary64_float matches stats rules = Some ranked ->
    Forall (fun rm =>
              Forall (fun c => f_eqb (PyFloat:=binary64_float) (sc_weight c) f_zero
                               = false)
                     (contributions rm))
           ranked.
Proof.
  intros matches stats rules ranked Hranked.
  apply (score_matches_Forall (H:=binary64_float) _ matches stats rules ranked);
    [| exact Hranked].
  intros m rm _ Hrm. unfold score_match in Hrm.
  set (nonzero := fun st : @Tally float =>
         Forall (fun c => f_eqb (PyFloat:=binary64_float) (sc_weight c) f_zero = false)
                (snd st)).
  assert (Htally : forall st delta c,
             nonzero st -> sc_weight c = delta ->
             f_eqb (PyFloat:=binary64_float) delta f_zero = false ->
             nonzero (tally st delta c)).
  { intros st delta c Hst <- Hdelta. unfold nonzero, tally. cbn [snd].
    apply Forall_app. split; [exact Hst |]. constructor; [exact Hdelta | constructor]. }
  assert (Hbonus : forall reason on amount st,
             (on = true -> f_eqb (PyFloat:=binary64_float) amount f_zero = false) ->
             nonzero st -> nonzero (bonus_step reason on amount st)).
  { intros reason on amount st Hon Hst. unfold bonus_step.
    destruct on; [| exact Hst]. apply Htally; [exact Hst | reflexivity | auto]. }
  assert (Hteams : nonzero (fold_left (team_step (snd (_index_rules rules)))
                                      [m_home m; m_away m] (f_zero, []))).
  { apply (fold_left_invariant nonzero); [| constructor].
    intros st t Hst. unfold team_step.
    destruct (_ !! t_team_id t) as [w |]; [| exact Hst].
    destruct (truthy w) eqn:Hw; [| exact Hst].
    apply Htally; [exact Hst | reflexivity |].
    apply negb_true_iff. exact Hw. }
  destruct (fold_left_try _ _ _) as [st2 |] eqn:Hplayers; [| discriminate].
  assert (Hst2 : nonzero st2).
  { refine (fold_left_try_invariant nonzero _ _ _ _ _ Hteams Hplayers).
    intros st ps st' Hst Hstep. unfold player_step in Hstep.
    destruct (_ !! ps_player_id ps) as [w |]; [| injection Hstep as <-; exact Hst].
    destruct (truthy w); [| injection Hstep as <-; exact Hst].
    destruct (f_of_int (ps_goals ps)) as [goals |]; [| discriminate].
    destruct (f_of_int (ps_assists ps)) as [assists |]; [| discriminate].
    cbn [mbind option_bind] in Hstep.
    destruct (negb _) eqn:Hdelta; injection Hstep as <-; [| exact Hst].
    apply Htally; [exact Hst | reflexivity |].
    apply negb_true_iff. exact Hdelta. }
  cbn [mbind option_bind] in Hrm.
  destruct (tg_bonus m) as [bonus |]; [| discriminate].
  cbn [mbind option_bind] in Hrm. injection Hrm as <-.
  unfold contributions. cbn [rm_rank ms_contributions].
  apply Hbonus; [intros Hon; apply negb_true_iff; exact Hon |].
  apply Hbonus; [intros _; vm_compute; reflexivity |].
  apply Hbonus; [intros _; vm_compute; reflexivity |].
  exact Hst2.
Qed.

Lemma contributions_nonzero_witness :
  exists ranked,
    @score_matches float binary64_float nan_matches idle_stats heavy_rules
    = Some ranked
    /\ Forall (fun rm =>
                 Forall (fun c => f_eqb (PyFloat:=binary64_float) (sc_weight c) f_zero
                                  = false)
                        (contributions rm))
              ranked.
Proof.
  destruct (@score_matches float binary64_float nan_matches idle_stats heavy_rules)
    as [ranked |] eqn:Hranked; [| vm_compute in Hranked; discriminate].
  exists ranked. split; [reflexivity |].
  exact (contributions_nonzero nan_matches idle_stats heavy_rules ranked Hranked).
Defined.

Lemma index_rules_known {R : Type} `{PyFloat R} (rules : list (ScoringRule R))
    (acc : gmap string R * gmap string R) :
  fold_left index_step (List.filter known_kind rules) acc
  = fold_left index_step rules acc.
Proof.
  revert acc. induction rules as [| r rules IH]; intros acc; [reflexivity |].
  cbn [List.filter fold_left]. unfold known_kind at 1.
  destruct (String.eqb (rule_kind r) "player") eqn:Hp; cbn [orb].
  - cbn [fold_left]. apply IH.
  - destruct (String.eqb (rule_kind r) "team") eqn:Ht.
    + cbn [fold_left]. apply IH.
    + rewrite IH. f_equal. unfold index_step. destruct acc as [player_w team_w].
      cbv zeta. rewrite Hp, Ht. reflexivity.
Qed.

(** X8: a rule whose entity type is neither "player" nor "team" (after
    trimming and lowering the case) has no effect: the ranking with such
    rules is the ranking without them. *)
Theorem score_matches_ignores_unknown_kinds :
  forall (R : Type) (F : PyFloat R) (matches : list MatchForScoring)
         (stats : list PlayerGameStats) (rules : list (ScoringRule R)),
    score_matches matches stats (List.filter known_kind rules)
    = score_matches matches stats rules.
Proof.
  intros R F matches stats rules. unfold score_matches, scored, _index_rules.
  rewrite index_rules_known. reflexivity.
Qed.

(** X10: a match is scored from its own statistics rows only: rows of
    matches that are not being scored change nothing in the ranking. *)
Theorem score_matches_own_rows :
  forall (R : Type) (F : PyFloat R) (matches : list MatchForScoring)
         (stats : list PlayerGameStats) (rules : list (ScoringRule R)),
    score_matches matches
      (List.filter (fun ps => bool_decide (ps_match_id ps ∈ map m_match_id matches))
                   stats)
      rules
    = score_matches matches stats rules.
Proof.
  intros R F matches stats rules. unfold score_matches. rewrite !scored_unfold.
  f_equal.
  apply map_try_ext_in. intros m Hm. unfold score_match.
  rewrite !group_stats_rows. unfold Spec.stat_rows.
  rewrite filter_filter_and.
  rewrite (filter_ext_bool _ (fun ps => String.eqb (ps_match_id ps) (m_match_id m)));
    [reflexivity |].
  intros ps. cbv beta.
  destruct (String.eqb (ps_match_id ps) (m_match_id m)) eqn:Heq;
    [| apply andb_false_r].
  apply String.eqb_eq in Heq. rewrite andb_true_r.
  apply bool_decide_eq_true. rewrite Heq. apply list_elem_of_In, in_map, Hm.
Qed.

(** X11: in binary64 the order of the rules matters.  With three rules of
    0.1, 0.2 and 0.3 for one team and a rule of 0.6 for another, the match
    of the first team is scored 0.6000000000000001 and is ranked first;
    with the same rules in the order 0.3, 0.2, 0.1 it is scored 0.6, ties
    with the other match, and is ranked second. *)
Theorem score_matches_rule_order :
  Permutation order_rules order_rules_again
  /\ option_map (map (fun rm => (m_match_id (rm_match rm), score_of rm)))
                (@score_matches float binary64_float order_matches [] order_rules)
     = Some [("a", 0.6000000000000001%float); ("b", 0.6%float)]
  /\ option_map (map (fun rm => (m_match_id (rm_match rm), score_of rm)))
                (@score_matches float binary64_float order_matches [] order_rules_again)
     = Some [("b", 0.6%float); ("a", 0.6%float)].
Proof.
  split; [| split; vm_compute; reflexivity].
  unfold order_rules, order_rules_again.
  apply Permutation_rev.
Qed.
(* ===================================================================== *)
(** * Further properties of the public view builder and of the renderer *)
(* ===================================================================== *)

Lemma NoDup_map_inj {A B : Type} (f : A -> B) (l : list A) (x y : A) :
  NoDup (map f l) -> In x l -> In y l -> f x = f y -> x = y.
Proof.
  induction l as [| a l IH]; cbn [map]; intros Hnd Hx Hy Hf; [destruct Hx |].
  apply NoDup_cons in Hnd as [Hnotin Hnd].
  destruct Hx as [-> | Hx], Hy as [-> | Hy].
  - reflexivity.
  - exfalso. apply Hnotin, list_elem_of_In. rewrite Hf. apply in_map, Hy.
  - exfalso. apply Hnotin, list_elem_of_In. rewrite <- Hf. apply in_map, Hx.
  - apply IH; assumption.
Qed.

(** When no two results are for the same match and kind, the result looked
    at for a match and a kind is the one listed for them. *)
Lemma last_result_unique (video_results : list VideoLinkResult) (vr : VideoLinkResult) :
  NoDup (map (fun vr => (vr_match_id vr, vr_kind vr)) video_results) ->
  In vr video_results ->
  Spec.last_result video_results (vr_match_id vr) (vr_kind vr) = Some vr.
Proof.
  intros Hnd Hin. unfold Spec.last_result.
  destruct (List.find _ (rev video_results)) as [vr' |] eqn:Hfind.
  - apply find_some in Hfind as [Hin' Hp].
    apply in_rev in Hin'.
    apply andb_true_iff in Hp as [Hid Hkind].
    apply String.eqb_eq in Hid. apply bool_decide_eq_true in Hkind.
    f_equal.
    apply (NoDup_map_inj (fun vr => (vr_match_id vr, vr_kind vr)) video_results);
      [assumption .. |].
    cbv beta. rewrite Hid, Hkind. reflexivity.
  - exfalso.
    assert (Hin' : In vr (rev video_results)) by (apply in_rev in Hin; exact Hin).
    pose proof (find_none _ _ Hfind vr Hin') as Hp. cbv beta in Hp.
    rewrite String.eqb_refl, bool_decide_eq_true_2 in Hp by reflexivity.
    discriminate.
Qed.

(** X12: when the video results hold at most one result per match and
    kind, every one of them that belongs to a published match is used: a
    result with status "error" contributes its embedded error to the errors
    of the post, and a result with status "found" gives its URL to the item
    of its match. *)
Theorem build_post_public_unique_results :
  forall (R : Type) (F : PyFloat R) (run_date_msk : date) (now_utc : datetime)
         (ranked : list (RankedMatch R)) (video_results : list VideoLinkResult)
         (cfg : UsecaseConfig R) (extra_errors : list AppError) (h : Heap),
    NoDup (map (fun vr => (vr_match_id vr, vr_kind vr)) video_results) ->
    let built := build_post_public run_date_msk now_utc ranked video_results cfg
                                   extra_errors h in
    SpecView.every_error_result_contributes
      ranked video_results cfg (deref (snd built) (p_errors (fst built)))
    /\ forall vr rm,
         In vr video_results ->
         In rm (SpecView.surviving cfg ranked) ->
         m_match_id (rm_match rm) = vr_match_id vr ->
         vr_status vr = VideoStatus.FOUND ->
         exists it,
           In it (p_items (fst built))
           /\ it_match_id it = vr_match_id vr
           /\ (vr_kind vr = VideoKind.HIGHLIGHTS -> it_highlights_url it = vr_url vr)
           /\ (vr_kind vr = VideoKind.FULL -> it_full_url it = vr_url vr).
Proof.
  intros R F run_date_msk now_utc ranked video_results cfg extra_errors h Hnd built.
  destruct (build_post_public_view run_date_msk now_utc ranked video_results cfg
                                   extra_errors h)
    as (Hitems & Herrors & _).
  fold built in Hitems, Herrors. split.
  - intros vr e Hin Hst Herr (rm & Hrm & Hid).
    rewrite Herrors. apply in_or_app. right.
    apply in_concat. exists (SpecView.errors_of video_results rm).
    split; [apply in_map, Hrm |].
    unfold SpecView.errors_of. rewrite Hid.
    pose proof (last_result_unique video_results vr Hnd Hin) as Hlast.
    destruct (vr_kind vr); rewrite Hlast; apply in_or_app; [left | right];
      apply video_error_In; exists vr; repeat split; assumption.
  - intros vr rm Hin Hrm Hid Hst.
    exists (SpecView.item_of video_results rm).
    split; [rewrite Hitems; apply in_map, Hrm |].
    split; [exact Hid |].
    pose proof (last_result_unique video_results vr Hnd Hin) as Hlast.
    unfold SpecView.item_of, SpecView.url_of.
    cbn [it_highlights_url it_full_url]. rewrite Hid.
    split; intros Hkind; rewrite Hkind in Hlast; rewrite Hlast;
      unfold found_url; rewrite decide_True by exact Hst; reflexivity.
Qed.

Lemma build_post_public_unique_results_witness :
  NoDup (map (fun vr => (vr_match_id vr, vr_kind vr)) [video_failed])
  /\ SpecView.every_error_result_contributes
       [sample_ranked 4 3] [video_failed] default_config
       (deref (snd (build_post_public (ymd2ord 2026 11 3) now_aware [sample_ranked 4 3]
                                      [video_failed] default_config [] []))
              (p_errors (fst (build_post_public (ymd2ord 2026 11 3) now_aware
                                                [sample_ranked 4 3] [video_failed]
                                                default_config [] [])))).
Proof.
  assert (Hnd : NoDup (map (fun vr => (vr_match_id vr, vr_kind vr)) [video_failed])).
  { cbn [map]. apply NoDup_singleton. }
  split; [exact Hnd |].
  exact (proj1 (build_post_public_unique_results float binary64_float (ymd2ord 2026 11 3) now_aware
                  [sample_ranked 4 3] [video_failed] default_config [] [] Hnd)).
Defined.

(** The triples seen after the loop over the errors. *)
Lemma error_fold_seen (errors : list AppError) (seen : gset (string * string * string))
    (lines : list string) :
  fst (fold_left error_step errors (seen, lines))
  = seen ∪ list_to_set (map error_key errors).
Proof.
  revert seen lines. induction errors as [| e errors IH]; intros seen lines.
  - cbn [fold_left fst map list_to_set]. rewrite (right_id_L ∅ (∪)). reflexivity.
  - cbn [fold_left map list_to_set]. unfold error_step at 2.
    destruct (decide (error_key e ∈ seen)) as [Hin | Hnotin]; rewrite IH;
      apply set_eq; intros k; rewrite !elem_of_union, ?elem_of_singleton;
      [split; [tauto | intros [? | [-> | ?]]; tauto] | tauto].
Qed.

Lemma first_occurrences_In (errors : list AppError) (e : AppError) :
  In e (Spec.first_occurrences errors) -> In e errors.
Proof.
  induction errors as [| e0 errors IH]; cbn [Spec.first_occurrences In]; [tauto |].
  intros [-> | Hin]; [left; reflexivity |].
  apply filter_In in Hin as [Hin _]. right. apply IH, Hin.
Qed.

Lemma filter_none {A : Type} (p : A -> bool) (l : list A) :
  Forall (fun x => p x = false) l -> List.filter p l = [].
Proof.
  induction 1 as [| x l Hx _ IH]; cbn [List.filter]; [reflexivity |].
  rewrite Hx. exact IH.
Qed.

(** X14: a problem that was already reported never adds a line: the lines
    of the problems of a list of errors do not change when errors are
    appended whose (code, source, message) triples all occur in the list. *)
Theorem error_lines_repeats :
  forall errors more : list AppError,
    Forall (fun e => In (error_key e) (map error_key errors)) more ->
    error_lines (errors ++ more) = error_lines errors.
Proof.
  intros errors more Hmore.
  destruct errors as [| e0 errors].
  - destruct more as [| e more]; [reflexivity |].
    apply Forall_inv in Hmore. destruct Hmore.
  - cbn [app]. unfold error_lines. f_equal.
    change (e0 :: errors ++ more) with ((e0 :: errors) ++ more).
    rewrite fold_left_app.
    destruct (fold_left error_step (e0 :: errors) (∅, [])) as [seen lines] eqn:Hfold.
    rewrite error_fold. cbn [snd].
    assert (Hseen : seen = ∅ ∪ list_to_set (map error_key (e0 :: errors))).
    { rewrite <- (error_fold_seen (e0 :: errors) ∅ []), Hfold. reflexivity. }
    rewrite filter_none; [cbn [map]; apply app_nil_r |].
    apply List.Forall_forall. intros e He. cbv beta.
    apply negb_false_iff, bool_decide_eq_true. rewrite Hseen.
    apply elem_of_union_r, elem_of_list_to_set, list_elem_of_In.
    apply first_occurrences_In in He.
    exact (proj1 (List.Forall_forall _ _) Hmore e He).
Qed.

Lemma error_lines_repeats_witness :
  Forall (fun e => In (error_key e) (map error_key [sample_error])) [sample_error_again]
  /\ error_lines ([sample_error] ++ [sample_error_again]) = error_lines [sample_error].
Proof.
  assert (Hmore : Forall (fun e => In (error_key e) (map error_key [sample_error]))
                         [sample_error_again]).
  { constructor; [left; reflexivity | constructor]. }
  split; [exact Hmore |].
  exact (error_lines_repeats [sample_error] [sample_error_again] Hmore).
Defined.

(* ===================================================================== *)
(** * Further properties of the orchestrator *)
(* ===================================================================== *)

Lemma new_calls_app {W : Type} (s s' : RunState W) (calls : list Call) :
  st_calls s' = st_calls s ++ calls -> new_calls s s' = calls.
Proof.
  intros Hcalls. unfold new_calls. rewrite Hcalls. apply drop_app_length.
Qed.

(** X15: the calls of a run.  A run that returns has asked the registry for
    the run date first.  If it returns no post it has called nothing else.
    If it returns a post it has loaded the results, then (when there were
    matches) the rules and the videos, then published one text, then marked
    the run date as published: it publishes exactly once, and always before
    it writes to the registry. *)
Theorem run_daily_digest_calls :
  forall (R : Type) (F : PyFloat R) (tzdb : string -> option Zone) (W : Type)
         (now_utc : datetime) (cfg : UsecaseConfig R)
         (results_loader : ResultsLoader W)
         (rules_loader : ScoringRulesLoader (R:=R) W)
         (video_loader : VideoLoader W) (publisher : Publisher W)
         (registry : PublicationRegistry W) (s s' : RunState W)
         (result : option (PostPublic R) * nat),
    run_daily_digest tzdb W now_utc cfg results_loader rules_loader video_loader
                     publisher registry s
    = Some (result, s') ->
    exists key ws we,
      compute_window tzdb now_utc cfg = Some (key, ws, we)
      /\ st_calls s' = st_calls s ++ new_calls s s'
      /\ match fst result with
         | None => new_calls s s' = [CallRegistryGet key]
         | Some post =>
           exists text record,
             p_run_date_msk post = key
             /\ rec_run_date_msk record = key
             /\ rec_published record = true
             /\ (new_calls s s'
                 = [CallRegistryGet key; CallResultsLoad ws we;
                    CallPublish text; CallSetPublished record]
                 /\ p_items post = []
                 \/ exists match_ids,
                      new_calls s s'
                      = [CallRegistryGet key; CallResultsLoad ws we; CallRulesLoad;
                         CallVideoLoad match_ids; CallPublish text;
                         CallSetPublished record])
         end.
Proof.
  intros R F tzdb W now_utc cfg results_loader rules_loader video_loader publisher
         registry s s' result Hrun.
  apply run_daily_digest_outcome in Hrun.
  destruct Hrun as [key ws we rec reg_err w1 Hwin Hget Hpub
                   | key ws we rec reg_err w1 stats res_err w2 msg_id pub_err w3
                     set_err w4 Hwin Hget Hrec Hres post text Hpublish record Hset
                   | key ws we rec reg_err w1 matches stats res_err w2 rules rules_err
                     w3 ranked video_res video_err w4 msg_id pub_err w5 set_err w6
                     Hwin Hget Hrec Hres Hmatches Hrules Hscore match_ids Hvideo
                     collected built text Hpublish record Hset];
    exists key, ws, we; (split; [exact Hwin |]).
  - rewrite (new_calls_app s _ [CallRegistryGet key]) by reflexivity.
    split; reflexivity.
  - rewrite (new_calls_app s _ [CallRegistryGet key; CallResultsLoad ws we;
                                CallPublish text; CallSetPublished record])
      by reflexivity.
    split; [reflexivity |]. cbn [fst].
    exists text, record. repeat split. left. split; reflexivity.
  - rewrite (new_calls_app s _ [CallRegistryGet key; CallResultsLoad ws we;
                                CallRulesLoad; CallVideoLoad match_ids;
                                CallPublish text; CallSetPublished record])
      by reflexivity.
    split; [reflexivity |]. cbn [fst].
    exists text, record. split.
    { cbn [p_run_date_msk].
      apply (build_post_public_view key now_utc ranked video_res cfg collected). }
    repeat split. right. exists match_ids. reflexivity.
Qed.

Lemma run_daily_digest_calls_witness :
  exists result s',
    empty_run now_aware fresh_state = Some (result, s')
    /\ exists key ws we,
         compute_window sample_tzdb now_aware (default_config (R:=float))
         = Some (key, ws, we)
         /\ st_calls s' = st_calls fresh_state ++ new_calls fresh_state s'
         /\ match fst result with
            | None => new_calls fresh_state s' = [CallRegistryGet key]
            | Some post =>
              exists text record,
                p_run_date_msk post = key
                /\ rec_run_date_msk record = key
                /\ rec_published record = true
                /\ (new_calls fresh_state s'
                    = [CallRegistryGet key; CallResultsLoad ws we;
                       CallPublish text; CallSetPublished record]
                    /\ p_items post = []
                    \/ exists match_ids,
                         new_calls fresh_state s'
                         = [CallRegistryGet key; CallResultsLoad ws we; CallRulesLoad;
                            CallVideoLoad match_ids; CallPublish text;
                            CallSetPublished record])
            end.
Proof.
  unfold empty_run.
  destruct (run_daily_digest sample_tzdb _ now_aware default_config
              (results_loader_beside EmptyResultsLoader)
              (rules_loader_beside MockScoringRulesLoader)
              (video_loader_beside MockVideoLoader)
              (publisher_beside StdoutPublisher)
              InMemoryPublicationRegistry fresh_state)
    as [[result s'] |] eqn:Hrun; [| vm_compute in Hrun; discriminate].
  exists result, s'. split; [reflexivity |].
  exact (run_daily_digest_calls float binary64_float sample_tzdb _ now_aware default_config
           (results_loader_beside EmptyResultsLoader)
           (rules_loader_beside MockScoringRulesLoader)
           (video_loader_beside MockVideoLoader)
           (publisher_beside StdoutPublisher)
           InMemoryPublicationRegistry fresh_state s' result Hrun).
Defined.



(** X17: the list of errors a run returns is a new list object; the post
    the run returns refers to that same object (not to a copy), the lists
    of errors that existed before the run keep their content, and the run
    creates at most one more list of errors. *)
Theorem run_daily_digest_error_list :
  forall (R : Type) (F : PyFloat R) (tzdb : string -> option Zone) (W : Type)
         (now_utc : datetime) (cfg : UsecaseConfig R)
         (results_loader : ResultsLoader W)
         (rules_loader : ScoringRulesLoader (R:=R) W)
         (video_loader : VideoLoader W) (publisher : Publisher W)
         (registry : PublicationRegistry W) (s s' : RunState W)
         (result : option (PostPublic R) * nat),
    run_daily_digest tzdb W now_utc cfg results_loader rules_loader video_loader
                     publisher registry s
    = Some (result, s') ->
    snd result = length (st_heap s)
    /\ (forall post, fst result = Some post -> p_errors post = snd result)
    /\ (forall a, (a < length (st_heap s))%nat ->
          deref (st_heap s') a = deref (st_heap s) a)
    /\ (length (st_heap s) < length (st_heap s') <= length (st_heap s) + 2)%nat.
Proof.
  intros R F tzdb W now_utc cfg results_loader rules_loader video_loader publisher
         registry s s' result Hrun.
  apply run_daily_digest_outcome in Hrun.
  destruct Hrun; cbn [fst snd st_heap];
    (split; [reflexivity |]);
    (split; [intros post0 Hpost; try discriminate; injection Hpost as <-; reflexivity |]);
    (split; [intros a Ha; unfold deref; rewrite lookup_app_l by exact Ha; reflexivity |]);
    rewrite length_app; cbn [length]; lia.
Qed.

Lemma run_daily_digest_error_list_witness :
  exists result s',
    failing_publish_run now_aware fresh_state = Some (result, s')
    /\ snd result = length (st_heap fresh_state)
    /\ (forall post, fst result = Some post -> p_errors post = snd result)
    /\ (forall a, (a < length (st_heap fresh_state))%nat ->
          deref (st_heap s') a = deref (st_heap fresh_state) a)
    /\ (length (st_heap fresh_state) < length (st_heap s')
        <= length (st_heap fresh_state) + 2)%nat.
Proof.
  unfold failing_publish_run.
  destruct (run_daily_digest sample_tzdb _ now_aware default_config
              (results_loader_beside MockResultsLoader)
              (rules_loader_beside MockScoringRulesLoader)
              (video_loader_beside MockVideoLoader)
              (publisher_beside FailingPublisher)
              InMemoryPublicationRegistry fresh_state)
    as [[result s'] |] eqn:Hrun; [| vm_compute in Hrun; discriminate].
  exists result, s'. split; [reflexivity |].
  exact (run_daily_digest_error_list float binary64_float sample_tzdb _ now_aware default_config
           (results_loader_beside MockResultsLoader)
           (rules_loader_beside MockScoringRulesLoader)
           (video_loader_beside MockVideoLoader)
           (publisher_beside FailingPublisher)
           InMemoryPublicationRegistry fresh_state s' result Hrun).
Defined.

Lemma filter_map_comm {A B : Type} (p : B -> bool) (f : A -> B) (l : list A) :
  List.filter p (map f l) = map f (List.filter (fun a => p (f a)) l).
Proof.
  induction l as [| a l IH]; cbn [map List.filter]; [reflexivity |].
  destruct (p (f a)); cbn [map]; rewrite IH; reflexivity.
Qed.

(** In binary64 the matches whose videos are asked for are the matches of
    the post whose score is [>=] the threshold. *)
Lemma interesting_ids_items (cfg : UsecaseConfig float) (video_res : list VideoLinkResult)
    (ranked : list (RankedMatch float)) :
  @interesting_ids float binary64_float cfg ranked
  = map it_match_id
        (List.filter (@item_passes float binary64_float cfg)
                     (map (SpecView.item_of video_res)
                          (@SpecView.surviving float binary64_float cfg ranked))).
Proof.
  unfold interesting_ids, SpecView.surviving.
  rewrite filter_map_comm, map_map, filter_filter_and.
  cbn [SpecView.item_of it_match_id]. f_equal.
  apply filter_ext_bool. intros rm.
  unfold item_passes. cbn [SpecView.item_of it_rank_score]. unfold score_of.
  destruct (f_leb (PyFloat:=binary64_float) (min_interest_score cfg)
                  (ms_score (rm_rank rm))) eqn:Hle.
  - rewrite (float_leb_not_ltb _ _ Hle). reflexivity.
  - symmetry. apply andb_false_r.
Qed.

Lemma filter_all {A : Type} (p : A -> bool) (l : list A) :
  Forall (fun x => p x = true) l -> List.filter p l = l.
Proof.
  induction 1 as [| x l Hx _ IH]; cbn [List.filter]; [reflexivity |].
  rewrite Hx, IH. reflexivity.
Qed.

(** X18: the videos that are asked for, in binary64.  A run that returns a
    post has loaded the results of the window.  When the window has no
    match the video loader is not called; otherwise it is called once, with
    the identifiers of the items of the post whose rank score is [>=] the
    threshold, in the order of the post.  These are all the items of the
    post when neither the threshold nor a rank score is a NaN.  (An item
    whose score is a NaN is in the post and its videos are not asked
    for.) *)
Theorem run_daily_digest_videos_for_items :
  forall (tzdb : string -> option Zone) (W : Type)
         (now_utc : datetime) (cfg : UsecaseConfig float)
         (results_loader : ResultsLoader W)
         (rules_loader : ScoringRulesLoader (R:=float) W)
         (video_loader : VideoLoader W) (publisher : Publisher W)
         (registry : PublicationRegistry W) (s s' : RunState W)
         (post : PostPublic float) (errors : nat),
    @run_daily_digest float binary64_float tzdb W now_utc cfg results_loader
                      rules_loader video_loader publisher registry s
    = Some ((Some post, errors), s') ->
    exists key ws we rec reg_err w1 matches stats res_err w2,
      compute_window tzdb now_utc cfg = Some (key, ws, we)
      /\ registry_get registry key (st_world s) = Some ((rec, reg_err), w1)
      /\ results_load results_loader ws we w1 = Some ((matches, stats, res_err), w2)
      /\ video_loads (new_calls s s')
         = match matches with
           | [] => []
           | _ => [map it_match_id
                       (List.filter (@item_passes float binary64_float cfg)
                                    (p_items post))]
           end
      /\ (matches = [] -> p_items post = [])
      /\ (@is_nan float binary64_float (min_interest_score cfg) = false ->
          Forall (fun it => exists score,
                              it_rank_score it = Some score
                              /\ @is_nan float binary64_float score = false)
                 (p_items post) ->
          List.filter (@item_passes float binary64_float cfg) (p_items post)
          = p_items post).
Proof.
  intros tzdb W now_utc cfg results_loader rules_loader video_loader publisher
         registry s s' post errors Hrun.
  assert (Hall : @is_nan float binary64_float (min_interest_score cfg) = false ->
                 forall items : list (PostItemPublic float),
                   Forall (fun it => exists score,
                                       it_rank_score it = Some score
                                       /\ @is_nan float binary64_float score = false)
                          items ->
                   Forall (fun it => exists rm : RankedMatch float,
                                       it_rank_score it = Some (score_of rm)
                                       /\ f_ltb (PyFloat:=binary64_float) (score_of rm)
                                                (min_interest_score cfg) = false)
                          items ->
                   List.filter (@item_passes float binary64_float cfg) items = items).
  { intros Hthreshold items Hscores Hkept. apply filter_all.
    apply List.Forall_forall. intros it Hin.
    destruct (proj1 (List.Forall_forall _ _) Hscores it Hin) as (score & Hscore & Hnan).
    destruct (proj1 (List.Forall_forall _ _) Hkept it Hin) as (rm & Hrm & Hlt).
    unfold item_passes. rewrite Hscore. rewrite Hrm in Hscore. injection Hscore as Hsc.
    rewrite Hsc in Hlt.
    apply float_ltb_false_iff in Hlt as [Hle | [Hn | Hn]]; [exact Hle | congruence ..]. }
  apply run_daily_digest_outcome in Hrun.
  inversion Hrun as [| key ws we rec reg_err w1 stats res_err w2 msg_id pub_err w3
                       set_err w4 Hwin Hget Hrec Hres post0 text Hpublish record Hset
                     | key ws we rec reg_err w1 matches stats res_err w2 rules rules_err
                       w3 ranked video_res video_err w4 msg_id pub_err w5 set_err w6
                       Hwin Hget Hrec Hres Hmatches Hrules Hscore match_ids Hvideo
                       collected built text Hpublish record Hset];
    subst.
  - exists key, ws, we, rec, reg_err, w1, [], stats, res_err, w2.
    split; [exact Hwin |]. split; [exact Hget |]. split; [exact Hres |].
    rewrite (new_calls_app s _ [CallRegistryGet key; CallResultsLoad ws we;
                                CallPublish text; CallSetPublished record])
      by reflexivity.
    cbn [p_items]. repeat split; reflexivity.
  - exists key, ws, we, rec, reg_err, w1, matches, stats, res_err, w2.
    split; [exact Hwin |]. split; [exact Hget |]. split; [exact Hres |].
    rewrite (new_calls_app s _ [CallRegistryGet key; CallResultsLoad ws we;
                                CallRulesLoad; CallVideoLoad match_ids;
                                CallPublish text; CallSetPublished record])
      by reflexivity.
    cbn [p_items].
    destruct (build_post_public_view key now_utc ranked video_res cfg collected
                                     (st_heap s ++ [collected])) as (Hitems & _).
    fold built in Hitems.
    split.
    { destruct matches as [| m matches]; [contradiction |].
      cbn [video_loads flat_map app]. f_equal.
      rewrite Hitems. apply interesting_ids_items. }
    split; [intros Hnil; contradiction |].
    intros Hthreshold Hscores. apply (Hall Hthreshold _ Hscores).
    rewrite Hitems. apply List.Forall_forall. intros it Hin.
    apply in_map_iff in Hin as (rm & <- & Hin).
    exists rm. split; [reflexivity |].
    unfold SpecView.surviving in Hin. apply filter_In in Hin as [_ Hlt].
    apply negb_true_iff in Hlt. exact Hlt.
Qed.

Lemma run_daily_digest_videos_for_items_witness :
  exists post errors s',
    mock_run now_aware fresh_state = Some ((Some post, errors), s')
    /\ map it_match_id (p_items post) = ["m1"; "m2"]
    /\ video_loads (new_calls fresh_state s') = [["m1"; "m2"]]
    /\ exists key ws we rec reg_err w1 matches stats res_err w2,
         compute_window sample_tzdb now_aware default_config = Some (key, ws, we)
         /\ registry_get InMemoryPublicationRegistry key (st_world fresh_state)
            = Some ((rec, reg_err), w1)
         /\ results_load (results_loader_beside MockResultsLoader) ws we w1
            = Some ((matches, stats, res_err), w2)
         /\ video_loads (new_calls fresh_state s')
            = match matches with
              | [] => []
              | _ => [map it_match_id
                          (List.filter (item_passes default_config) (p_items post))]
              end
         /\ (matches = [] -> p_items post = [])
         /\ (is_nan (min_interest_score (R:=float) default_config) = false ->
             Forall (fun it => exists score,
                                 it_rank_score it = Some score
                                 /\ is_nan score = false)
                    (p_items post) ->
             List.filter (item_passes default_config) (p_items post) = p_items post).
Proof.
  unfold mock_run.
  destruct (run_daily_digest sample_tzdb _ now_aware default_config
              (results_loader_beside MockResultsLoader)
              (rules_loader_beside MockScoringRulesLoader)
              (video_loader_beside MockVideoLoader)
              (publisher_beside StdoutPublisher)
              InMemoryPublicationRegistry fresh_state)
    as [[[[post |] errors] s'] |] eqn:Hrun;
    [| vm_compute in Hrun; discriminate | vm_compute in Hrun; discriminate].
  exists post, errors, s'. split; [reflexivity |].
  split; [vm_compute in Hrun; injection Hrun as <- _ _; reflexivity |].
  split; [vm_compute in Hrun; injection Hrun as _ _ <-; reflexivity |].
  exact (run_daily_digest_videos_for_items sample_tzdb _ now_aware default_config
           (results_loader_beside MockResultsLoader)
           (rules_loader_beside MockScoringRulesLoader)
           (video_loader_beside MockVideoLoader)
           (publisher_beside StdoutPublisher)
           InMemoryPublicationRegistry fresh_state s' post errors Hrun).
Defined.

Lemma beside_fst {S W0 A : Type} (method : W0 -> option (A * W0)) (w w' : S * W0)
    (a : A) :
  beside method w = Some (a, w') -> fst w' = fst w.
Proof.
  unfold beside. destruct (method (snd w)) as [[a' w0] |]; [| discriminate].
  intros [= _ <-]. reflexivity.
Qed.

(** With the in-memory registry, a run writes to the store at its own run
    date only. *)
Lemma run_store_other_dates {R : Type} `{PyFloat R}
    (tzdb : string -> option Zone) (W0 : Type) (now_utc : datetime)
    (cfg : UsecaseConfig R) (results_loader : ResultsLoader W0)
    (rules_loader : ScoringRulesLoader (R:=R) W0) (video_loader : VideoLoader W0)
    (publisher : Publisher W0)
    (s s' : RunState (gmap Z PublicationRecord * W0))
    (key : date) (ws we : datetime) (result : option (PostPublic R) * nat)
    (other : date) :
  compute_window tzdb now_utc cfg = Some (key, ws, we) ->
  other <> key ->
  run_daily_digest tzdb _ now_utc cfg
                   (results_loader_beside results_loader)
                   (rules_loader_beside rules_loader)
                   (video_loader_beside video_loader)
                   (publisher_beside publisher)
                   InMemoryPublicationRegistry s
  = Some (result, s') ->
  fst (st_world s') !! other = fst (st_world s) !! other.
Proof.
  intros Hwin Hother Hrun. apply run_daily_digest_outcome in Hrun.
  destruct Hrun as
    [ key' ws' we' rec reg_err w1 Hwin' Hget Hpub
    | key' ws' we' rec reg_err w1 stats res_err w2 msg_id pub_err w3 set_err w4
           Hwin' Hget Hpub Hload post text Hpublish record Hset
    | key' ws' we' rec reg_err w1 matches stats res_err w2 rules rules_err w3 ranked
           video_res video_err w4 msg_id pub_err w5 set_err w6
           Hwin' Hget Hpub Hload Hne Hrules Hscore match_ids Hvideo collected built
           text Hpublish record Hset ];
    rewrite Hwin in Hwin'; injection Hwin' as <- <- <-;
    cbn [registry_get InMemoryPublicationRegistry] in Hget;
    injection Hget as _ _ <-; cbn [st_world].
  - reflexivity.
  - cbn [set_published InMemoryPublicationRegistry] in Hset.
    injection Hset as _ <-. cbn [fst rec_run_date_msk record].
    rewrite lookup_insert_ne by congruence.
    cbn [results_load results_loader_beside publish publisher_beside] in Hload, Hpublish.
    apply beside_fst in Hload, Hpublish. congruence.
  - cbn [set_published InMemoryPublicationRegistry] in Hset.
    injection Hset as _ <-. cbn [fst rec_run_date_msk record].
    rewrite lookup_insert_ne by congruence.
    cbn [results_load results_loader_beside publish publisher_beside
         rules_load rules_loader_beside load_for_matches video_loader_beside]
      in Hload, Hpublish, Hrules, Hvideo.
    apply beside_fst in Hload, Hpublish, Hrules, Hvideo. congruence.
Qed.

(** X19: the registry blocks one run date only.  With the in-memory
    registry, after a run for one run date, a run for another run date that
    has not been published yet returns a post and publishes once: what was
    published for one day never keeps the digest of another day from being
    published, and the record of the first day stays as it was. *)
Theorem run_daily_digest_other_run_date :
  forall (R : Type) (F : PyFloat R) (tzdb : string -> option Zone) (W0 : Type)
         (now1 now2 : datetime) (cfg : UsecaseConfig R)
         (results_loader : ResultsLoader W0)
         (rules_loader : ScoringRulesLoader (R:=R) W0)
         (video_loader : VideoLoader W0) (publisher : Publisher W0)
         (s s1 s2 : RunState (gmap Z PublicationRecord * W0))
         (key1 key2 : date) (ws1 we1 ws2 we2 : datetime)
         (result1 result2 : option (PostPublic R) * nat),
    compute_window tzdb now1 cfg = Some (key1, ws1, we1) ->
    compute_window tzdb now2 cfg = Some (key2, ws2, we2) ->
    key2 <> key1 ->
    published_record (fst (st_world s) !! key2) = None ->
    run_daily_digest tzdb _ now1 cfg
                     (results_loader_beside results_loader)
                     (rules_loader_beside rules_loader)
                     (video_loader_beside video_loader)
                     (publisher_beside publisher)
                     InMemoryPublicationRegistry s
    = Some (result1, s1) ->
    run_daily_digest tzdb _ now2 cfg
                     (results_loader_beside results_loader)
                     (rules_loader_beside rules_loader)
                     (video_loader_beside video_loader)
                     (publisher_beside publisher)
                     InMemoryPublicationRegistry s1
    = Some (result2, s2) ->
    (exists post, fst result2 = Some post /\ p_run_date_msk post = key2)
    /\ publish_count (st_calls s2) = S (publish_count (st_calls s1))
    /\ (exists rec, published_record (fst (st_world s2) !! key2) = Some rec)
    /\ fst (st_world s2) !! key1 = fst (st_world s1) !! key1.
Proof.
  intros R F tzdb W0 now1 now2 cfg results_loader rules_loader video_loader publisher
         s s1 s2 key1 key2 ws1 we1 ws2 we2 result1 result2
         Hwin1 Hwin2 Hne Hfree Hrun1 Hrun2.
  assert (Hfree1 : published_record (fst (st_world s1) !! key2) = None).
  { rewrite (run_store_other_dates tzdb W0 now1 cfg results_loader rules_loader
               video_loader publisher s s1 key1 ws1 we1 result1 key2 Hwin1 Hne Hrun1).
    exact Hfree. }
  destruct (first_run_publishes_once tzdb W0 now2 cfg results_loader rules_loader
              video_loader publisher s1 s2 key2 ws2 we2 result2 Hwin2 Hfree1 Hrun2)
    as (Hcount & rec2 & Hrec2 & Hpub2).
  split; [| split; [exact Hcount | split]].
  - pose proof Hrun2 as Hout. apply run_daily_digest_outcome in Hout.
    destruct Hout as
      [ key' ws' we' rec reg_err w1 Hwin' Hget Hpub
      | key' ws' we' rec reg_err w1 stats res_err w2 msg_id pub_err w3 set_err w4
             Hwin' Hget Hpub Hload post text Hpublish record Hset
      | key' ws' we' rec reg_err w1 matches stats res_err w2 rules rules_err w3 ranked
             video_res video_err w4 msg_id pub_err w5 set_err w6
             Hwin' Hget Hpub Hload Hne' Hrules Hscore match_ids Hvideo collected built
             text Hpublish record Hset ];
      rewrite Hwin2 in Hwin'; injection Hwin' as <- <- <-.
    + exfalso. cbn [registry_get InMemoryPublicationRegistry] in Hget.
      injection Hget as Hrec _ _.
      rewrite (proj2 (published_record_Some _ rec)) in Hfree1 by (split; assumption).
      discriminate.
    + eexists. split; reflexivity.
    + eexists. split; [reflexivity |]. cbn [p_run_date_msk].
      apply (build_post_public_view key2 now2 ranked video_res cfg collected).
  - exists rec2. apply published_record_Some. split; assumption.
  - apply (run_store_other_dates tzdb W0 now2 cfg results_loader rules_loader
             video_loader publisher s1 s2 key2 ws2 we2 result2 key1 Hwin2);
      [congruence | exact Hrun2].
Qed.

Lemma run_daily_digest_other_run_date_witness :
  compute_window sample_tzdb now_aware (default_config (R:=float))
  = Some (ymd2ord 2026 11 3,
          mk_datetime 2026 11 1 5 0 0 (Some tz_utc),
          mk_datetime 2026 11 3 5 0 0 (Some tz_utc))
  /\ compute_window sample_tzdb now_next_day (default_config (R:=float))
     = Some (ymd2ord 2026 11 4,
             mk_datetime 2026 11 2 5 0 0 (Some tz_utc),
             mk_datetime 2026 11 4 5 0 0 (Some tz_utc))
  /\ ymd2ord 2026 11 4 <> ymd2ord 2026 11 3
  /\ published_record (fst (st_world fresh_state) !! ymd2ord 2026 11 4) = None
  /\ exists result1 s1 result2 s2,
       mock_run now_aware fresh_state = Some (result1, s1)
       /\ mock_run now_next_day s1 = Some (result2, s2)
       /\ (exists post, fst result2 = Some post
                        /\ p_run_date_msk post = ymd2ord 2026 11 4)
       /\ publish_count (st_calls s2) = S (publish_count (st_calls s1))
       /\ (exists rec,
             published_record (fst (st_world s2) !! ymd2ord 2026 11 4) = Some rec)
       /\ fst (st_world s2) !! ymd2ord 2026 11 3
          = fst (st_world s1) !! ymd2ord 2026 11 3.
Proof.
  assert (Hwin1 : compute_window sample_tzdb now_aware (default_config (R:=float))
                  = Some (ymd2ord 2026 11 3,
                          mk_datetime 2026 11 1 5 0 0 (Some tz_utc),
                          mk_datetime 2026 11 3 5 0 0 (Some tz_utc)))
    by (vm_compute; reflexivity).
  assert (Hwin2 : compute_window sample_tzdb now_next_day (default_config (R:=float))
                  = Some (ymd2ord 2026 11 4,
                          mk_datetime 2026 11 2 5 0 0 (Some tz_utc),
                          mk_datetime 2026 11 4 5 0 0 (Some tz_utc)))
    by (vm_compute; reflexivity).
  assert (Hne : ymd2ord 2026 11 4 <> ymd2ord 2026 11 3)
    by (vm_compute; discriminate).
  assert (Hfree : published_record (fst (st_world fresh_state) !! ymd2ord 2026 11 4)
                  = None)
    by (vm_compute; reflexivity).
  split; [exact Hwin1 |]. split; [exact Hwin2 |]. split; [exact Hne |].
  split; [exact Hfree |].
  unfold mock_run.
  destruct (run_daily_digest sample_tzdb _ now_aware default_config
              (results_loader_beside MockResultsLoader)
              (rules_loader_beside MockScoringRulesLoader)
              (video_loader_beside MockVideoLoader)
              (publisher_beside StdoutPublisher)
              InMemoryPublicationRegistry fresh_state)
    as [[result1 s1] |] eqn:Hrun1; [| vm_compute in Hrun1; discriminate].
  destruct (run_daily_digest sample_tzdb _ now_next_day default_config
              (results_loader_beside MockResultsLoader)
              (rules_loader_beside MockScoringRulesLoader)
              (video_loader_beside MockVideoLoader)
              (publisher_beside StdoutPublisher)
              InMemoryPublicationRegistry s1)
    as [[result2 s2] |] eqn:Hrun2.
  - exists result1, s1, result2, s2.
    split; [reflexivity |]. split; [exact Hrun2 |].
    exact (run_daily_digest_other_run_date float binary64_float sample_tzdb (list string)
             now_aware now_next_day default_config
             MockResultsLoader MockScoringRulesLoader MockVideoLoader StdoutPublisher
             fresh_state s1 s2 (ymd2ord 2026 11 3) (ymd2ord 2026 11 4)
             (mk_datetime 2026 11 1 5 0 0 (Some tz_utc))
             (mk_datetime 2026 11 3 5 0 0 (Some tz_utc))
             (mk_datetime 2026 11 2 5 0 0 (Some tz_utc))
             (mk_datetime 2026 11 4 5 0 0 (Some tz_utc))
             result1 result2 Hwin1 Hwin2 Hne Hfree Hrun1 Hrun2).
  - exfalso. vm_compute in Hrun1. injection Hrun1 as <- <-.
    vm_compute in Hrun2. discriminate.
Defined.

(** X20: the run that publishes a digest, from what the collaborators
    answer.  When the registry holds no published record for the run date,
    the results loader finds matches and the scorer returns a ranking, the
    run loads the rules, ranks the matches, asks for the videos of the
    matches at or above the threshold, publishes the text of the post built
    from the ranking and marks the run date as published.  The published
    text lists the errors collected so far followed by the errors embedded
    in the video results; the errors the run returns, and those of the post
    it returns, are the errors reported by the six calls, in the order of
    the calls.  When the scorer raises [OverflowError] instead, so does the
    run, after the rules have been loaded. *)
Theorem run_daily_digest_digest :
  forall (R : Type) (F : PyFloat R) (tzdb : string -> option Zone) (W : Type)
         (now_utc : datetime) (cfg : UsecaseConfig R)
         (results_loader : ResultsLoader W)
         (rules_loader : ScoringRulesLoader (R:=R) W)
         (video_loader : VideoLoader W) (publisher : Publisher W)
         (registry : PublicationRegistry W) (s : RunState W)
         (key : date) (ws we : datetime) (rec : option PublicationRecord)
         (reg_err : list AppError) (w1 : W)
         (matches : list MatchForScoring) (stats : list PlayerGameStats)
         (res_err : list AppError) (w2 : W)
         (rules : list (ScoringRule R)) (rules_err : list AppError) (w3 : W),
    compute_window tzdb now_utc cfg = Some (key, ws, we) ->
    registry_get registry key (st_world s) = Some ((rec, reg_err), w1) ->
    published_record rec = None ->
    results_load results_loader ws we w1 = Some ((matches, stats, res_err), w2) ->
    matches <> [] ->
    rules_load rules_loader w2 = Some ((rules, rules_err), w3) ->
    (score_matches matches stats rules = None ->
     run_daily_digest tzdb W now_utc cfg results_loader rules_loader video_loader
                      publisher registry s
     = None)
    /\ forall (ranked : list (RankedMatch R))
              (video_res : list VideoLinkResult) (video_err : list AppError) (w4 : W)
              (msg_id : option string) (pub_err : list AppError) (w5 : W)
              (set_err : list AppError) (w6 : W),
        let kept := SpecView.surviving cfg ranked in
        let items := map (SpecView.item_of video_res) kept in
        let collected := reg_err ++ res_err ++ rules_err ++ video_err in
        let embedded := concat (map (SpecView.errors_of video_res) kept) in
        let text := strip (join newline (render_lines items (collected ++ embedded))) in
        let record := {| rec_run_date_msk := key; rec_published := true;
                         rec_tg_message_id := msg_id;
                         rec_published_at_utc := Some (as_utc now_utc) |} in
        score_matches matches stats rules = Some ranked ->
        Forall (fun rm => is_nan (score_of rm) = false) ranked ->
        load_for_matches video_loader (interesting_ids cfg ranked) w3
        = Some ((video_res, video_err), w4) ->
        publish publisher text w4 = Some ((msg_id, pub_err), w5) ->
        set_published registry record w5 = Some (set_err, w6) ->
        exists post s',
          run_daily_digest tzdb W now_utc cfg results_loader rules_loader video_loader
                           publisher registry s
          = Some ((Some post, length (st_heap s)), s')
          /\ p_run_date_msk post = key
          /\ p_generated_at_utc post = as_utc now_utc
          /\ p_items post = items
          /\ st_calls s'
             = st_calls s ++ [CallRegistryGet key; CallResultsLoad ws we; CallRulesLoad;
                              CallVideoLoad (interesting_ids cfg ranked);
                              CallPublish text; CallSetPublished record]
          /\ st_world s' = w6
          /\ deref (st_heap s') (p_errors post) = collected ++ pub_err ++ set_err.
Proof.
  intros R F tzdb W now_utc cfg results_loader rules_loader video_loader publisher
         registry s key ws we rec reg_err w1 matches stats res_err w2 rules rules_err w3
         Hwin Hget Hpub Hload Hne Hrules.
  split.
  { intros Hscore. unfold run_daily_digest. do 2 run_step.
    rewrite Hwin. run_step. rewrite Hget. run_step. rewrite Hpub. run_step.
    rewrite Hload. run_step.
    destruct matches as [| m matches]; [contradiction |].
    run_step. rewrite Hrules. run_step. run_step. rewrite Hscore. reflexivity. }
  intros ranked video_res video_err w4 msg_id pub_err w5 set_err w6
         kept items collected embedded text record Hscore _ Hvideo Hpublish Hset.
  set (built := build_post_public key now_utc ranked video_res cfg collected
                                  (st_heap s ++ [collected])).
  destruct (build_post_public_view key now_utc ranked video_res cfg collected
                                   (st_heap s ++ [collected]))
    as (Hitems & Herrors & Hdate & Hgen & _).
  fold built in Hitems, Herrors, Hdate, Hgen.
  assert (Htext : render_post (snd built) (fst built) = text).
  { unfold render_post. rewrite Hitems, Herrors. reflexivity. }
  eexists _, _. split.
  - apply outcome_run_daily_digest.
    eapply (outcome_digest tzdb W now_utc cfg results_loader rules_loader video_loader
              publisher registry s key ws we rec reg_err w1 matches stats res_err w2
              rules rules_err w3 ranked video_res video_err w4 msg_id pub_err w5
              set_err w6);
      try eassumption.
    fold collected built. rewrite Htext. exact Hpublish.
  - cbn [p_run_date_msk p_generated_at_utc p_items p_errors st_calls st_world st_heap].
    fold collected built. rewrite Htext.
    split; [exact Hdate |]. split; [exact Hgen |]. split; [exact Hitems |].
    split; [reflexivity |]. split; [reflexivity |].
    rewrite (deref_at (st_heap s) _ [_]). reflexivity.
Qed.

Lemma run_daily_digest_digest_witness :
  (exists post s',
      mock_run now_aware fresh_state = Some ((Some post, 0%nat), s')
      /\ map it_match_id (p_items post) = ["m1"; "m2"]
      /\ In (CallPublish mock_text) (st_calls s')
      /\ deref (st_heap s') (p_errors post) = [])
  /\ endless_run now_aware fresh_state = None.
Proof.
  split.
  - destruct (proj2 (run_daily_digest_digest
                float binary64_float sample_tzdb (gmap Z PublicationRecord * list string)
                now_aware default_config
                (results_loader_beside MockResultsLoader)
                (rules_loader_beside MockScoringRulesLoader)
                (video_loader_beside MockVideoLoader)
                (publisher_beside StdoutPublisher)
                InMemoryPublicationRegistry fresh_state
                (ymd2ord 2026 11 3)
                (mk_datetime 2026 11 1 5 0 0 (Some tz_utc))
                (mk_datetime 2026 11 3 5 0 0 (Some tz_utc))
                None [] (∅, [])
                example_matches mock_stats [] (∅, [])
                mock_rules [] (∅, [])
                ltac:(vm_compute; reflexivity)
                ltac:(vm_compute; reflexivity)
                ltac:(vm_compute; reflexivity)
                ltac:(vm_compute; reflexivity)
                ltac:(discriminate)
                ltac:(vm_compute; reflexivity))
                example_ranking
                (concat (map mock_videos ["m1"; "m2"])) [] (∅, [])
                (Some "mock_message_id") []
                (∅, ["----- PUBLISH -----"; mock_text; "-------------------"])
                []
                (<[ymd2ord 2026 11 3 :=
                     {| rec_run_date_msk := ymd2ord 2026 11 3; rec_published := true;
                        rec_tg_message_id := Some "mock_message_id";
                        rec_published_at_utc := Some now_aware |}]> ∅,
                 ["----- PUBLISH -----"; mock_text; "-------------------"])
                ltac:(vm_compute; reflexivity)
                ltac:(repeat constructor)
                ltac:(vm_compute; reflexivity)
                ltac:(vm_compute; reflexivity)
                ltac:(vm_compute; reflexivity))
      as (post & s' & Hrun & _ & _ & Hitems & Hcalls & _ & Herrors).
    exists post, s'.
    split; [exact Hrun |].
    split; [rewrite Hitems; vm_compute; reflexivity |].
    split.
    + rewrite Hcalls. cbn [st_calls fresh_state app].
      right. right. right. right. left. vm_compute. reflexivity.
    + rewrite Herrors. reflexivity.
  - apply (proj1 (run_daily_digest_digest
                float binary64_float sample_tzdb (gmap Z PublicationRecord * list string)
                now_aware default_config
                (results_loader_beside EndlessResultsLoader)
                (rules_loader_beside MockScoringRulesLoader)
                (video_loader_beside MockVideoLoader)
                (publisher_beside StdoutPublisher)
                InMemoryPublicationRegistry fresh_state
                (ymd2ord 2026 11 3)
                (mk_datetime 2026 11 1 5 0 0 (Some tz_utc))
                (mk_datetime 2026 11 3 5 0 0 (Some tz_utc))
                None [] (∅, [])
                [endless_match] [] [] (∅, [])
                mock_rules [] (∅, [])
                ltac:(vm_compute; reflexivity)
                ltac:(vm_compute; reflexivity)
                ltac:(vm_compute; reflexivity)
                ltac:(vm_compute; reflexivity)
                ltac:(discriminate)
                ltac:(vm_compute; reflexivity))).
    vm_compute. reflexivity.
Defined.
(* ===================================================================== *)
(** * Properties of the in-memory registry and of the mock video loader *)
(* ===================================================================== *)

(** X21: the in-memory registry gives back what was written: after
    [set_published] the run date of the record is answered with that record
    (a later record for a run date replaces the earlier one), every other
    run date is answered as before, the registry reports no errors, and it
    touches nothing but its own store. *)
Theorem in_memory_registry_round_trip :
  forall (W0 : Type) (w : gmap Z PublicationRecord * W0) (record : PublicationRecord),
    exists w',
      set_published InMemoryPublicationRegistry record w = Some ([], w')
      /\ snd w' = snd w
      /\ registry_get InMemoryPublicationRegistry (rec_run_date_msk record) w'
         = Some ((Some record, []), w')
      /\ forall run_date_msk,
           run_date_msk <> rec_run_date_msk record ->
           registry_get InMemoryPublicationRegistry run_date_msk w'
           = Some ((fst w !! run_date_msk, []), w').
Proof.
  intros W0 w record. eexists. split; [reflexivity |].
  cbn [snd fst registry_get InMemoryPublicationRegistry].
  split; [reflexivity |]. split.
  - rewrite lookup_insert_eq. reflexivity.
  - intros d Hd. rewrite lookup_insert_ne by congruence. reflexivity.
Qed.

Lemma in_memory_registry_round_trip_witness :
  exists w',
    set_published InMemoryPublicationRegistry
      {| rec_run_date_msk := ymd2ord 2026 11 3; rec_published := true;
         rec_tg_message_id := None; rec_published_at_utc := None |}
      (st_world fresh_state)
    = Some ([], w')
    /\ registry_get InMemoryPublicationRegistry (ymd2ord 2026 11 4) w'
       = Some ((None, []), w').
Proof.
  destruct (in_memory_registry_round_trip (list string) (st_world fresh_state)
              {| rec_run_date_msk := ymd2ord 2026 11 3; rec_published := true;
                 rec_tg_message_id := None; rec_published_at_utc := None |})
    as (w' & Hset & _ & _ & Hother).
  exists w'. split; [exact Hset |].
  apply (Hother (ymd2ord 2026 11 4)). vm_compute. discriminate.
Defined.

Lemma last_result_app (l1 l2 : list VideoLinkResult) (mid : string)
    (kind : VideoKind.t) :
  Spec.last_result (l1 ++ l2) mid kind
  = match Spec.last_result l2 mid kind with
    | Some vr => Some vr
    | None => Spec.last_result l1 mid kind
    end.
Proof.
  unfold Spec.last_result. rewrite rev_app_distr.
  induction (rev l2) as [| vr l IH]; cbn [app List.find]; [reflexivity |].
  destruct (_ && _); [reflexivity | exact IH].
Qed.

(** The result the mock loader lists last for a match and a kind. *)
Lemma mock_last_result (match_ids : list string) (mid : string) (kind : VideoKind.t) :
  Spec.last_result (concat (map mock_videos match_ids)) mid kind
  = if bool_decide (mid ∈ match_ids)
    then List.find (fun vr => bool_decide (vr_kind vr = kind)) (mock_videos mid)
    else None.
Proof.
  induction match_ids as [| i ids IH]; cbn [map concat].
  - reflexivity.
  - rewrite last_result_app, IH.
    destruct (bool_decide (mid ∈ ids)) eqn:Hin.
    + apply bool_decide_eq_true in Hin.
      rewrite bool_decide_eq_true_2 by (right; exact Hin).
      destruct kind; reflexivity.
    + apply bool_decide_eq_false in Hin.
      destruct (decide (i = mid)) as [-> | Hne].
      * rewrite bool_decide_eq_true_2 by left.
        unfold Spec.last_result. cbn [mock_videos rev app List.find vr_match_id vr_kind].
        rewrite String.eqb_refl. destruct kind; reflexivity.
      * rewrite bool_decide_eq_false_2
          by (intros Hel; apply elem_of_cons in Hel as [-> | Hel]; tauto).
        unfold Spec.last_result. cbn [mock_videos rev app List.find vr_match_id].
        replace (String.eqb i mid) with false
          by (symmetry; apply String.eqb_neq; exact Hne).
        reflexivity.
Qed.

(** X22: the mock video loader answers with two results per match and no
    error, and a post built from its answer shows for every match that was
    asked for the highlights link of that match and no full recording; it
    adds no error to the caller's errors. *)
Theorem mock_videos_in_post :
  forall (R : Type) (F : PyFloat R) (W : Type) (w : W) (match_ids : list string)
         (run_date_msk : date) (now_utc : datetime) (ranked : list (RankedMatch R))
         (cfg : UsecaseConfig R) (extra_errors : list AppError) (h : Heap),
    exists video_results,
      load_for_matches MockVideoLoader match_ids w = Some ((video_results, []), w)
      /\ length video_results = (2 * length match_ids)%nat
      /\ let built := build_post_public run_date_msk now_utc ranked video_results cfg
                                        extra_errors h in
         Forall (fun it =>
                   it_full_url it = None
                   /\ it_highlights_url it
                      = if bool_decide (it_match_id it ∈ match_ids)
                        then Some ("https://vk.example/" +:+ it_match_id it
                                   +:+ "/highlights")
                        else None)
                (p_items (fst built))
         /\ deref (snd built) (p_errors (fst built)) = extra_errors.
Proof.
  intros R F W w match_ids run_date_msk now_utc ranked cfg extra_errors h.
  exists (concat (map mock_videos match_ids)).
  split; [reflexivity |]. split.
  { induction match_ids as [| i ids IH]; [reflexivity |].
    cbn [map concat length app mock_videos]. rewrite IH. lia. }
  intros built.
  destruct (build_post_public_view run_date_msk now_utc ranked
              (concat (map mock_videos match_ids)) cfg extra_errors h)
    as (Hitems & Herrors & _).
  fold built in Hitems, Herrors. rewrite Hitems, Herrors.
  clear Hitems Herrors. split.
  - apply List.Forall_forall. intros it Hit.
    apply in_map_iff in Hit as (rm & <- & _).
    unfold SpecView.item_of, SpecView.url_of.
    cbn [it_full_url it_highlights_url it_match_id].
    rewrite !mock_last_result.
    destruct (bool_decide _); split; reflexivity.
  - rewrite <- (app_nil_r extra_errors) at 2. f_equal.
    induction (SpecView.surviving cfg ranked) as [| rm l IH]; [reflexivity |].
    cbn [map concat]. rewrite IH, app_nil_r.
    unfold SpecView.errors_of. rewrite !mock_last_result.
    destruct (bool_decide _); reflexivity.
Qed.

(* ===================================================================== *)
(** * Properties of the contracts *)
(* ===================================================================== *)

(** X23: two errors are duplicates of each other for the renderer exactly
    when they have the same code, the same source system and the same
    message: the values of the source systems are pairwise distinct, so
    errors of different systems are never merged. *)
Theorem error_key_same_triple :
  forall e1 e2 : AppError,
    error_key e1 = error_key e2
    <-> e_code e1 = e_code e2 /\ e_source e1 = e_source e2
        /\ e_message e1 = e_message e2.
Proof.
  intros e1 e2. unfold error_key. split.
  - intros [= Hcode Hsource Hmessage]. repeat split; try assumption.
    destruct (e_source e1), (e_source e2); try reflexivity; discriminate.
  - intros (-> & -> & ->). reflexivity.
Qed.

Lemma error_key_same_triple_witness :
  error_key sample_error = error_key sample_error_again
  <-> e_code sample_error = e_code sample_error_again
      /\ e_source sample_error = e_source sample_error_again
      /\ e_message sample_error = e_message sample_error_again.
Proof. exact (error_key_same_triple sample_error sample_error_again). Defined.

(* ===================================================================== *)
(** * Properties of the masking of secrets *)
(* ===================================================================== *)

Lemma str_append_nil_r (s : string) : s +:+ "" = s.
Proof.
  induction s as [| a s IH]; [reflexivity |].
  change (String a (s +:+ "") = String a s). f_equal. exact IH.
Qed.

Lemma str_append_assoc (s1 s2 s3 : string) :
  (s1 +:+ s2) +:+ s3 = s1 +:+ (s2 +:+ s3).
Proof.
  induction s1 as [| a s1 IH]; [reflexivity |].
  change (String a ((s1 +:+ s2) +:+ s3) = String a (s1 +:+ (s2 +:+ s3))).
  f_equal. exact IH.
Qed.

Lemma of_chars_cons (c : string) (cs : list string) :
  of_chars (c :: cs) = c +:+ of_chars cs.
Proof.
  unfold of_chars. destruct cs as [| c' cs]; cbn [join].
  - symmetry. apply str_append_nil_r.
  - reflexivity.
Qed.

Lemma of_chars_app (l1 l2 : list string) :
  of_chars (l1 ++ l2) = of_chars l1 +:+ of_chars l2.
Proof.
  induction l1 as [| c l1 IH]; [reflexivity |].
  cbn [app]. rewrite !of_chars_cons, IH, str_append_assoc. reflexivity.
Qed.

(** The characters of a string, put together, are the string. *)
Lemma of_chars_from (cur : string) (more : nat) (s : string) :
  of_chars (chars_from cur more s) = cur +:+ s.
Proof.
  revert cur more. induction s as [| b r IH]; intros cur more; cbn [chars_from].
  - rewrite str_append_nil_r. destruct cur; reflexivity.
  - destruct more as [| k].
    + rewrite of_chars_app, IH. destruct cur; reflexivity.
    + rewrite IH, str_append_assoc. reflexivity.
Qed.

Lemma of_chars_chars (s : string) : of_chars (chars s) = s.
Proof. unfold chars. rewrite of_chars_from. reflexivity. Qed.

(** A string that is not empty has a character. *)
Lemma chars_nonempty (s : string) : nonempty s = true -> chars s <> [].
Proof.
  intros Hs Hnil. pose proof (of_chars_chars s) as Hback.
  rewrite Hnil in Hback. destruct s; discriminate.
Qed.

(** X24: what [mask_secret] shows of a secret when asked to keep at least
    one character.  A missing or empty value gives "<empty>"; a value of at
    most [keep_last] characters gives "<masked>", which shows none of it; a
    longer value gives "<masked>..." followed by its last [keep_last]
    characters, and at least one character of it stays hidden. *)
Theorem mask_secret_shows_suffix :
  forall (value : string) (keep_last : Z),
    1 <= keep_last ->
    mask_secret None keep_last = "<empty>"
    /\ (value = "" /\ mask_secret (Some value) keep_last = "<empty>"
        \/ value <> "" /\ str_len value <= keep_last
           /\ mask_secret (Some value) keep_last = "<masked>"
        \/ exists hidden shown,
             chars value = hidden ++ shown
             /\ hidden <> []
             /\ Z.of_nat (length shown) = keep_last
             /\ mask_secret (Some value) keep_last = "<masked>..." +:+ of_chars shown).
Proof.
  intros value keep_last Hkeep. split; [reflexivity |].
  unfold mask_secret.
  destruct value as [| b r]; [left; split; reflexivity |].
  right. cbn [nonempty negb].
  destruct (str_len _ <=? keep_last) eqn:Hlen;
    [apply Z.leb_le in Hlen | apply Z.leb_gt in Hlen].
  - left. split; [discriminate |]. split; [exact Hlen | reflexivity].
  - right. unfold str_len in Hlen. unfold slice_from.
    set (cs := chars (String b r)) in *.
    rewrite (proj2 (Z.ltb_lt _ _)) by lia.
    rewrite Z.max_l by lia.
    exists (take (Z.to_nat (- keep_last + Z.of_nat (length cs))) cs),
           (drop (Z.to_nat (- keep_last + Z.of_nat (length cs))) cs).
    split; [symmetry; apply take_drop |].
    split.
    + intros Hnil. apply (f_equal (@length string)) in Hnil.
      rewrite length_take in Hnil. cbn [length] in Hnil. lia.
    + split; [rewrite length_drop; lia | reflexivity].
Qed.

Lemma mask_secret_shows_suffix_witness :
  1 <= 4
  /\ mask_secret (Some "1234567890") 4 = "<masked>...7890"
  /\ exists hidden shown,
       chars "1234567890" = hidden ++ shown
       /\ hidden <> []
       /\ Z.of_nat (length shown) = 4
       /\ mask_secret (Some "1234567890") 4 = "<masked>..." +:+ of_chars shown.
Proof.
  split; [lia |]. split; [reflexivity |].
  destruct (mask_secret_shows_suffix "1234567890" 4 ltac:(lia))
    as (_ & [(Hempty & _) | [(_ & Hlen & _) | Hshown]]).
  - discriminate.
  - vm_compute in Hlen. destruct Hlen. reflexivity.
  - exact Hshown.
Defined.

(** X25: asked to keep no character, [mask_secret] hides nothing: for
    [keep_last = 0] the slice [value[-0:]] is the whole value, so the result
    is "<masked>..." followed by the entire secret; for a negative
    [keep_last] it is followed by the secret without its first
    [-keep_last] characters. *)
Theorem mask_secret_keep_nothing :
  forall (value : string) (keep_last : Z),
    value <> "" ->
    keep_last <= 0 ->
    mask_secret (Some value) keep_last
    = "<masked>..." +:+ of_chars (drop (Z.to_nat (- keep_last)) (chars value))
    /\ (keep_last = 0 -> mask_secret (Some value) keep_last = "<masked>..." +:+ value).
Proof.
  intros value keep_last Hvalue Hkeep.
  assert (Hmask : mask_secret (Some value) keep_last
                  = "<masked>..."
                    +:+ of_chars (drop (Z.to_nat (- keep_last)) (chars value))).
  { unfold mask_secret.
    assert (Hne : nonempty value = true) by (destruct value; [contradiction | reflexivity]).
    rewrite Hne. cbn [negb].
    pose proof (chars_nonempty value Hne) as Hchars.
    unfold str_len, slice_from.
    destruct (chars value) as [| c cs] eqn:Hcs; [contradiction |].
    rewrite (proj2 (Z.leb_gt _ _)) by (cbn [length]; lia).
    rewrite (proj2 (Z.ltb_ge _ _)) by lia.
    do 2 f_equal.
    destruct (Z.le_gt_cases (- keep_last) (Z.of_nat (length (c :: cs)))) as [Hin | Hout].
    - rewrite Z.min_l by exact Hin. reflexivity.
    - rewrite Z.min_r by lia. rewrite Nat2Z.id.
      rewrite !drop_ge; [reflexivity | lia | lia]. }
  split; [exact Hmask |].
  intros ->. rewrite Hmask. change (Z.to_nat (- 0)) with 0%nat.
  rewrite drop_0, of_chars_chars.
  reflexivity.
Qed.

Lemma mask_secret_keep_nothing_witness :
  "abcdef" <> "" /\ 0 <= 0
  /\ mask_secret (Some "abcdef") 0 = "<masked>...abcdef".
Proof.
  split; [discriminate |]. split; [lia |].
  exact (proj2 (mask_secret_keep_nothing "abcdef" 0 ltac:(discriminate) ltac:(lia))
               eq_refl).
Defined.
